(** * PromptSafe content script: a shallow embedding of [content.js]

    The content script has three layers, and the development follows them:

    - [Utils]: the text transform ([obfuscate] / [deobfuscate]) and the
      storage key.  They are compositions of browser builtins ([btoa],
      [atob], [escape], [unescape], [encodeURIComponent],
      [decodeURIComponent]), which module [JS] renders from their
      ECMAScript / HTML definitions over UTF-16 code units.
    - the adapters ([TextAreaAdapter], [ContentEditableAdapter]) and
      [AdapterFactory.create].
    - [DraftManager]: the controller.  Its handlers are state transformers
      over a [World] that holds the part of the browser the script talks to
      (location, elements, timers, [chrome.storage.local]) together with the
      manager's own fields. *)

From Stdlib Require Import ZArith List Lia Bool String Ascii.
From stdpp Require Import base option list gmap.

Local Open Scope Z_scope.

(** A JavaScript string is a sequence of UTF-16 code units. *)
Abbreviation jsstring := (list Z).

(** Code units of an ASCII literal. *)
Definition js (s : string) : jsstring :=
  map (fun a => Z.of_N (N_of_ascii a)) (list_ascii_of_string s).

(** ** Browser builtins *)

Module JS.

Definition inRange (lo hi c : Z) : bool := (lo <=? c) && (c <=? hi).

Definition isDigit (c : Z) : bool := inRange 48 57 c.
Definition isAlpha (c : Z) : bool := inRange 65 90 c || inRange 97 122 c.
Definition isWordChar (c : Z) : bool := isAlpha c || isDigit c || (c =? 95).
Definition isHexDigit (c : Z) : bool :=
  isDigit c || inRange 65 70 c || inRange 97 102 c.

Definition memChar (c : Z) (set : jsstring) : bool := existsb (Z.eqb c) set.

(** Numeric value of a hexadecimal digit, and the upper-case digit of a
    value below sixteen. *)
Definition hexValue (c : Z) : Z :=
  if isDigit c then c - 48 else if inRange 65 70 c then c - 55 else c - 87.

Definition hexDigit (n : Z) : Z := if n <? 10 then 48 + n else 55 + n.

(** ["%XX"] for one octet. *)
Definition pctOctet (b : Z) : jsstring := [37; hexDigit (b / 16); hexDigit (b mod 16)].

(** [ParseHexOctet]: the two code units at the head must be hex digits. *)
Definition parseHexOctet (s : jsstring) : option Z :=
  match s with
  | a :: b :: _ =>
      if isHexDigit a && isHexDigit b then Some (16 * hexValue a + hexValue b)
      else None
  | _ => None
  end.

Definition parseHex4 (s : jsstring) : option Z :=
  match s with
  | a :: b :: c :: d :: _ =>
      if isHexDigit a && isHexDigit b && isHexDigit c && isHexDigit d
      then Some (((hexValue a * 16 + hexValue b) * 16 + hexValue c) * 16 + hexValue d)
      else None
  | _ => None
  end.

(** *** [String.prototype.trim] *)

(** WhiteSpace and LineTerminator code units. *)
Definition isWhiteSpace (c : Z) : bool :=
  inRange 9 13 c || (c =? 32) || (c =? 160) || (c =? 5760)
  || inRange 8192 8202 c || (c =? 8232) || (c =? 8233) || (c =? 8239)
  || (c =? 8287) || (c =? 12288) || (c =? 65279).

Fixpoint trimStart (s : jsstring) : jsstring :=
  match s with
  | c :: s' => if isWhiteSpace c then trimStart s' else s
  | [] => []
  end.

Definition trim (s : jsstring) : jsstring := rev (trimStart (rev (trimStart s))).

(** *** UTF-16 and UTF-8 *)

Definition isLeadSurrogate (c : Z) : bool := inRange 55296 56319 c.
Definition isTrailSurrogate (c : Z) : bool := inRange 56320 57343 c.

Definition surrogatePairToCodePoint (lead trail : Z) : Z :=
  (lead - 55296) * 1024 + (trail - 56320) + 65536.

Definition utf16EncodeCodePoint (cp : Z) : jsstring :=
  if cp <=? 65535 then [cp]
  else [(cp - 65536) / 1024 + 55296; (cp - 65536) mod 1024 + 56320].

(** The UTF-8 octets of a code point. *)
Definition utf8Octets (cp : Z) : list Z :=
  if cp <? 128 then [cp]
  else if cp <? 2048 then [192 + cp / 64; 128 + cp mod 64]
  else if cp <? 65536 then
    [224 + cp / 4096; 128 + (cp / 64) mod 64; 128 + cp mod 64]
  else
    [240 + cp / 262144; 128 + (cp / 4096) mod 64; 128 + (cp / 64) mod 64;
     128 + cp mod 64].

(** Number of leading one bits of an octet (5 stands for "more than 4"). *)
Definition leadingOnes (b : Z) : nat :=
  if b <? 128 then 0%nat else if b <? 192 then 1%nat else if b <? 224 then 2%nat
  else if b <? 240 then 3%nat else if b <? 248 then 4%nat else 5%nat.

Definition isContinuation (b : Z) : bool := inRange 128 191 b.

(** The code point of a sequence of octets, when the sequence is a valid
    UTF-8 encoding: continuation octets of the form 10xxxxxx, shortest
    form, no surrogate, at most U+10FFFF. *)
Definition utf8CodePoint (octets : list Z) : option Z :=
  match octets with
  | [b0; b1] =>
      let v := (b0 mod 32) * 64 + b1 mod 64 in
      if isContinuation b1 && (128 <=? v) then Some v else None
  | [b0; b1; b2] =>
      let v := ((b0 mod 16) * 64 + b1 mod 64) * 64 + b2 mod 64 in
      if isContinuation b1 && isContinuation b2 && (2048 <=? v)
         && negb (inRange 55296 57343 v)
      then Some v else None
  | [b0; b1; b2; b3] =>
      let v := (((b0 mod 8) * 64 + b1 mod 64) * 64 + b2 mod 64) * 64 + b3 mod 64 in
      if isContinuation b1 && isContinuation b2 && isContinuation b3
         && (65536 <=? v) && (v <=? 1114111)
      then Some v else None
  | _ => None
  end.

(** [String.prototype.isWellFormed]: every code unit is a 16-bit value
    and every surrogate is half of a pair. *)
Fixpoint isWellFormed (s : jsstring) : bool :=
  match s with
  | [] => true
  | c :: s1 =>
      inRange 0 65535 c
      && (if isLeadSurrogate c then
            match s1 with
            | d :: s2 => isTrailSurrogate d && isWellFormed s2
            | [] => false
            end
          else negb (isTrailSurrogate c) && isWellFormed s1)
  end.

(** The UTF-8 encoding of a well-formed string. *)
Fixpoint toUtf8 (s : jsstring) : list Z :=
  match s with
  | [] => []
  | c :: s1 =>
      if isLeadSurrogate c then
        match s1 with
        | d :: s2 => utf8Octets (surrogatePairToCodePoint c d) ++ toUtf8 s2
        | [] => utf8Octets c
        end
      else utf8Octets c ++ toUtf8 s1
  end.

(** *** [encodeURIComponent] *)

(** The code units [Encode] leaves as they are: ASCII word characters
    and [-.!~*'()]. *)
Definition uriUnescaped (c : Z) : bool := isWordChar c || memChar c (js "-.!~*'()").

Definition pctOctets (cp : Z) : jsstring := flat_map pctOctet (utf8Octets cp).

(** [Encode]: [None] is the URIError thrown on an unpaired surrogate. *)
Fixpoint encode (unescaped : Z -> bool) (s : jsstring) : option jsstring :=
  match s with
  | [] => Some []
  | c :: s1 =>
      if unescaped c then cons c <$> encode unescaped s1
      else if isTrailSurrogate c then None
      else if isLeadSurrogate c then
        match s1 with
        | d :: s2 =>
            if isTrailSurrogate d
            then app (pctOctets (surrogatePairToCodePoint c d)) <$> encode unescaped s2
            else None
        | [] => None
        end
      else app (pctOctets c) <$> encode unescaped s1
  end.

Definition encodeURIComponent (s : jsstring) : option jsstring := encode uriUnescaped s.

(** *** [unescape] *)

(** What follows a ["%"]: the decoded code unit and how far to advance. *)
Definition unescapeAt (s1 : jsstring) : option (Z * nat) :=
  match s1 with
  | u :: r =>
      if u =? 117 then n ← parseHex4 r; Some (n, 5%nat)
      else n ← parseHexOctet s1; Some (n, 2%nat)
  | [] => None
  end.

(** The index loop of [unescape]; [skip] counts the code units the last
    escape sequence still covers. *)
Fixpoint unescapeFrom (skip : nat) (s : jsstring) : jsstring :=
  match s with
  | [] => []
  | c :: s1 =>
      match skip with
      | S k => unescapeFrom k s1
      | O =>
          if c =? 37 then
            match unescapeAt s1 with
            | Some (n, adv) => n :: unescapeFrom adv s1
            | None => c :: unescapeFrom 0 s1
            end
          else c :: unescapeFrom 0 s1
      end
  end.

Definition unescape (s : jsstring) : jsstring := unescapeFrom 0 s.

(** *** [escape] *)

Definition escapeUnescaped (c : Z) : bool := isWordChar c || memChar c (js "@*+-./").

Definition escapeUnit (c : Z) : jsstring :=
  if escapeUnescaped c then [c]
  else if c <? 256 then pctOctet c
  else [37; 117; hexDigit (c / 4096); hexDigit ((c / 256) mod 16);
        hexDigit ((c / 16) mod 16); hexDigit (c mod 16)].

Definition escape (s : jsstring) : jsstring := flat_map escapeUnit s.

(** *** [decodeURIComponent] *)

(** The [n] continuation octets ["%XX"] that must follow a leading octet. *)
Fixpoint continuationOctets (n : nat) (s : jsstring) : option (list Z) :=
  match n with
  | O => Some []
  | S n' =>
      match s with
      | p :: s1 =>
          if p =? 37 then
            b ← parseHexOctet s1;
            rest ← continuationOctets n' (drop 2 s1);
            Some (b :: rest)
          else None
      | [] => None
      end
  end.

(** The index loop of [Decode] with an empty set of preserved escapes;
    [None] is the URIError. *)
Fixpoint decodeFrom (skip : nat) (s : jsstring) : option jsstring :=
  match s with
  | [] => Some []
  | c :: s1 =>
      match skip with
      | S k => decodeFrom k s1
      | O =>
          if c =? 37 then
            match parseHexOctet s1 with
            | None => None
            | Some b =>
                match leadingOnes b with
                | O => cons b <$> decodeFrom 2 s1
                | S O => None
                | S (S m) =>
                    if (2 <? m)%nat then None
                    else
                      octets ← continuationOctets (S m) (drop 2 s1);
                      v ← utf8CodePoint (b :: octets);
                      app (utf16EncodeCodePoint v) <$> decodeFrom (2 + 3 * S m) s1
                end
            end
          else cons c <$> decodeFrom 0 s1
      end
  end.

Definition decodeURIComponent (s : jsstring) : option jsstring := decodeFrom 0 s.

(** *** [btoa] and [atob] *)

Definition base64Char (i : Z) : Z :=
  if i <? 26 then 65 + i else if i <? 52 then 71 + i
  else if i <? 62 then i - 4 else if i =? 62 then 43 else 47.

Definition base64Index (c : Z) : option Z :=
  if inRange 65 90 c then Some (c - 65)
  else if inRange 97 122 c then Some (c - 71)
  else if isDigit c then Some (c + 4)
  else if c =? 43 then Some 62
  else if c =? 47 then Some 63
  else None.

(** Three octets make a 24-bit group of four sextets; a tail of two or
    one octets is padded with ["="]. *)
Fixpoint encodeOctets (l : list Z) : jsstring :=
  match l with
  | a :: b :: c :: rest =>
      let n := (a * 256 + b) * 256 + c in
      base64Char (n / 262144) :: base64Char ((n / 4096) mod 64)
      :: base64Char ((n / 64) mod 64) :: base64Char (n mod 64) :: encodeOctets rest
  | [a; b] =>
      let n := (a * 256 + b) * 4 in
      [base64Char (n / 4096); base64Char ((n / 64) mod 64); base64Char (n mod 64); 61]
  | [a] =>
      let n := a * 16 in
      [base64Char (n / 64); base64Char (n mod 64); 61; 61]
  | [] => []
  end.

(** [None] is the InvalidCharacterError for a code unit above U+00FF. *)
Definition btoa (s : jsstring) : option jsstring :=
  if forallb (fun c => c <=? 255) s then Some (encodeOctets s) else None.

Definition isAsciiWhitespace (c : Z) : bool :=
  (c =? 9) || (c =? 10) || (c =? 12) || (c =? 13) || (c =? 32).

(** When the length is a multiple of four, one or two trailing ["="] are
    removed. *)
Definition stripPadding (s : jsstring) : jsstring :=
  if (length s mod 4 =? 0)%nat then
    match rev s with
    | a :: r =>
        if a =? 61 then
          match r with
          | b :: r' => if b =? 61 then rev r' else rev r
          | [] => rev r
          end
        else s
    | [] => s
    end
  else s.

(** Four sextets give three octets; 18 left-over bits give two (the last
    two bits are dropped), 12 give one (the last four are dropped). *)
Fixpoint decodeSextets (l : list Z) : list Z :=
  match l with
  | a :: b :: c :: d :: rest =>
      let n := ((a * 64 + b) * 64 + c) * 64 + d in
      n / 65536 :: (n / 256) mod 256 :: n mod 256 :: decodeSextets rest
  | [a; b; c] =>
      let n := ((a * 64 + b) * 64 + c) / 4 in [n / 256; n mod 256]
  | [a; b] => [(a * 64 + b) / 16]
  | _ => []
  end.

(** Forgiving-base64 decode; [None] is the InvalidCharacterError. *)
Definition atob (s : jsstring) : option jsstring :=
  let data := stripPadding (List.filter (fun c => negb (isAsciiWhitespace c)) s) in
  if (length data mod 4 =? 1)%nat then None
  else decodeSextets <$> mapM base64Index data.

End JS.

(** ** The page

    The part of the browser the content script reads and writes. *)

Module CONFIG.
Definition DEBOUNCE_MS : Z := 500.
Definition STORAGE_PREFIX : jsstring := js "draft_".
End CONFIG.

(** [window.location]; [href] is assembled from its parts (default port). *)
Record Location := mkLocation {
  protocol : jsstring;
  hostname : jsstring;
  pathname : jsstring;
  search : jsstring;
  hash : jsstring
}.

Definition href (l : Location) : jsstring :=
  protocol l ++ js "//" ++ hostname l ++ pathname l ++ search l ++ hash l.

(** The two listeners the script ever registers on an element are
    [this.handleInput.bind(this)] and [this.handleKeydown.bind(this)]. *)
Inductive EventType := EvtInput | EvtKeydown.
Inductive Listener := HandleInput | HandleKeydown.

#[global] Instance EventType_eq_dec : EqDecision EventType.
Proof. solve_decision. Defined.
#[global] Instance Listener_eq_dec : EqDecision Listener.
Proof. solve_decision. Defined.

(** A DOM element, as far as the script looks at it.  Elements live in a
    heap and are compared by reference (their index). *)
Record Element := mkElement {
  tagName : jsstring;
  elemId : jsstring;
  classList : list jsstring;
  contenteditable : option jsstring;
  value : jsstring;
  innerText : jsstring;
  listeners : list (EventType * Listener)
}.

Inductive AdapterKind := TextAreaAdapter | ContentEditableAdapter.

Record Adapter := mkAdapter { kind : AdapterKind; el : nat }.

#[global] Instance AdapterKind_eq_dec : EqDecision AdapterKind.
Proof. solve_decision. Defined.
#[global] Instance Adapter_eq_dec : EqDecision Adapter.
Proof. solve_decision. Defined.

(** The deferred callbacks the script hands to [setTimeout]. *)
Inductive TimerCallback :=
| SaveDraftCb (text : jsstring)   (* handleInput: the debounced save of [text] *)
| ReleaseGuardCb                  (* handleKeydown: isSubmitting = false *)
| ClickSettleCb                   (* the click listener's delayed check *)
| ToastHideCb                     (* showToast: remove the "show" class *)
| ToastRemoveCb.                  (* showToast: remove the toast *)

Record Timer := mkTimer { timerId : nat; due : Z; callback : TimerCallback }.

(** A [chrome.storage.local.get] whose callback has not run yet.  The store
    serves the requests of one page in the order they were issued, so the
    result is the record as it was when the request was made. *)
Record PendingGet := mkPendingGet { getKey : jsstring; getResult : option jsstring }.

(** What the script did to its collaborators, in order. *)
Inductive Effect :=
| StorageGet (key : jsstring)
| StorageSet (key val : jsstring)
| StorageRemove (key : jsstring)
| SetValue (target : nat) (val : jsstring)
| ShowToast (message : jsstring).

(** The fields of the [DraftManager] singleton. *)
Record DraftManager := mkDraftManager {
  currentInput : option nat;
  adapter : option Adapter;
  typingTimer : option nat;
  isSubmitting : bool;
  globalClickListenerAttached : bool
}.

Record World := mkWorld {
  location : Location;
  heap : list Element;                (* all elements, indexed by reference *)
  document : list nat;                (* attached elements, in document order *)
  storage : gmap jsstring jsstring;   (* chrome.storage.local *)
  clock : Z;                          (* milliseconds *)
  timers : list Timer;                (* active timers *)
  nextTimerId : nat;
  pendingGets : list PendingGet;
  manager : DraftManager;
  lastUrl : jsstring;                 (* observeURL's closure variable *)
  effects : list Effect
}.

(** *** Field updates *)

Definition set_currentInput (v : option nat) (m : DraftManager) : DraftManager :=
  mkDraftManager v (adapter m) (typingTimer m) (isSubmitting m) (globalClickListenerAttached m).
Definition set_adapter (v : option Adapter) (m : DraftManager) : DraftManager :=
  mkDraftManager (currentInput m) v (typingTimer m) (isSubmitting m) (globalClickListenerAttached m).
Definition set_typingTimer (v : option nat) (m : DraftManager) : DraftManager :=
  mkDraftManager (currentInput m) (adapter m) v (isSubmitting m) (globalClickListenerAttached m).
Definition set_isSubmitting (v : bool) (m : DraftManager) : DraftManager :=
  mkDraftManager (currentInput m) (adapter m) (typingTimer m) v (globalClickListenerAttached m).
Definition set_globalClickListenerAttached (v : bool) (m : DraftManager) : DraftManager :=
  mkDraftManager (currentInput m) (adapter m) (typingTimer m) (isSubmitting m) v.

Definition set_location (v : Location) (w : World) : World :=
  mkWorld v (heap w) (document w) (storage w) (clock w) (timers w)
    (nextTimerId w) (pendingGets w) (manager w) (lastUrl w) (effects w).
Definition set_heap (v : list Element) (w : World) : World :=
  mkWorld (location w) v (document w) (storage w) (clock w) (timers w)
    (nextTimerId w) (pendingGets w) (manager w) (lastUrl w) (effects w).
Definition set_document (v : list nat) (w : World) : World :=
  mkWorld (location w) (heap w) v (storage w) (clock w) (timers w)
    (nextTimerId w) (pendingGets w) (manager w) (lastUrl w) (effects w).
Definition set_storage (v : gmap jsstring jsstring) (w : World) : World :=
  mkWorld (location w) (heap w) (document w) v (clock w) (timers w)
    (nextTimerId w) (pendingGets w) (manager w) (lastUrl w) (effects w).
Definition set_clock (v : Z) (w : World) : World :=
  mkWorld (location w) (heap w) (document w) (storage w) v (timers w)
    (nextTimerId w) (pendingGets w) (manager w) (lastUrl w) (effects w).
Definition set_timers (v : list Timer) (w : World) : World :=
  mkWorld (location w) (heap w) (document w) (storage w) (clock w) v
    (nextTimerId w) (pendingGets w) (manager w) (lastUrl w) (effects w).
Definition set_nextTimerId (v : nat) (w : World) : World :=
  mkWorld (location w) (heap w) (document w) (storage w) (clock w) (timers w)
    v (pendingGets w) (manager w) (lastUrl w) (effects w).
Definition set_pendingGets (v : list PendingGet) (w : World) : World :=
  mkWorld (location w) (heap w) (document w) (storage w) (clock w) (timers w)
    (nextTimerId w) v (manager w) (lastUrl w) (effects w).
Definition set_manager (v : DraftManager) (w : World) : World :=
  mkWorld (location w) (heap w) (document w) (storage w) (clock w) (timers w)
    (nextTimerId w) (pendingGets w) v (lastUrl w) (effects w).
Definition set_lastUrl (v : jsstring) (w : World) : World :=
  mkWorld (location w) (heap w) (document w) (storage w) (clock w) (timers w)
    (nextTimerId w) (pendingGets w) (manager w) v (effects w).
Definition set_effects (v : list Effect) (w : World) : World :=
  mkWorld (location w) (heap w) (document w) (storage w) (clock w) (timers w)
    (nextTimerId w) (pendingGets w) (manager w) (lastUrl w) v.

Definition record (e : Effect) (w : World) : World := set_effects (effects w ++ [e]) w.

(** *** [setTimeout] / [clearTimeout] *)

Definition setTimeout (cb : TimerCallback) (delay : Z) (w : World) : nat * World :=
  let id := nextTimerId w in
  (id, set_nextTimerId (S id) (set_timers (timers w ++ [mkTimer id (clock w + delay) cb]) w)).

Definition timerIs (id : nat) (t : Timer) : bool := Nat.eqb (timerId t) id.

Definition removeTimer (id : nat) (w : World) : World :=
  set_timers (List.filter (fun t => negb (timerIs id t)) (timers w)) w.

(** [clearTimeout(null)] and [clearTimeout] of an id that is no longer
    active do nothing. *)
Definition clearTimeout (id : option nat) (w : World) : World :=
  match id with
  | Some i => removeTimer i w
  | None => w
  end.

(** *** [chrome.storage.local] *)

Definition storage_remove (key : jsstring) (w : World) : World :=
  record (StorageRemove key) (set_storage (delete key (storage w)) w).

Definition storage_set (key val : jsstring) (w : World) : World :=
  record (StorageSet key val) (set_storage (<[key := val]> (storage w)) w).

Definition storage_get (key : jsstring) (w : World) : World :=
  record (StorageGet key)
    (set_pendingGets (pendingGets w ++ [mkPendingGet key (storage w !! key)]) w).

(** ** [Utils] *)

Module Utils.

(** [obfuscate]: the [catch] returns the text itself. *)
Definition obfuscate (text : jsstring) : jsstring :=
  match e ← JS.encodeURIComponent text; JS.btoa (JS.unescape e) with
  | Some r => r
  | None => text
  end.

(** [deobfuscate]: the [catch] returns the empty string. *)
Definition deobfuscate (encoded : jsstring) : jsstring :=
  match b ← JS.atob encoded; JS.decodeURIComponent (JS.escape b) with
  | Some r => r
  | None => []
  end.

Definition getStorageKey (w : World) : jsstring :=
  CONFIG.STORAGE_PREFIX ++ hostname (location w) ++ pathname (location w).

(** [showToast]: the toast element is a [div] with id [ai-saver-toast]
    that no selector of the script matches, so only the notification and
    its two timers are kept. *)
Definition showToast (message : jsstring) (w : World) : World :=
  snd (setTimeout ToastHideCb 3000 (record (ShowToast message) w)).

End Utils.

(** ** Adapters *)

(** [getValue]: [el.value] for a text field, [el.innerText] for a rich-text
    container. *)
Definition getValue (a : Adapter) (w : World) : jsstring :=
  match heap w !! el a with
  | Some e =>
      match kind a with
      | TextAreaAdapter => value e
      | ContentEditableAdapter => innerText e
      end
  | None => []
  end.

(** The write of [setValue]: the text goes into [el.value] or
    [el.innerText] as it is given.  What the accessors make of a text when
    it is read back (line breaks in a text field, white space and line
    breaks in [innerText]) is not modelled, and no statement relies on the
    text read after a write being the text written. *)
Definition writeText (k : AdapterKind) (val : jsstring) (e : Element) : Element :=
  match k with
  | TextAreaAdapter =>
      mkElement (tagName e) (elemId e) (classList e) (contenteditable e)
        val (innerText e) (listeners e)
  | ContentEditableAdapter =>
      mkElement (tagName e) (elemId e) (classList e) (contenteditable e)
        (value e) val (listeners e)
  end.

Definition addListener (t : EventType) (l : Listener) (e : Element) : Element :=
  mkElement (tagName e) (elemId e) (classList e) (contenteditable e)
    (value e) (innerText e) (listeners e ++ [(t, l)]).

Definition updateElement (r : nat) (f : Element -> Element) (w : World) : World :=
  match heap w !! r with
  | Some e => set_heap (<[r := f e]> (heap w)) w
  | None => w
  end.

(** [bindInput] / [bindSubmit]: [addEventListener] on the adapter's element.
    Every call passes a fresh bound function, so nothing is deduplicated. *)
Definition bindInput (a : Adapter) (callback : Listener) (w : World) : World :=
  updateElement (el a) (addListener EvtInput callback) w.

Definition bindSubmit (a : Adapter) (callback : Listener) (w : World) : World :=
  updateElement (el a) (addListener EvtKeydown callback) w.

Module AdapterFactory.

Definition create (element : nat) (w : World) : option Adapter :=
  match heap w !! element with
  | Some e =>
      if bool_decide (tagName e = js "TEXTAREA") || bool_decide (tagName e = js "INPUT")
      then Some (mkAdapter TextAreaAdapter element)
      else if bool_decide (contenteditable e = Some (js "true"))
              || bool_decide (js "ql-editor" ∈ classList e)
      then Some (mkAdapter ContentEditableAdapter element)
      else None
  | None => None
  end.

End AdapterFactory.

(** ** Selectors *)

Inductive SimpleSelector :=
| SelId (id : jsstring)
| SelClass (class : jsstring)
| SelType (tag : jsstring)             (* compared with the upper-case tagName *)
| SelAttr (name val : jsstring).

(** The elements are HTML elements of an HTML document: [tagName] is the
    local name in upper case, and a type selector matches by it.  Elements
    of other namespaces are not modelled. *)
Definition matchesSimple (s : SimpleSelector) (e : Element) : bool :=
  match s with
  | SelId i => bool_decide (elemId e = i)
  | SelClass c => bool_decide (c ∈ classList e)
  | SelType t => bool_decide (tagName e = t)
  | SelAttr n v => bool_decide (n = js "contenteditable" ∧ contenteditable e = Some v)
  end.

(** A selector list matches when one of its members does. *)
Definition matchesSelector (sel : list SimpleSelector) (e : Element) : bool :=
  existsb (fun s => matchesSimple s e) sel.

(** [document.querySelector]: the first attached element, in document
    order, that matches. *)
Definition querySelector (sel : list SimpleSelector) (w : World) : option nat :=
  List.find
    (fun r => match heap w !! r with
              | Some e => matchesSelector sel e
              | None => false
              end)
    (document w).

(** [this.selectors] of the constructor. *)
Definition selectors (host : jsstring) : option (list SimpleSelector) :=
  if bool_decide (host = js "chatgpt.com") then Some [SelId (js "prompt-textarea")]
  else if bool_decide (host = js "gemini.google.com") then
    Some [SelClass (js "ql-editor"); SelType (js "TEXTAREA");
          SelAttr (js "contenteditable") (js "true")]
  else if bool_decide (host = js "www.perplexity.ai") then Some [SelType (js "TEXTAREA")]
  else None.

(** ** The controller *)

(** What a listener sees of the event it is called with. *)
Record DomEvent := mkDomEvent {
  evType : EventType;
  key : option jsstring;
  shiftKey : bool
}.

(** [!text || text.trim() === ""] *)
Definition isBlank (text : jsstring) : bool :=
  match text with
  | [] => true
  | _ => match JS.trim text with [] => true | _ => false end
  end.

(** Truthiness of a string. *)
Definition truthy (s : jsstring) : bool := match s with [] => false | _ => true end.

Definition update_manager (f : DraftManager -> DraftManager) (w : World) : World :=
  set_manager (f (manager w)) w.

Definition handleSendSuccess (w : World) : World :=
  let key := Utils.getStorageKey w in
  storage_remove key w.

Definition saveDraft (text : jsstring) (w : World) : World :=
  let key := Utils.getStorageKey w in
  if isBlank text then storage_remove key w
  else
    let encoded := Utils.obfuscate text in
    storage_set key encoded w.

(** [handleInput].  With no adapter, the read of [this.adapter.getValue]
    throws after the timer was cleared, which ends the listener. *)
Definition handleInput (w : World) : World :=
  if isSubmitting (manager w) then w
  else
    let w1 := clearTimeout (typingTimer (manager w)) w in
    match adapter (manager w1) with
    | None => w1
    | Some a =>
        let text := getValue a w1 in
        let '(id, w2) := setTimeout (SaveDraftCb text) CONFIG.DEBOUNCE_MS w1 in
        update_manager (set_typingTimer (Some id)) w2
    end.

Definition handleKeydown (e : DomEvent) (w : World) : World :=
  if bool_decide (key e = Some (js "Enter")) && negb (shiftKey e) then
    let w1 := update_manager (set_isSubmitting true) w in
    let w2 := clearTimeout (typingTimer (manager w1)) w1 in
    let w3 := handleSendSuccess w2 in
    snd (setTimeout ReleaseGuardCb 2000 w3)
  else w.

Definition invoke (l : Listener) (e : DomEvent) (w : World) : World :=
  match l with
  | HandleInput => handleInput w
  | HandleKeydown => handleKeydown e w
  end.

(** [dispatchEvent]: the listeners registered on the target for the type of
    the event run in the order they were added.  The document is kept as a
    list, so only the target's own listeners are reached; the script puts
    no listener of these types anywhere but on the elements it binds. *)
Definition dispatchEvent (target : nat) (e : DomEvent) (w : World) : World :=
  match heap w !! target with
  | Some elt =>
      fold_left
        (fun acc tl => if bool_decide (tl.1 = evType e) then invoke tl.2 e acc else acc)
        (listeners elt) w
  | None => w
  end.

(** [setValue]: write the text, then dispatch a synthetic [input] event. *)
Definition setValue (a : Adapter) (val : jsstring) (w : World) : World :=
  let w1 := record (SetValue (el a) val) (updateElement (el a) (writeText (kind a) val) w) in
  dispatchEvent (el a) (mkDomEvent EvtInput None false) w1.

Definition restoredMessage : jsstring := js "Draft restored " ++ [9989].

(** The callback of the [get] in [restoreDraft]; [key] is the key the
    request was made with, [result] is [result[key]]. *)
Definition restoreDraftCallback (key : jsstring) (result : option jsstring) (w : World) : World :=
  match result, adapter (manager w) with
  | Some stored, Some a =>
      if truthy stored then
        let currentText := getValue a w in
        if isBlank currentText then
          let text := Utils.deobfuscate stored in
          if truthy text then Utils.showToast restoredMessage (setValue a text w)
          else w
        else w
      else w
  | _, _ => w
  end.

Definition restoreDraft (w : World) : World :=
  let key := Utils.getStorageKey w in
  storage_get key w.

(** The callback of the MutationObserver of [observeDOM]. *)
Definition observeDOM (w : World) : World :=
  match selectors (hostname (location w)) with
  | None => w
  | Some selector =>
      match querySelector selector w with
      | Some box =>
          if bool_decide (currentInput (manager w) = Some box) then w
          else
            let w1 := update_manager (set_currentInput (Some box)) w in
            let w2 := update_manager (set_adapter (AdapterFactory.create box w1)) w1 in
            match adapter (manager w2) with
            | Some a =>
                let w3 := restoreDraft w2 in
                let w4 := bindInput a HandleInput w3 in
                bindSubmit a HandleKeydown w4
            | None => w2
            end
      | None => w
      end
  end.

(** The callback of the MutationObserver of [observeURL]. *)
Definition observeURL (w : World) : World :=
  if bool_decide (href (location w) = lastUrl w) then w
  else update_manager (set_currentInput None) (set_lastUrl (href (location w)) w).

(** The document click listener of [attachGlobalClickListener], and the
    check it defers. *)
Definition clickListener (w : World) : World := snd (setTimeout ClickSettleCb 500 w).

Definition clickSettle (w : World) : World :=
  match adapter (manager w) with
  | Some a =>
      let text := getValue a w in
      if isBlank text then handleSendSuccess w else w
  | None => w
  end.

Definition attachGlobalClickListener (w : World) : World :=
  if globalClickListenerAttached (manager w) then w
  else update_manager (set_globalClickListenerAttached true) w.

(** ** The event loop *)

Definition runTimer (cb : TimerCallback) (w : World) : World :=
  match cb with
  | SaveDraftCb text => if isSubmitting (manager w) then w else saveDraft text w
  | ReleaseGuardCb => update_manager (set_isSubmitting false) w
  | ClickSettleCb => clickSettle w
  | ToastHideCb => snd (setTimeout ToastRemoveCb 300 w)
  | ToastRemoveCb => w
  end.

Definition findTimer (id : nat) (w : World) : option Timer :=
  List.find (timerIs id) (timers w).

(** An active timer whose delay has passed leaves the list and runs. *)
Definition fireTimer (id : nat) (w : World) : World :=
  match findTimer id w with
  | Some t => if due t <=? clock w then runTimer (callback t) (removeTimer id w) else w
  | None => w
  end.

(** Elements the page creates carry none of the script's listeners. *)
Definition freshElement (e : Element) : Element :=
  mkElement (tagName e) (elemId e) (classList e) (contenteditable e)
    (value e) (innerText e) [].

Definition setText (v t : jsstring) (e : Element) : Element :=
  mkElement (tagName e) (elemId e) (classList e) (contenteditable e) v t (listeners e).

Inductive Event :=
| Mutation (underBody : bool)   (* mutation records are delivered to the observers *)
| InputEvent (target : nat)
| KeydownEvent (target : nat) (k : jsstring) (shift : bool)
| Click
| TimerFires (id : nat)
| GetReturns                    (* the oldest pending storage callback runs *)
| Tick (dt : Z)
| PageSetsText (target : nat) (v t : jsstring)
| PageInserts (pos : nat) (e : Element)
| PageRemoves (target : nat)
| PageNavigates (l : Location).

(** One task of the event loop.  The observer of [observeDOM] watches
    [document.body] and was created first, so it runs before the observer of
    [observeURL], which watches the whole document. *)
Definition step (ev : Event) (w : World) : World :=
  match ev with
  | Mutation underBody => observeURL (if underBody then observeDOM w else w)
  | InputEvent r => dispatchEvent r (mkDomEvent EvtInput None false) w
  | KeydownEvent r k shift => dispatchEvent r (mkDomEvent EvtKeydown (Some k) shift) w
  | Click => if globalClickListenerAttached (manager w) then clickListener w else w
  | TimerFires id => fireTimer id w
  | GetReturns =>
      match pendingGets w with
      | g :: rest => restoreDraftCallback (getKey g) (getResult g) (set_pendingGets rest w)
      | [] => w
      end
  | Tick dt => if 0 <=? dt then set_clock (clock w + dt) w else w
  | PageSetsText r v t => updateElement r (setText v t) w
  | PageInserts pos e =>
      set_document (take pos (document w) ++ [length (heap w)] ++ drop pos (document w))
        (set_heap (heap w ++ [freshElement e]) w)
  | PageRemoves r => set_document (List.filter (fun x => negb (Nat.eqb x r)) (document w)) w
  | PageNavigates l => set_location l w
  end.

Definition run (evs : list Event) (w : World) : World :=
  fold_left (fun acc ev => step ev acc) evs w.

(** [new DraftManager()] followed by [init()] on a page. *)
Definition boot (l : Location) (els : list Element) (doc : list nat)
    (store : gmap jsstring jsstring) : World :=
  attachGlobalClickListener
    (mkWorld l (map freshElement els) doc store 0 [] 1%nat []
       (mkDraftManager None None None false false) (href l) []).

Inductive reachable : World -> Prop :=
| reachable_boot l els doc store : reachable (boot l els doc store)
| reachable_step ev w : reachable w -> reachable (step ev w).

(** ** Vocabulary of the verification *)

(** *** Text transform *)

Definition isOctet (b : Z) : Prop := 0 <= b < 256.

Definition isSextet (i : Z) : Prop := 0 <= i < 64.

(** A Unicode scalar value: a code point that is not a surrogate. *)
Definition isScalar (cp : Z) : Prop := 0 <= cp <= 1114111 /\ ~ (55296 <= cp <= 57343).

(** The padding [encodeOctets] appends after the characters of [sx]. *)
Definition padded (sx : list Z) (pad : jsstring) : Prop :=
  (pad = [] /\ (length sx mod 4 = 0)%nat) \/ (pad = [61] /\ (length sx mod 4 = 3)%nat)
  \/ (pad = [61; 61] /\ (length sx mod 4 = 2)%nat).

(** *** Timers and effects *)

Definition isSaveTimer (t : Timer) : bool :=
  match callback t with SaveDraftCb _ => true | _ => false end.

Definition isStoreWrite (e : Effect) : bool :=
  match e with StorageSet _ _ | StorageRemove _ => true | _ => false end.

(** The [set] and [remove] calls made so far. *)
Definition storeWrites (w : World) : list Effect := List.filter isStoreWrite (effects w).

(** Every active debounced save is the one [typingTimer] names. *)
Definition savesTracked (w : World) : Prop :=
  forall t, In t (timers w) -> isSaveTimer t = true ->
            typingTimer (manager w) = Some (timerId t).

Definition idsFresh (w : World) : Prop :=
  forall t, In t (timers w) -> (timerId t < nextTimerId w)%nat.

Definition timersOk (w : World) : Prop := savesTracked w /\ idsFresh w.

(** Timer [i] was handed out and is no longer active. *)
Definition absent (i : nat) (w : World) : Prop :=
  (i < nextTimerId w)%nat /\ forall t, In t (timers w) -> timerId t <> i.

(** While the guard is active no debounced save is in the timer list. *)
Definition guardClean (w : World) : Prop :=
  isSubmitting (manager w) = true -> forall t, In t (timers w) -> isSaveTimer t = false.

(** [e.key === 'Enter' && !e.shiftKey] *)
Definition isSubmitKey (e : DomEvent) : Prop := key e = Some (js "Enter") /\ shiftKey e = false.

(** *** Bindings *)

Definition hasListener (r : nat) (t : EventType) (l : Listener) (w : World) : Prop :=
  exists elt, heap w !! r = Some elt /\ In (t, l) (listeners elt).

(** The debounced save of the text of [a], armed under [typingTimer] with
    a timer id handed out at or after [n0]. *)
Definition saveArmed (a : Adapter) (n0 : nat) (text : jsstring) (due0 : Z) (w : World) : Prop :=
  exists id, typingTimer (manager w) = Some id /\ (n0 <= id)%nat
             /\ In (mkTimer id due0 (SaveDraftCb text)) (timers w).

(** The fields only the observers and [init] write. *)
Definition sameBinding (w w' : World) : Prop :=
  currentInput (manager w') = currentInput (manager w)
  /\ adapter (manager w') = adapter (manager w)
  /\ globalClickListenerAttached (manager w') = globalClickListenerAttached (manager w)
  /\ lastUrl w' = lastUrl w.

(** What [bindInput] and [bindSubmit] leave on the element of a new adapter. *)
Definition bothListeners (e : Element) : Element :=
  addListener EvtKeydown HandleKeydown (addListener EvtInput HandleInput e).

(** Listeners are only ever added. *)
Definition listenersKept (w w' : World) : Prop :=
  forall r elt, heap w !! r = Some elt ->
    exists elt', heap w' !! r = Some elt' /\ incl (listeners elt) (listeners elt').

(** The elements that carry a listener of the script. *)
Definition boundSurfaces (w : World) : list nat :=
  List.filter
    (fun r => match heap w !! r with
              | Some e => match listeners e with [] => false | _ => true end
              | None => false
              end)
    (seq 0 (length (heap w))).

(** *** The conceptual controller states

    The script has no state variable of this kind; the classification
    follows the words of the specification: GUARDED when the submission
    guard is active (whatever the timers), PENDING_SAVE when a debounced
    save is armed, TRACKING when an adapter is bound with no pending save
    and the guard off, IDLE when no adapter is bound. *)

Inductive ControllerState := IDLE | TRACKING | PENDING_SAVE | GUARDED.

Definition controllerState (w : World) : ControllerState :=
  if isSubmitting (manager w) then GUARDED
  else if existsb isSaveTimer (timers w) then PENDING_SAVE
  else match adapter (manager w) with
       | Some _ => TRACKING
       | None => IDLE
       end.

(** *** Sample pages *)

Definition chatPage (path : string) : Location :=
  mkLocation (js "https:") (js "chatgpt.com") (js path) [] [].

Definition geminiPage : Location :=
  mkLocation (js "https:") (js "gemini.google.com") (js "/app") [] [].

Definition promptTextarea : Element :=
  mkElement (js "TEXTAREA") (js "prompt-textarea") [] None [] [] [].

(** An element that has the id ChatGPT's selector asks for and is neither a
    text field nor editable. *)
Definition promptDiv : Element :=
  mkElement (js "DIV") (js "prompt-textarea") [] None [] [] [].

Definition oldTextarea : Element :=
  mkElement (js "TEXTAREA") [] [] None (js "old") [] [].

Definition newEditor : Element :=
  mkElement (js "DIV") [] [js "ql-editor"] (Some (js "true")) [] (js "new") [].

(** A bound textarea with ["Hello"] typed and the debounced save armed. *)
Definition typedPage : World :=
  run [PageInserts 0 promptTextarea; Mutation true; GetReturns;
       PageSetsText 0 (js "Hello") []; InputEvent 0]
      (boot (chatPage "/c/1") [] [] ∅).

(** The submit key was pressed, then the site replaced the textarea by a
    new one. *)
Definition guardedPage : World :=
  run [PageInserts 0 promptTextarea; Mutation true; GetReturns;
       KeydownEvent 0 (js "Enter") false; PageRemoves 0; PageInserts 0 promptTextarea]
      (boot (chatPage "/c/1") [] [] ∅).

(** ["Hello"] was typed, then the site replaced the textarea by a new one. *)
Definition typingPage : World :=
  run [PageRemoves 0; PageInserts 0 promptTextarea] typedPage.

(** A page whose matching element has no adapter, just after the site
    changed the path. *)
Definition navigatingPage : World :=
  run [Mutation true; PageNavigates (chatPage "/c/2")]
      (boot (chatPage "/c/1") [promptDiv] [0%nat] ∅).

(** A bound textarea, just after the site changed the path. *)
Definition movedPage : World :=
  run [PageInserts 0 promptTextarea; Mutation true; GetReturns;
       PageNavigates (chatPage "/c/2")]
      (boot (chatPage "/c/1") [] [] ∅).

(** Gemini with a textarea that was bound first and a rich-text editor the
    site inserted in front of it afterwards; both stay in the document. *)
Definition reboundPage : World :=
  run [PageInserts 0 oldTextarea; Mutation true; GetReturns;
       PageInserts 0 newEditor; Mutation true; GetReturns]
      (boot geminiPage [] [] ∅).

(** A state outside the reachable ones: the guard is active and a debounced
    save is still in the timer list. *)
Definition guardedWithSave : World :=
  mkWorld (chatPage "/c/1") [promptTextarea] [0%nat] ∅ 600
    [mkTimer 1 500 (SaveDraftCb (js "Hello"))] 2 []
    (mkDraftManager (Some 0%nat) (Some (mkAdapter TextAreaAdapter 0)) (Some 1%nat) true true)
    (href (chatPage "/c/1")) [].

(** A stored draft, a bound surface the site has emptied, a click, and
    500 ms. *)
Definition clickedPage : World :=
  run [PageInserts 0 promptTextarea; Mutation true; GetReturns;
       PageSetsText 0 [] []; Click; Tick 500]
      (boot (chatPage "/c/1") [] [] {[ js "draft_chatgpt.com/c/1" := js "SGVsbG8=" ]}).

(** A surface with live text and a stored draft whose read is pending. *)
Definition liveTextPage : World :=
  run [PageInserts 0 promptTextarea; PageSetsText 0 (js "live text") []; Mutation true]
      (boot (chatPage "/c/1") [] [] {[ js "draft_chatgpt.com/c/1" := js "SGVsbG8=" ]}).

(** *** Records and keys *)

(** A character of a base64 text: one of the alphabet, or the padding. *)
Definition isBase64Unit (c : Z) : Prop := JS.base64Index c <> None \/ c = 61.

(** A code unit [atob] neither skips nor accepts. *)
Definition notBase64 (c : Z) : Prop :=
  JS.isAsciiWhitespace c = false /\ JS.base64Index c = None /\ c <> 61.

Definition isCodeUnit (c : Z) : Prop := 0 <= c <= 65535.

Definition isSurrogate (c : Z) : bool := JS.inRange 55296 57343 c.

(** A hostname has no ["/"]; a pathname starts with one. *)
Definition isHostname (h : jsstring) : Prop := Forall (fun c => c <> 47) h.
Definition isPathname (p : jsstring) : Prop := exists rest, p = 47 :: rest.

(** Timer ids are pairwise distinct, and [typingTimer] holds an id that was
    handed out. *)
Definition timersTidy (w : World) : Prop :=
  NoDup (map timerId (timers w))
  /\ forall i, typingTimer (manager w) = Some i -> (i < nextTimerId w)%nat.

(** The record of key [k] is what it was, and the page has not moved. *)
Definition keepsKey (k : jsstring) (w w' : World) : Prop :=
  location w' = location w /\ storage w' !! k = storage w !! k.

(** *** Further invariants *)

(** The adapter in use sits on an element that carries both listeners, and
    it is the adapter of the tracked element. *)
Definition adapterBound (w : World) : Prop :=
  forall a, adapter (manager w) = Some a ->
    hasListener (el a) EvtInput HandleInput w
    /\ hasListener (el a) EvtKeydown HandleKeydown w
    /\ forall b, currentInput (manager w) = Some b -> el a = b.

(** The page only moves between hosts the script has no selector for. *)
Definition staysUnlisted (ev : Event) : Prop :=
  match ev with
  | PageNavigates l => selectors (hostname l) = None
  | _ => True
  end.

(** Nothing is bound, nothing is pending, and only click checks are
    scheduled. *)
Definition dormant (w : World) : Prop :=
  selectors (hostname (location w)) = None
  /\ adapter (manager w) = None
  /\ pendingGets w = []
  /\ (forall r e, heap w !! r = Some e -> listeners e = [])
  /\ (forall t, In t (timers w) -> callback t = ClickSettleCb).

(** *** Further sample pages *)

(** A bound, empty textarea; the read of the stored draft has returned. *)
Definition boundPage : World :=
  run [PageInserts 0 promptTextarea; Mutation true; GetReturns]
      (boot (chatPage "/c/1") [] [] ∅).

Definition boundTextarea : Element := bothListeners (freshElement promptTextarea).

Definition textareaAdapter : Adapter := mkAdapter TextAreaAdapter 0.

(** ["Hello"] is in the bound textarea and no input event was delivered yet. *)
Definition filledPage : World := run [PageSetsText 0 (js "Hello") []] boundPage.

(** ["Hello"] was typed, then the site put an element without an adapter
    in the place of the textarea; the textarea keeps its listeners. *)
Definition orphanedPage : World :=
  run [PageRemoves 0; PageInserts 0 promptDiv; Mutation true] typedPage.

(** Gemini with its rich-text editor in the document. *)
Definition editorPage : World := boot geminiPage [newEditor] [0%nat] ∅.

Definition enterKey : DomEvent := mkDomEvent EvtKeydown (Some (js "Enter")) false.

(** A host the script has no selector for. *)
Definition otherSite : Location :=
  mkLocation (js "https:") (js "example.com") (js "/") [] [].

Definition otherSiteTrace : list Event :=
  [PageInserts 0 promptTextarea; Mutation true; PageSetsText 0 (js "Hello") [];
   InputEvent 0; KeydownEvent 0 (js "Enter") false; Click; Tick 500; TimerFires 1;
   GetReturns].

(** ["Hé€"]: one, two and three octets in UTF-8. *)
Definition accentedText : jsstring := [72; 233; 8364].

(** ["Hi"] followed by a lead surrogate with no trail surrogate. *)
Definition brokenText : jsstring := [72; 105; 55357].

(** * Proofs *)

(** ** The text transform *)

Section TextTransform.

Import JS.

(** Case analysis on every integer comparison in sight. *)
Ltac zbool :=
  repeat match goal with
  | |- context [?a <=? ?b] => destruct (Z.leb_spec0 a b)
  | |- context [?a <? ?b] => destruct (Z.ltb_spec0 a b)
  | |- context [?a =? ?b] => destruct (Z.eqb_spec a b)
  | H : context [?a <=? ?b] |- _ => destruct (Z.leb_spec0 a b)
  | H : context [?a <? ?b] |- _ => destruct (Z.ltb_spec0 a b)
  | H : context [?a =? ?b] |- _ => destruct (Z.eqb_spec a b)
  end; simpl in *.

(** Unfold the character classes. *)
Ltac zchars :=
  unfold isHexDigit, hexValue, hexDigit, isWordChar, isAlpha, isDigit,
    isContinuation, isLeadSurrogate, isTrailSurrogate, inRange in *.

Ltac zsolve := zchars; zbool; try discriminate; try (f_equal; lia); try lia.

(** *** Hexadecimal digits *)

Lemma hexDigit_hex n : 0 <= n < 16 -> isHexDigit (hexDigit n) = true.
Proof. intros. zsolve. Qed.

Lemma hexDigit_value n : 0 <= n < 16 -> hexValue (hexDigit n) = n.
Proof. intros. zsolve. Qed.

Lemma hexDigit_not_u n : 0 <= n < 16 -> (hexDigit n =? 117) = false.
Proof. intros. zsolve. Qed.

Lemma octet_nibbles b : isOctet b -> 0 <= b / 16 < 16 /\ 0 <= b mod 16 < 16 /\ 16 * (b / 16) + b mod 16 = b.
Proof. unfold isOctet. intros. Z.div_mod_to_equations. lia. Qed.

Lemma parseHexOctet_pctOctet b rest :
  isOctet b -> parseHexOctet (hexDigit (b / 16) :: hexDigit (b mod 16) :: rest) = Some b.
Proof.
  intros Hb. destruct (octet_nibbles b Hb) as (H1 & H2 & H3).
  unfold parseHexOctet.
  rewrite !hexDigit_hex, !hexDigit_value by assumption. simpl. by rewrite H3.
Qed.

(** *** [unescape] after [encodeURIComponent] *)

Lemma unescapeFrom_skip p rest : unescapeFrom (length p) (p ++ rest) = unescapeFrom 0 rest.
Proof. induction p as [|c p IH]; [done|]. simpl. exact IH. Qed.

Lemma unescapeFrom_literal c rest :
  c <> 37 -> unescapeFrom 0 (c :: rest) = c :: unescapeFrom 0 rest.
Proof. intros Hc. simpl. destruct (Z.eqb_spec c 37); [contradiction | done]. Qed.

Lemma unescapeFrom_pctOctet b rest :
  isOctet b -> unescapeFrom 0 (pctOctet b ++ rest) = b :: unescapeFrom 0 rest.
Proof.
  intros Hb. destruct (octet_nibbles b Hb) as (H1 & H2 & _).
  unfold pctOctet. cbn [app unescapeFrom]. rewrite Z.eqb_refl.
  unfold unescapeAt. rewrite hexDigit_not_u by assumption.
  rewrite parseHexOctet_pctOctet by assumption. reflexivity.
Qed.

Lemma unescapeFrom_pctOctets bs rest :
  Forall isOctet bs ->
  unescapeFrom 0 (flat_map pctOctet bs ++ rest) = bs ++ unescapeFrom 0 rest.
Proof.
  induction 1 as [|b bs Hb _ IH]; [done|].
  cbn [flat_map]. rewrite <- app_assoc, unescapeFrom_pctOctet by assumption.
  by rewrite IH.
Qed.

Lemma utf8Octets_octets cp : 0 <= cp <= 1114111 -> Forall isOctet (utf8Octets cp).
Proof.
  intros Hcp. unfold utf8Octets, isOctet.
  repeat case_match; repeat constructor; zbool; Z.div_mod_to_equations; lia.
Qed.

(** Boolean comparisons as propositions, for [lia]. *)
Ltac b2p :=
  rewrite ?orb_true_iff, ?andb_true_iff, ?negb_true_iff, ?orb_false_iff,
    ?andb_false_iff, ?negb_false_iff, ?Z.leb_le, ?Z.ltb_lt, ?Z.eqb_eq, ?Z.leb_gt,
    ?Z.ltb_ge, ?Z.eqb_neq.
Ltac b2p_in H :=
  rewrite ?orb_true_iff, ?andb_true_iff, ?negb_true_iff, ?orb_false_iff,
    ?andb_false_iff, ?negb_false_iff, ?Z.leb_le, ?Z.ltb_lt, ?Z.eqb_eq, ?Z.leb_gt,
    ?Z.ltb_ge, ?Z.eqb_neq in H.

Lemma uriUnescaped_ascii c : uriUnescaped c = true -> 0 <= c < 128 /\ c <> 37.
Proof.
  unfold uriUnescaped, memChar.
  let l := eval vm_compute in (js "-.!~*'()") in change (js "-.!~*'()") with l.
  cbn [existsb]. zchars. intros H. b2p_in H. lia.
Qed.

(** Induction over a well-formed string, one code point at a time. *)
Lemma wellFormed_ind (P : jsstring -> Prop) :
  P [] ->
  (forall c s, 0 <= c <= 65535 -> isLeadSurrogate c = false -> isTrailSurrogate c = false ->
     isWellFormed s = true -> P s -> P (c :: s)) ->
  (forall c d s, isLeadSurrogate c = true -> isTrailSurrogate d = true ->
     isWellFormed s = true -> P s -> P (c :: d :: s)) ->
  forall s, isWellFormed s = true -> P s.
Proof.
  intros Hnil Hone Hpair. fix IH 1. intros [|c s1]; [intros; exact Hnil|].
  cbn [isWellFormed]. intros H. apply andb_prop in H as [Hr H].
  destruct (isLeadSurrogate c) eqn:Hl.
  - destruct s1 as [|d s2]; [discriminate|].
    apply andb_prop in H as [Ht H]. apply Hpair; auto.
  - apply andb_prop in H as [Ht H]. apply negb_true_iff in Ht.
    apply Hone; auto. unfold inRange in Hr. b2p_in Hr. lia.
Qed.

Lemma pair_range c d :
  isLeadSurrogate c = true -> isTrailSurrogate d = true ->
  65536 <= surrogatePairToCodePoint c d <= 1114111.
Proof.
  unfold surrogatePairToCodePoint. zchars. intros H1 H2. b2p_in H1. b2p_in H2. lia.
Qed.

Lemma lead_not_unescaped c : isLeadSurrogate c = true -> uriUnescaped c = false.
Proof.
  intros H. destruct (uriUnescaped c) eqn:E; [|done].
  apply uriUnescaped_ascii in E. zchars. b2p_in H. lia.
Qed.

Lemma lead_not_trail c : isLeadSurrogate c = true -> isTrailSurrogate c = false.
Proof. zchars. intros H. b2p_in H. b2p. lia. Qed.

Lemma utf8Octets_ascii c : 0 <= c < 128 -> utf8Octets c = [c].
Proof. intros. unfold utf8Octets. destruct (Z.ltb_spec0 c 128); [done | lia]. Qed.

(** [unescape ∘ encodeURIComponent] is the UTF-8 encoding. *)
Lemma unescape_encodeURIComponent s :
  isWellFormed s = true ->
  exists e, encodeURIComponent s = Some e /\ unescape e = toUtf8 s.
Proof.
  unfold encodeURIComponent, unescape. revert s.
  apply wellFormed_ind;
    [|intros c s Hc Hl Ht _ (e & He & Hu)|intros c d s Hl Ht _ (e & He & Hu)].
  - by exists [].
  - cbn [encode toUtf8]. rewrite Hl, Ht, He. cbn [fmap option_fmap option_map].
    destruct (uriUnescaped c) eqn:Eu.
    + exists (c :: e). split; [done|].
      apply uriUnescaped_ascii in Eu as [Hr Hp].
      rewrite unescapeFrom_literal by assumption.
      rewrite utf8Octets_ascii by assumption. by rewrite Hu.
    + exists (pctOctets c ++ e). split; [done|].
      unfold pctOctets. rewrite unescapeFrom_pctOctets, Hu; [done|].
      apply utf8Octets_octets. lia.
  - cbn [encode toUtf8]. rewrite (lead_not_unescaped c Hl), (lead_not_trail c Hl), Hl, Ht, He.
    cbn [fmap option_fmap option_map].
    exists (pctOctets (surrogatePairToCodePoint c d) ++ e). split; [done|].
    unfold pctOctets. rewrite unescapeFrom_pctOctets, Hu; [done|].
    apply utf8Octets_octets. pose proof (pair_range c d Hl Ht). lia.
Qed.

Lemma toUtf8_octets s : isWellFormed s = true -> Forall isOctet (toUtf8 s).
Proof.
  revert s. apply wellFormed_ind; [|intros c s Hc Hl Ht _ IH|intros c d s Hl Ht _ IH].
  - constructor.
  - cbn [toUtf8]. rewrite Hl. apply Forall_app. split; [|done].
    apply utf8Octets_octets. lia.
  - cbn [toUtf8]. rewrite Hl. apply Forall_app. split; [|done].
    apply utf8Octets_octets. pose proof (pair_range c d Hl Ht). lia.
Qed.

(** *** Base64 *)

(** Induction over a list, three elements at a time. *)
Lemma list_ind3 {A} (P : list A -> Prop) :
  P [] -> (forall a, P [a]) -> (forall a b, P [a; b]) ->
  (forall a b c l, P l -> P (a :: b :: c :: l)) -> forall l, P l.
Proof.
  intros H0 H1 H2 H3. fix IH 1.
  intros [|a [|b [|c l]]];
    [exact H0 | exact (H1 a) | exact (H2 a b) | exact (H3 a b c l (IH l))].
Qed.

Lemma base64Index_char i : isSextet i -> base64Index (base64Char i) = Some i.
Proof.
  unfold isSextet, base64Index, base64Char. intros. zchars.
  destruct (Z.ltb_spec0 i 26); [zbool; try lia; f_equal; lia|].
  destruct (Z.ltb_spec0 i 52); [zbool; try lia; f_equal; lia|].
  destruct (Z.ltb_spec0 i 62); [zbool; try lia; f_equal; lia|].
  destruct (Z.eqb_spec i 62); [subst; reflexivity|].
  assert (i = 63) as -> by lia. reflexivity.
Qed.

Lemma base64Char_range i :
  isSextet i ->
  65 <= base64Char i <= 90 \/ 97 <= base64Char i <= 122 \/ 48 <= base64Char i <= 57
  \/ base64Char i = 43 \/ base64Char i = 47.
Proof.
  unfold isSextet, base64Char. intros.
  destruct (Z.ltb_spec0 i 26); [lia|]. destruct (Z.ltb_spec0 i 52); [lia|].
  destruct (Z.ltb_spec0 i 62); [lia|]. destruct (Z.eqb_spec i 62); lia.
Qed.

Lemma base64Char_plain i :
  isSextet i -> isAsciiWhitespace (base64Char i) = false /\ (base64Char i =? 61) = false.
Proof.
  intros Hi. pose proof (base64Char_range i Hi). unfold isAsciiWhitespace.
  split; b2p; lia.
Qed.

Lemma sextets_of_group n :
  0 <= n < 16777216 ->
  isSextet (n / 262144) /\ isSextet ((n / 4096) mod 64) /\ isSextet ((n / 64) mod 64)
  /\ isSextet (n mod 64)
  /\ ((n / 262144 * 64 + (n / 4096) mod 64) * 64 + (n / 64) mod 64) * 64 + n mod 64 = n.
Proof. unfold isSextet. intros. Z.div_mod_to_equations. lia. Qed.

Lemma octets_of_group a b c :
  isOctet a -> isOctet b -> isOctet c ->
  let n := (a * 256 + b) * 256 + c in
  0 <= n < 16777216 /\ n / 65536 = a /\ (n / 256) mod 256 = b /\ n mod 256 = c.
Proof. unfold isOctet. intros ? ? ?. cbv zeta. Z.div_mod_to_equations. lia. Qed.

Lemma mapM_base64Index sx :
  Forall isSextet sx -> mapM base64Index (map base64Char sx) = Some sx.
Proof.
  intros H. apply mapM_Some. induction H; constructor; auto using base64Index_char.
Qed.

Lemma filter_plain sx pad :
  Forall isSextet sx -> Forall (eq 61) pad ->
  List.filter (fun c => negb (isAsciiWhitespace c)) (map base64Char sx ++ pad)
  = map base64Char sx ++ pad.
Proof.
  intros Hs Hp. apply forallb_filter_id. rewrite forallb_app. apply andb_true_intro. split.
  - apply forallb_forall. intros c Hc. apply in_map_iff in Hc as (i & <- & Hi).
    rewrite Forall_forall in Hs. apply list_elem_of_In in Hi.
    by destruct (base64Char_plain i (Hs i Hi)) as [-> _].
  - apply forallb_forall. intros c Hc. rewrite Forall_forall in Hp.
    apply list_elem_of_In in Hc. by rewrite <- (Hp c Hc).
Qed.

Lemma encodeOctets_shape bs :
  Forall isOctet bs ->
  exists sx pad, encodeOctets bs = map base64Char sx ++ pad /\ Forall isSextet sx
                 /\ decodeSextets sx = bs /\ padded sx pad.
Proof.
  revert bs. apply (list_ind3 (fun bs => Forall isOctet bs -> _)).
  - intros _. exists [], []. repeat split; auto. by left.
  - intros a Ha. apply Forall_inv in Ha. unfold isOctet in Ha.
    exists [a * 16 / 64; (a * 16) mod 64], [61; 61]. cbn [encodeOctets map app decodeSextets].
    split; [done|]. split; [|split].
    + repeat constructor; unfold isSextet; Z.div_mod_to_equations; lia.
    + f_equal. Z.div_mod_to_equations; lia.
    + right; right. done.
  - intros a b Hab. inversion Hab as [|? ? Ha Hb']; subst. apply Forall_inv in Hb' as Hb.
    unfold isOctet in Ha, Hb.
    exists [(a * 256 + b) * 4 / 4096; ((a * 256 + b) * 4 / 64) mod 64; ((a * 256 + b) * 4) mod 64], [61].
    cbn [encodeOctets map app decodeSextets].
    split; [done|]. split; [|split].
    + repeat constructor; unfold isSextet; Z.div_mod_to_equations; lia.
    + cbv zeta. f_equal; [|f_equal]; Z.div_mod_to_equations; lia.
    + right; left. done.
  - intros a b c l IH Hall.
    inversion Hall as [|? ? Ha H1]; subst. inversion H1 as [|? ? Hb H2]; subst.
    inversion H2 as [|? ? Hc H3]; subst.
    destruct (IH H3) as (sx & pad & He & Hs & Hd & Hp).
    destruct (octets_of_group a b c Ha Hb Hc) as (Hn & Hn1 & Hn2 & Hn3).
    set (n := (a * 256 + b) * 256 + c) in *.
    destruct (sextets_of_group n Hn) as (S1 & S2 & S3 & S4 & Hre).
    exists (n / 262144 :: (n / 4096) mod 64 :: (n / 64) mod 64 :: n mod 64 :: sx), pad.
    cbn [encodeOctets map app decodeSextets]. fold n. cbv zeta. rewrite He, Hre, Hd, Hn1, Hn2, Hn3.
    split; [done|]. split; [repeat (constructor; [assumption|]); assumption|].
    split; [done|].
    unfold padded in *. cbn [length].
    replace (S (S (S (S (length sx))))) with (length sx + 1 * 4)%nat by lia.
    by rewrite Nat.Div0.mod_add.
Qed.

Lemma stripPadding_shape sx pad :
  Forall isSextet sx -> padded sx pad ->
  stripPadding (map base64Char sx ++ pad) = map base64Char sx
  /\ (length (map base64Char sx) mod 4 =? 1)%nat = false.
Proof.
  intros Hs Hp.
  assert (Hlast : forall r a, rev (map base64Char sx) = a :: r -> (a =? 61) = false).
  { intros r a Hr. assert (Hin : In a (rev (map base64Char sx))) by (rewrite Hr; by left).
    apply in_rev, in_map_iff in Hin as (i & <- & Hi).
    rewrite Forall_forall in Hs. apply list_elem_of_In in Hi.
    by destruct (base64Char_plain i (Hs i Hi)). }
  unfold stripPadding. rewrite length_app, length_map, rev_app_distr.
  destruct Hp as [[-> Hl]|[[-> Hl]|[-> Hl]]]; cbn [length rev app].
  - rewrite Nat.add_0_r, Hl. cbn [Nat.eqb]. split; [|done].
    rewrite app_nil_r. destruct (rev (map base64Char sx)) as [|a r] eqn:Hr; [done|].
    by rewrite (Hlast r a eq_refl).
  - assert (((length sx + 1) mod 4 =? 0)%nat = true) as ->.
    { apply Nat.eqb_eq. rewrite Nat.Div0.add_mod, Hl. done. }
    rewrite Hl. split; [|done]. cbn [Z.eqb Pos.eqb].
    destruct (rev (map base64Char sx)) as [|a r] eqn:Hr.
    + cbn [rev]. apply (f_equal (@rev Z)) in Hr. rewrite rev_involutive in Hr. by rewrite Hr.
    + rewrite (Hlast r a eq_refl). rewrite <- Hr. by rewrite rev_involutive.
  - assert (((length sx + 2) mod 4 =? 0)%nat = true) as ->.
    { apply Nat.eqb_eq. rewrite Nat.Div0.add_mod, Hl. done. }
    rewrite Hl. split; [|done]. cbn [Z.eqb Pos.eqb]. by rewrite rev_involutive.
Qed.

Lemma atob_encodeOctets bs : Forall isOctet bs -> atob (encodeOctets bs) = Some bs.
Proof.
  intros Hb. destruct (encodeOctets_shape bs Hb) as (sx & pad & -> & Hs & Hd & Hp).
  unfold atob. rewrite filter_plain; [|done|].
  2:{ destruct Hp as [[-> _]|[[-> _]|[-> _]]]; repeat constructor. }
  destruct (stripPadding_shape sx pad Hs Hp) as [-> ->].
  rewrite mapM_base64Index by done. cbn. by rewrite Hd.
Qed.

Lemma btoa_octets bs : Forall isOctet bs -> btoa bs = Some (encodeOctets bs).
Proof.
  intros Hb. unfold btoa.
  assert (forallb (fun c => c <=? 255) bs = true) as ->; [|done].
  apply forallb_forall. intros c Hc. rewrite Forall_forall in Hb.
  apply list_elem_of_In in Hc. specialize (Hb c Hc). unfold isOctet in Hb. b2p. lia.
Qed.

(** *** [decodeURIComponent] after [escape] *)

Lemma decodeFrom_skip p rest : decodeFrom (length p) (p ++ rest) = decodeFrom 0 rest.
Proof. induction p as [|c p IH]; [done|]. simpl. exact IH. Qed.

Lemma decodeFrom_literal c rest :
  c <> 37 -> decodeFrom 0 (c :: rest) = cons c <$> decodeFrom 0 rest.
Proof. intros Hc. simpl. destruct (Z.eqb_spec c 37); [contradiction | done]. Qed.

Lemma length_pctOctets bs : length (flat_map pctOctet bs) = (3 * length bs)%nat.
Proof. induction bs as [|b bs IH]; [done|]. cbn [flat_map length app pctOctet]. lia. Qed.

Lemma continuationOctets_pct bs rest :
  Forall isOctet bs ->
  continuationOctets (length bs) (flat_map pctOctet bs ++ rest) = Some bs.
Proof.
  induction 1 as [|b bs Hb _ IH]; [done|].
  cbn [flat_map length app pctOctet continuationOctets]. rewrite Z.eqb_refl.
  rewrite parseHexOctet_pctOctet by assumption. cbn [drop mbind option_bind].
  rewrite drop_0. by rewrite IH.
Qed.

Lemma decodeFrom_ascii b rest :
  0 <= b < 128 -> decodeFrom 0 (pctOctet b ++ rest) = cons b <$> decodeFrom 0 rest.
Proof.
  intros Hb. unfold pctOctet. cbn [app decodeFrom]. rewrite Z.eqb_refl.
  rewrite parseHexOctet_pctOctet by (unfold isOctet; lia).
  unfold leadingOnes. destruct (Z.ltb_spec0 b 128); [done | lia].
Qed.

Lemma decodeFrom_multi b0 bs m v rest :
  Forall isOctet (b0 :: bs) -> leadingOnes b0 = S (S m) -> length bs = S m -> (m <= 2)%nat ->
  utf8CodePoint (b0 :: bs) = Some v ->
  decodeFrom 0 (flat_map pctOctet (b0 :: bs) ++ rest)
  = app (utf16EncodeCodePoint v) <$> decodeFrom 0 rest.
Proof.
  intros Hall Hlead Hlen Hm Hv. inversion Hall as [|? ? Hb0 Hbs]; subst.
  cbn [flat_map]. rewrite <- app_assoc. unfold pctOctet at 1. cbn [app decodeFrom].
  rewrite Z.eqb_refl, parseHexOctet_pctOctet, Hlead by assumption.
  destruct (Nat.ltb_spec0 2 m); [lia|]. cbn [drop]. rewrite drop_0.
  rewrite <- Hlen, continuationOctets_pct by assumption. cbn [mbind option_bind].
  rewrite Hv. cbn [mbind option_bind]. f_equal.
  change (hexDigit (b0 / 16) :: hexDigit (b0 mod 16) :: flat_map pctOctet bs ++ rest)
    with ((hexDigit (b0 / 16) :: hexDigit (b0 mod 16) :: flat_map pctOctet bs) ++ rest).
  replace (2 + 3 * length bs)%nat
    with (length (hexDigit (b0 / 16) :: hexDigit (b0 mod 16) :: flat_map pctOctet bs)).
  - apply decodeFrom_skip.
  - cbn [length]. rewrite length_pctOctets. lia.
Qed.

Lemma escapeUnescaped_ascii c : escapeUnescaped c = true -> 0 <= c < 128 /\ c <> 37.
Proof.
  unfold escapeUnescaped, memChar.
  let l := eval vm_compute in (js "@*+-./") in change (js "@*+-./") with l.
  cbn [existsb]. zchars. intros H. b2p_in H. lia.
Qed.

Lemma escapeUnit_high b : 128 <= b < 256 -> escapeUnit b = pctOctet b.
Proof.
  intros Hb. unfold escapeUnit. destruct (escapeUnescaped b) eqn:E.
  - apply escapeUnescaped_ascii in E. lia.
  - destruct (Z.ltb_spec0 b 256); [done | lia].
Qed.

Lemma escape_high bs : Forall (fun b => 128 <= b < 256) bs -> escape bs = flat_map pctOctet bs.
Proof.
  unfold escape. induction 1 as [|b bs Hb _ IH]; [done|].
  cbn [flat_map]. by rewrite escapeUnit_high, IH.
Qed.

Lemma utf8_multi cp :
  isScalar cp -> 128 <= cp ->
  exists b0 bs m, utf8Octets cp = b0 :: bs /\ Forall (fun b => 128 <= b < 256) (b0 :: bs)
    /\ leadingOnes b0 = S (S m) /\ length bs = S m /\ (m <= 2)%nat
    /\ utf8CodePoint (b0 :: bs) = Some cp.
Proof.
  intros [Hr Hs] Hlo. unfold utf8Octets.
  destruct (Z.ltb_spec0 cp 128); [lia|].
  destruct (Z.ltb_spec0 cp 2048); [|destruct (Z.ltb_spec0 cp 65536)].
  - exists (192 + cp / 64), [128 + cp mod 64], 0%nat.
    assert (H0 : 194 <= 192 + cp / 64 < 224) by (Z.div_mod_to_equations; lia).
    assert (H1 : 128 <= 128 + cp mod 64 < 192) by (Z.div_mod_to_equations; lia).
    assert (Hv : ((192 + cp / 64) mod 32) * 64 + (128 + cp mod 64) mod 64 = cp)
      by (Z.div_mod_to_equations; lia).
    split; [done|]. split; [repeat constructor; lia|]. split.
    { unfold leadingOnes. repeat (case_match; zbool; try lia); done. }
    split; [done|]. split; [lia|].
    unfold utf8CodePoint. cbv zeta. rewrite Hv.
    unfold isContinuation, inRange. repeat (case_match; zbool; try lia); done.
  - exists (224 + cp / 4096), [128 + (cp / 64) mod 64; 128 + cp mod 64], 1%nat.
    assert (H0 : 224 <= 224 + cp / 4096 < 240) by (Z.div_mod_to_equations; lia).
    assert (H1 : 128 <= 128 + (cp / 64) mod 64 < 192) by (Z.div_mod_to_equations; lia).
    assert (H2 : 128 <= 128 + cp mod 64 < 192) by (Z.div_mod_to_equations; lia).
    assert (Hv : (((224 + cp / 4096) mod 16) * 64 + (128 + (cp / 64) mod 64) mod 64) * 64
                 + (128 + cp mod 64) mod 64 = cp)
      by (Z.div_mod_to_equations; lia).
    split; [done|]. split; [repeat constructor; lia|]. split.
    { unfold leadingOnes. repeat (case_match; zbool; try lia); done. }
    split; [done|]. split; [lia|].
    unfold utf8CodePoint. cbv zeta. rewrite Hv.
    unfold isContinuation, inRange. repeat (case_match; zbool; try lia); done.
  - exists (240 + cp / 262144),
      [128 + (cp / 4096) mod 64; 128 + (cp / 64) mod 64; 128 + cp mod 64], 2%nat.
    assert (H0 : 240 <= 240 + cp / 262144 < 248) by (Z.div_mod_to_equations; lia).
    assert (H1 : 128 <= 128 + (cp / 4096) mod 64 < 192) by (Z.div_mod_to_equations; lia).
    assert (H2 : 128 <= 128 + (cp / 64) mod 64 < 192) by (Z.div_mod_to_equations; lia).
    assert (H3 : 128 <= 128 + cp mod 64 < 192) by (Z.div_mod_to_equations; lia).
    assert (Hv : ((((240 + cp / 262144) mod 8) * 64 + (128 + (cp / 4096) mod 64) mod 64) * 64
                  + (128 + (cp / 64) mod 64) mod 64) * 64 + (128 + cp mod 64) mod 64 = cp)
      by (Z.div_mod_to_equations; lia).
    split; [done|]. split; [repeat constructor; lia|]. split.
    { unfold leadingOnes. repeat (case_match; zbool; try lia); done. }
    split; [done|]. split; [lia|].
    unfold utf8CodePoint. cbv zeta. rewrite Hv.
    unfold isContinuation, inRange. repeat (case_match; zbool; try lia); done.
Qed.

Lemma decodeFrom_chunk cp rest :
  isScalar cp ->
  decodeFrom 0 (escape (utf8Octets cp) ++ rest)
  = app (utf16EncodeCodePoint cp) <$> decodeFrom 0 rest.
Proof.
  intros Hs. destruct (Z.lt_ge_cases cp 128) as [Hlt|Hge].
  - destruct Hs as [Hr _].
    rewrite utf8Octets_ascii by lia. unfold escape. cbn [flat_map]. rewrite app_nil_r.
    assert (utf16EncodeCodePoint cp = [cp]) as ->.
    { unfold utf16EncodeCodePoint. destruct (Z.leb_spec0 cp 65535); [done | lia]. }
    unfold escapeUnit. destruct (escapeUnescaped cp) eqn:E.
    + apply escapeUnescaped_ascii in E as [_ Hp]. cbn [app].
      rewrite decodeFrom_literal by assumption. by destruct (decodeFrom 0 rest).
    + destruct (Z.ltb_spec0 cp 256); [|lia].
      rewrite decodeFrom_ascii by lia. by destruct (decodeFrom 0 rest).
  - destruct (utf8_multi cp Hs) as (b0 & bs & m & -> & Hhi & Hlead & Hlen & Hm & Hv); [lia|].
    rewrite escape_high by assumption.
    apply decodeFrom_multi with (m := m); try assumption.
    eapply Forall_impl; [exact Hhi|]. unfold isOctet. intros; simpl in *; lia.
Qed.

Lemma utf16_pair c d :
  isLeadSurrogate c = true -> isTrailSurrogate d = true ->
  utf16EncodeCodePoint (surrogatePairToCodePoint c d) = [c; d].
Proof.
  intros Hl Ht. pose proof (pair_range c d Hl Ht) as Hr.
  unfold utf16EncodeCodePoint. destruct (Z.leb_spec0 (surrogatePairToCodePoint c d) 65535); [lia|].
  unfold surrogatePairToCodePoint in *. zchars. b2p_in Hl. b2p_in Ht.
  f_equal; [|f_equal]; Z.div_mod_to_equations; lia.
Qed.

Lemma decodeURIComponent_escape_toUtf8 s :
  isWellFormed s = true -> decodeURIComponent (escape (toUtf8 s)) = Some s.
Proof.
  unfold decodeURIComponent. revert s.
  apply wellFormed_ind; [|intros c s Hc Hl Ht _ IH|intros c d s Hl Ht _ IH].
  - done.
  - cbn [toUtf8]. rewrite Hl. unfold escape in *. rewrite flat_map_app.
    fold (escape (utf8Octets c)). rewrite decodeFrom_chunk, IH.
    + unfold utf16EncodeCodePoint. destruct (Z.leb_spec0 c 65535); [done | lia].
    + split; [lia|]. zchars. b2p_in Hl. b2p_in Ht. lia.
  - cbn [toUtf8]. rewrite Hl. unfold escape in *. rewrite flat_map_app.
    fold (escape (utf8Octets (surrogatePairToCodePoint c d))).
    rewrite decodeFrom_chunk, IH.
    + by rewrite utf16_pair.
    + pose proof (pair_range c d Hl Ht). split; lia.
Qed.

(** *** The round trip *)

Lemma deobfuscate_obfuscate s :
  isWellFormed s = true -> Utils.deobfuscate (Utils.obfuscate s) = s.
Proof.
  intros Hwf. unfold Utils.obfuscate, Utils.deobfuscate.
  destruct (unescape_encodeURIComponent s Hwf) as (e & -> & Hu).
  cbn [mbind option_bind]. rewrite Hu.
  rewrite btoa_octets by (by apply toUtf8_octets).
  rewrite atob_encodeOctets by (by apply toUtf8_octets).
  cbn [mbind option_bind]. by rewrite decodeURIComponent_escape_toUtf8.
Qed.

End TextTransform.

(** ** The controller *)

Section Controller.

(** *** What the handlers leave alone *)

Lemma isBlank_trim text : isBlank text = true <-> JS.trim text = [].
Proof.
  unfold isBlank. destruct text as [|c s]; [done|]. destruct (JS.trim (c :: s)); split; done.
Qed.

(** Open a world and its manager into their fields. *)
Ltac destruct_world w :=
  let m := fresh "m" in
  destruct w as [? ? ? ? ? ? ? ? m ? ?]; destruct m as [? ? ? ? ?]; simpl in *.

Lemma handleInput_frame w :
  storage (handleInput w) = storage w /\ effects (handleInput w) = effects w
  /\ heap (handleInput w) = heap w /\ isSubmitting (manager (handleInput w)) = isSubmitting (manager w)
  /\ adapter (manager (handleInput w)) = adapter (manager w)
  /\ currentInput (manager (handleInput w)) = currentInput (manager w)
  /\ location (handleInput w) = location w /\ pendingGets (handleInput w) = pendingGets w
  /\ document (handleInput w) = document w /\ lastUrl (handleInput w) = lastUrl w
  /\ clock (handleInput w) = clock w.
Proof.
  unfold handleInput, clearTimeout, update_manager. destruct_world w.
  repeat case_match; simplify_eq/=; done.
Qed.

Lemma handleKeydown_inert e w :
  key e = None -> handleKeydown e w = w.
Proof. intros H. unfold handleKeydown. by rewrite H. Qed.

Lemma dispatch_input_frame r w :
  let w' := dispatchEvent r (mkDomEvent EvtInput None false) w in
  storage w' = storage w /\ effects w' = effects w /\ heap w' = heap w
  /\ isSubmitting (manager w') = isSubmitting (manager w)
  /\ adapter (manager w') = adapter (manager w)
  /\ currentInput (manager w') = currentInput (manager w)
  /\ location w' = location w /\ pendingGets w' = pendingGets w
  /\ document w' = document w /\ lastUrl w' = lastUrl w /\ clock w' = clock w.
Proof.
  unfold dispatchEvent. destruct (heap w !! r) as [elt|]; [|done].
  generalize (listeners elt). intros ls. revert w.
  induction ls as [|[t l] ls IH]; intros w; [done|].
  cbn [fold_left]. specialize (IH (if bool_decide ((t, l).1 = evType (mkDomEvent EvtInput None false))
                                   then invoke (t, l).2 (mkDomEvent EvtInput None false) w else w)).
  cbv zeta in IH.
  case_bool_decide; [|exact IH].
  destruct l; cbn [invoke snd] in *.
  - pose proof (handleInput_frame w). intuition congruence.
  - rewrite handleKeydown_inert in IH by done. exact IH.
Qed.

Lemma updateElement_frame r f w :
  let w' := updateElement r f w in
  storage w' = storage w /\ effects w' = effects w /\ manager w' = manager w
  /\ timers w' = timers w /\ nextTimerId w' = nextTimerId w /\ location w' = location w
  /\ pendingGets w' = pendingGets w /\ document w' = document w /\ lastUrl w' = lastUrl w
  /\ clock w' = clock w.
Proof. unfold updateElement. destruct (heap w !! r); done. Qed.

Lemma setValue_frame a val w :
  storage (setValue a val w) = storage w
  /\ effects (setValue a val w) = effects w ++ [SetValue (el a) val]
  /\ location (setValue a val w) = location w.
Proof.
  unfold setValue.
  pose proof (dispatch_input_frame (el a)
    (record (SetValue (el a) val) (updateElement (el a) (writeText (kind a) val) w))) as H.
  cbv zeta in H. destruct H as (Hs & He & _ & _ & _ & _ & Hl & _).
  rewrite Hs, He, Hl.
  pose proof (updateElement_frame (el a) (writeText (kind a) val) w) as H.
  cbv zeta in H. destruct H as (Hs' & He' & _ & _ & _ & Hl' & _).
  simpl. by rewrite Hs', He', Hl'.
Qed.

Lemma restoreDraftCallback_effects key result w :
  storage (restoreDraftCallback key result w) = storage w
  /\ exists l, effects (restoreDraftCallback key result w) = effects w ++ l
               /\ Forall (fun e => isStoreWrite e = false) l.
Proof.
  unfold restoreDraftCallback.
  destruct result as [stored|]; [|split; [done | exists []; by rewrite app_nil_r]].
  destruct (adapter (manager w)) as [a|]; [|split; [done | exists []; by rewrite app_nil_r]].
  repeat case_match; try (split; [done | exists []; by rewrite app_nil_r]).
  destruct (setValue_frame a (Utils.deobfuscate stored) w) as (Hs & He & _).
  unfold Utils.showToast. simpl. rewrite Hs, He. split; [done|].
  exists [SetValue (el a) (Utils.deobfuscate stored); ShowToast restoredMessage].
  split; [by rewrite <- app_assoc | by repeat constructor].
Qed.

Lemma storeWrites_app w w' l :
  effects w' = effects w ++ l -> Forall (fun e => isStoreWrite e = false) l ->
  storeWrites w' = storeWrites w.
Proof.
  unfold storeWrites. intros -> Hl. rewrite List.filter_app.
  assert (List.filter isStoreWrite l = []) as ->; [|by rewrite app_nil_r].
  induction Hl as [|e l He _ IH]; [done|]. simpl. by rewrite He.
Qed.

(** *** Invariants of the timer list *)

Lemma timersOk_transfer w w' :
  timers w' = timers w -> nextTimerId w' = nextTimerId w ->
  typingTimer (manager w') = typingTimer (manager w) -> timersOk w -> timersOk w'.
Proof.
  intros Ht Hn Hy [H1 H2]. split.
  - intros t. rewrite Ht, Hy. apply H1.
  - intros t. rewrite Ht, Hn. apply H2.
Qed.

Lemma absent_transfer i w w' :
  timers w' = timers w -> nextTimerId w' = nextTimerId w -> absent i w -> absent i w'.
Proof. intros Ht Hn [H1 H2]. split; [by rewrite Hn | by rewrite Ht]. Qed.

Lemma timersOk_setTimeout cb delay w :
  isSaveTimer (mkTimer 0 0 cb) = false -> timersOk w -> timersOk (snd (setTimeout cb delay w)).
Proof.
  intros Hcb [H1 H2]. split; intros t; simpl; rewrite in_app_iff; intros [Hin|[<-|[]]].
  - by apply H1.
  - unfold isSaveTimer in *. simpl in *. congruence.
  - specialize (H2 t Hin). lia.
  - simpl. lia.
Qed.

Lemma absent_setTimeout i cb delay w : absent i w -> absent i (snd (setTimeout cb delay w)).
Proof.
  intros [H1 H2]. split; simpl; [lia|].
  intros t. rewrite in_app_iff. intros [Hin|[<-|[]]]; [by apply H2 | simpl; lia].
Qed.

Lemma timersOk_removeTimer id w : timersOk w -> timersOk (removeTimer id w).
Proof.
  intros [H1 H2]. split; intros t; simpl; rewrite filter_In; intros [Hin _]; auto.
Qed.

Lemma absent_removeTimer i id w : absent i w -> absent i (removeTimer id w).
Proof.
  intros [H1 H2]. split; [done|]. intros t. simpl. rewrite filter_In. intros [Hin _]. auto.
Qed.

Lemma removeTimer_absent i w : (i < nextTimerId w)%nat -> absent i (removeTimer i w).
Proof.
  intros Hi. split; [done|]. intros t. simpl. rewrite filter_In. intros [_ Hne] Heq.
  unfold timerIs in Hne. by rewrite Heq, Nat.eqb_refl in Hne.
Qed.

Lemma timersOk_handleInput w : timersOk w -> timersOk (handleInput w).
Proof.
  intros Hok. unfold handleInput. destruct (isSubmitting (manager w)); [done|].
  assert (Hcl : timersOk (clearTimeout (typingTimer (manager w)) w)
                /\ forall t, In t (timers (clearTimeout (typingTimer (manager w)) w)) ->
                             isSaveTimer t = false).
  { destruct Hok as [H1 H2]. destruct (typingTimer (manager w)) as [i|] eqn:Ety; cbn [clearTimeout].
    - split; [by apply timersOk_removeTimer|].
      intros t. simpl. rewrite filter_In. intros [Hin Hne].
      destruct (isSaveTimer t) eqn:Es; [|done].
      specialize (H1 t Hin Es). rewrite Ety in H1. injection H1 as ->.
      unfold timerIs in Hne. by rewrite Nat.eqb_refl in Hne.
    - split; [done|]. intros t Hin. destruct (isSaveTimer t) eqn:Es; [|done].
      specialize (H1 t Hin Es). congruence. }
  destruct Hcl as [[H1 H2] Hns].
  set (w1 := clearTimeout (typingTimer (manager w)) w) in *.
  destruct (adapter (manager w1)) as [a|]; [|done].
  split; intros t; simpl; rewrite in_app_iff; intros [Hin|[<-|[]]].
  - intros Es. rewrite (Hns t Hin) in Es. discriminate.
  - done.
  - specialize (H2 t Hin). lia.
  - simpl. lia.
Qed.

Lemma absent_handleInput i w : absent i w -> absent i (handleInput w).
Proof.
  intros Ha. unfold handleInput. destruct (isSubmitting (manager w)); [done|].
  assert (Hcl : absent i (clearTimeout (typingTimer (manager w)) w)).
  { destruct (typingTimer (manager w)); [by apply absent_removeTimer | done]. }
  set (w1 := clearTimeout (typingTimer (manager w)) w) in *.
  destruct (adapter (manager w1)) as [a|]; [|done].
  apply (absent_setTimeout i (SaveDraftCb (getValue a w1)) CONFIG.DEBOUNCE_MS) in Hcl.
  destruct Hcl as [H1 H2]. split; done.
Qed.

Lemma handleKeydown_submit e w :
  isSubmitKey e ->
  handleKeydown e w =
    snd (setTimeout ReleaseGuardCb 2000
           (handleSendSuccess
              (clearTimeout (typingTimer (manager w))
                 (update_manager (set_isSubmitting true) w)))).
Proof. intros [Hk Hs]. unfold handleKeydown. rewrite Hk, Hs. by rewrite bool_decide_eq_true_2. Qed.

Lemma handleKeydown_other e w : ~ isSubmitKey e -> handleKeydown e w = w.
Proof.
  intros H. unfold handleKeydown. case_bool_decide; [|done].
  destruct (shiftKey e) eqn:Es; [done|]. exfalso. apply H. by split.
Qed.

Lemma isSubmitKey_dec e : isSubmitKey e \/ ~ isSubmitKey e.
Proof.
  unfold isSubmitKey. destruct (decide (key e = Some (js "Enter"))); destruct (shiftKey e);
    intuition congruence.
Qed.

Lemma timersOk_handleKeydown e w : timersOk w -> timersOk (handleKeydown e w).
Proof.
  intros Hok. destruct (isSubmitKey_dec e) as [Hs|Hn]; [|by rewrite handleKeydown_other].
  rewrite handleKeydown_submit by done.
  apply timersOk_setTimeout; [done|].
  apply timersOk_transfer with (w := clearTimeout (typingTimer (manager w)) w).
  - by destruct (typingTimer (manager w)).
  - by destruct (typingTimer (manager w)).
  - by destruct (typingTimer (manager w)).
  - destruct (typingTimer (manager w)); [by apply timersOk_removeTimer | done].
Qed.

Lemma absent_handleKeydown i e w : absent i w -> absent i (handleKeydown e w).
Proof.
  intros Ha. destruct (isSubmitKey_dec e) as [Hs|Hn]; [|by rewrite handleKeydown_other].
  rewrite handleKeydown_submit by done. apply absent_setTimeout.
  apply absent_transfer with (w := clearTimeout (typingTimer (manager w)) w).
  - by destruct (typingTimer (manager w)).
  - by destruct (typingTimer (manager w)).
  - destruct (typingTimer (manager w)); [by apply absent_removeTimer | done].
Qed.

(** After a submit key no debounced save is left. *)
Lemma handleKeydown_cancels e w :
  isSubmitKey e -> timersOk w ->
  Forall (fun t => isSaveTimer t = false) (timers (handleKeydown e w))
  /\ forall t, In t (timers w) -> isSaveTimer t = true -> absent (timerId t) (handleKeydown e w).
Proof.
  intros Hs [H1 H2]. rewrite handleKeydown_submit by done. split.
  - apply Forall_forall. intros t Hin. apply list_elem_of_In in Hin. simpl in Hin.
    apply in_app_iff in Hin as [Hin|[<-|[]]]; [|done].
    destruct (isSaveTimer t) eqn:Es; [|done]. exfalso.
    destruct (typingTimer (manager w)) as [i|] eqn:Ety; simpl in Hin.
    + apply filter_In in Hin as [Hin Hne]. specialize (H1 t Hin Es).
      rewrite Ety in H1. injection H1 as ->.
      unfold timerIs in Hne. by rewrite Nat.eqb_refl in Hne.
    + specialize (H1 t Hin Es). congruence.
  - intros t Hin Es. specialize (H1 t Hin Es). specialize (H2 t Hin).
    apply absent_setTimeout.
    apply absent_transfer with (w := removeTimer (timerId t) w).
    + simpl. by rewrite H1.
    + simpl. by rewrite H1.
    + by apply removeTimer_absent.
Qed.

Lemma invoke_timersOk l e w : timersOk w -> timersOk (invoke l e w).
Proof. destruct l; [apply timersOk_handleInput | apply timersOk_handleKeydown]. Qed.

Lemma invoke_absent i l e w : absent i w -> absent i (invoke l e w).
Proof. destruct l; [apply absent_handleInput | apply absent_handleKeydown]. Qed.

Lemma dispatchEvent_timersOk r e w : timersOk w -> timersOk (dispatchEvent r e w).
Proof.
  unfold dispatchEvent. destruct (heap w !! r) as [elt|]; [|done].
  generalize (listeners elt). intros ls. revert w.
  induction ls as [|tl ls IH]; intros w Hok; [done|].
  cbn [fold_left]. apply IH. case_bool_decide; [by apply invoke_timersOk | done].
Qed.

Lemma dispatchEvent_absent i r e w : absent i w -> absent i (dispatchEvent r e w).
Proof.
  unfold dispatchEvent. destruct (heap w !! r) as [elt|]; [|done].
  generalize (listeners elt). intros ls. revert w.
  induction ls as [|tl ls IH]; intros w Hok; [done|].
  cbn [fold_left]. apply IH. case_bool_decide; [by apply invoke_absent | done].
Qed.

Lemma updateElement_timersOk r f w : timersOk w -> timersOk (updateElement r f w).
Proof. apply timersOk_transfer; unfold updateElement; by destruct (heap w !! r). Qed.

Lemma updateElement_absent i r f w : absent i w -> absent i (updateElement r f w).
Proof. apply absent_transfer; unfold updateElement; by destruct (heap w !! r). Qed.

Lemma setValue_timersOk a val w : timersOk w -> timersOk (setValue a val w).
Proof.
  intros Hok. unfold setValue. apply dispatchEvent_timersOk.
  apply timersOk_transfer with (w := updateElement (el a) (writeText (kind a) val) w);
    [done..|by apply updateElement_timersOk].
Qed.

Lemma setValue_absent i a val w : absent i w -> absent i (setValue a val w).
Proof.
  intros Hok. unfold setValue. apply dispatchEvent_absent.
  apply absent_transfer with (w := updateElement (el a) (writeText (kind a) val) w);
    [done..|by apply updateElement_absent].
Qed.

Lemma restoreDraftCallback_timersOk k r w : timersOk w -> timersOk (restoreDraftCallback k r w).
Proof.
  intros Hok. unfold restoreDraftCallback. repeat case_match; try done.
  unfold Utils.showToast. apply timersOk_setTimeout; [done|].
  eapply timersOk_transfer; [..|apply setValue_timersOk, Hok]; done.
Qed.

Lemma restoreDraftCallback_absent i k r w : absent i w -> absent i (restoreDraftCallback k r w).
Proof.
  intros Hok. unfold restoreDraftCallback. repeat case_match; try done.
  unfold Utils.showToast. apply absent_setTimeout.
  eapply absent_transfer; [..|apply setValue_absent, Hok]; done.
Qed.

Lemma observeDOM_timers w :
  timers (observeDOM w) = timers w /\ nextTimerId (observeDOM w) = nextTimerId w
  /\ typingTimer (manager (observeDOM w)) = typingTimer (manager w)
  /\ isSubmitting (manager (observeDOM w)) = isSubmitting (manager w)
  /\ storage (observeDOM w) = storage w /\ location (observeDOM w) = location w.
Proof.
  unfold observeDOM. repeat case_match; try done.
  unfold bindSubmit, bindInput, updateElement. repeat case_match; done.
Qed.

Lemma observeURL_timers w :
  timers (observeURL w) = timers w /\ nextTimerId (observeURL w) = nextTimerId w
  /\ typingTimer (manager (observeURL w)) = typingTimer (manager w).
Proof. unfold observeURL. by case_bool_decide. Qed.

Lemma runTimer_timersOk cb w : timersOk w -> timersOk (runTimer cb w).
Proof.
  intros Hok. destruct cb; cbn [runTimer].
  - destruct (isSubmitting (manager w)); [done|].
    eapply timersOk_transfer; [..|exact Hok]; unfold saveDraft; by destruct (isBlank text).
  - eapply timersOk_transfer; [..|exact Hok]; done.
  - eapply timersOk_transfer; [..|exact Hok]; unfold clickSettle; by repeat case_match.
  - by apply timersOk_setTimeout.
  - done.
Qed.

Lemma runTimer_absent i cb w : absent i w -> absent i (runTimer cb w).
Proof.
  intros Hok. destruct cb; cbn [runTimer].
  - destruct (isSubmitting (manager w)); [done|].
    eapply absent_transfer; [..|exact Hok]; unfold saveDraft; by destruct (isBlank text).
  - eapply absent_transfer; [..|exact Hok]; done.
  - eapply absent_transfer; [..|exact Hok]; unfold clickSettle; by repeat case_match.
  - by apply absent_setTimeout.
  - done.
Qed.

Lemma step_timersOk ev w : timersOk w -> timersOk (step ev w).
Proof.
  intros Hok. destruct ev; cbn [step].
  - destruct (observeURL_timers (if underBody then observeDOM w else w)) as (H1 & H2 & H3).
    eapply timersOk_transfer; [exact H1|exact H2|exact H3|].
    destruct underBody; [|done].
    destruct (observeDOM_timers w) as (H4 & H5 & H6 & _).
    by eapply timersOk_transfer.
  - by apply dispatchEvent_timersOk.
  - by apply dispatchEvent_timersOk.
  - destruct (globalClickListenerAttached (manager w)); [|done].
    by apply timersOk_setTimeout.
  - unfold fireTimer. repeat case_match; try done.
    by apply runTimer_timersOk, timersOk_removeTimer.
  - destruct (pendingGets w); [done|].
    apply restoreDraftCallback_timersOk. by eapply timersOk_transfer.
  - case_match; [|done]. by eapply timersOk_transfer.
  - by apply updateElement_timersOk.
  - by eapply timersOk_transfer.
  - by eapply timersOk_transfer.
  - by eapply timersOk_transfer.
Qed.

Lemma step_absent i ev w : absent i w -> absent i (step ev w).
Proof.
  intros Hok. destruct ev; cbn [step].
  - destruct (observeURL_timers (if underBody then observeDOM w else w)) as (H1 & H2 & H3).
    eapply absent_transfer; [exact H1|exact H2|].
    destruct underBody; [|done].
    destruct (observeDOM_timers w) as (H4 & H5 & H6 & _).
    by eapply absent_transfer.
  - by apply dispatchEvent_absent.
  - by apply dispatchEvent_absent.
  - destruct (globalClickListenerAttached (manager w)); [|done].
    by apply absent_setTimeout.
  - unfold fireTimer. repeat case_match; try done.
    by apply runTimer_absent, absent_removeTimer.
  - destruct (pendingGets w); [done|].
    apply restoreDraftCallback_absent. by eapply absent_transfer.
  - case_match; [|done]. by eapply absent_transfer.
  - by apply updateElement_absent.
  - by eapply absent_transfer.
  - by eapply absent_transfer.
  - by eapply absent_transfer.
Qed.

Lemma reachable_timersOk w : reachable w -> timersOk w.
Proof.
  induction 1 as [l els doc store|ev w _ IH]; [|by apply step_timersOk].
  split; intros t []. 
Qed.

Lemma run_absent i evs w : absent i w -> absent i (run evs w).
Proof.
  unfold run. revert w. induction evs as [|ev evs IH]; intros w Ha; [done|].
  cbn [fold_left]. by apply IH, step_absent.
Qed.

Lemma reachable_run evs w : reachable w -> reachable (run evs w).
Proof.
  unfold run. revert w. induction evs as [|ev evs IH]; intros w Hr; [done|].
  cbn [fold_left]. by apply IH, reachable_step.
Qed.

Lemma absent_findTimer i w : absent i w -> findTimer i w = None.
Proof.
  intros [_ H]. unfold findTimer. destruct (List.find (timerIs i) (timers w)) as [t|] eqn:E; [|done].
  apply find_some in E as [Hin Hi]. unfold timerIs in Hi. apply Nat.eqb_eq in Hi.
  by destruct (H t Hin).
Qed.

(** *** The submit key *)

Lemma dispatch_submit_cancels r e w i :
  isSubmitKey e -> evType e = EvtKeydown -> timersOk w ->
  hasListener r EvtKeydown HandleKeydown w ->
  (exists t, In t (timers w) /\ isSaveTimer t = true /\ timerId t = i) ->
  absent i (dispatchEvent r e w).
Proof.
  intros Hs Hty Hok (elt & Hel & Hin) Ht. unfold dispatchEvent. rewrite Hel.
  clear Hel. revert Hin.
  assert (Hgen : forall ls w,
    timersOk w ->
    (absent i w \/ (exists t, In t (timers w) /\ isSaveTimer t = true /\ timerId t = i)) ->
    let w' := fold_left (fun acc tl => if bool_decide (tl.1 = evType e)
                                       then invoke tl.2 e acc else acc) ls w in
    (absent i w -> absent i w')
    /\ (In (EvtKeydown, HandleKeydown) ls -> absent i w')).
  { clear w Hok Ht. induction ls as [|[ty l] ls IH]; intros w Hok Hcase; cbn [fold_left].
    - split; [done | intros []].
    - set (w1 := if bool_decide ((ty, l).1 = evType e) then invoke (ty, l).2 e w else w).
      assert (Hok1 : timersOk w1).
      { subst w1. case_bool_decide; [by apply invoke_timersOk | done]. }
      assert (Habs1 : absent i w -> absent i w1).
      { intros Ha. subst w1. case_bool_decide; [by apply invoke_absent | done]. }
      assert (Hcase1 : absent i w1 \/
                (exists t, In t (timers w1) /\ isSaveTimer t = true /\ timerId t = i)).
      { destruct Hcase as [Ha|Hex]; [left; by apply Habs1|].
        subst w1. case_bool_decide; [|by right]. cbn [snd].
        destruct l; cbn [invoke].
        - (* handleInput *)
          destruct Hex as (t & Hin & Hsv & Hid). destruct Hok as [H1 H2].
          unfold handleInput. destruct (isSubmitting (manager w)); [right; eauto|].
          left. rewrite (H1 t Hin Hsv). cbn [clearTimeout].
          set (w2 := removeTimer (timerId t) w).
          assert (Ha2 : absent i w2).
          { subst i. apply removeTimer_absent. by apply H2. }
          destruct (adapter (manager w2)) as [a|]; [|done].
          apply (absent_setTimeout i (SaveDraftCb (getValue a w2)) CONFIG.DEBOUNCE_MS) in Ha2.
          destruct Ha2 as [? ?]. split; done.
        - left. destruct Hex as (t & Hin & Hsv & <-).
          by apply handleKeydown_cancels. }
      destruct (IH w1 Hok1 Hcase1) as [IH1 IH2]. split.
      + intros Ha. by apply IH1, Habs1.
      + intros [Heq|Hin]; [|by apply IH2].
        injection Heq as -> ->. apply IH1. subst w1. rewrite Hty.
        rewrite bool_decide_eq_true_2 by done. cbn [snd invoke].
        destruct Hcase as [Ha|(t & Hin & Hsv & <-)].
        * by apply absent_handleKeydown.
        * by apply handleKeydown_cancels. }
  intros Hin. by apply (Hgen (listeners elt) w Hok (or_intror Ht)).
Qed.

Lemma invoke_keeps_guard l e w :
  isSubmitting (manager w) = true -> isSubmitting (manager (invoke l e w)) = true.
Proof.
  intros H. destruct l; cbn [invoke].
  - destruct (handleInput_frame w) as (_ & _ & _ & -> & _). done.
  - destruct (isSubmitKey_dec e) as [Hs|Hn]; [|by rewrite handleKeydown_other].
    rewrite handleKeydown_submit by done. by destruct (typingTimer (manager w)).
Qed.

Lemma dispatch_submit_guard r e w :
  isSubmitKey e -> evType e = EvtKeydown ->
  hasListener r EvtKeydown HandleKeydown w ->
  isSubmitting (manager (dispatchEvent r e w)) = true.
Proof.
  intros Hs Hty (elt & Hel & Hin). unfold dispatchEvent. rewrite Hel. clear Hel.
  revert w Hin. generalize (listeners elt) as ls.
  assert (Hkeep : forall ls w, isSubmitting (manager w) = true ->
    isSubmitting (manager (fold_left (fun acc tl => if bool_decide (tl.1 = evType e)
                                       then invoke tl.2 e acc else acc) ls w)) = true).
  { induction ls as [|tl ls IH]; intros w H; [done|]. cbn [fold_left]. apply IH.
    case_bool_decide; [by apply invoke_keeps_guard | done]. }
  induction ls as [|tl ls IH]; intros w Hin; [destruct Hin|].
  destruct Hin as [Heq|Hin]; cbn [fold_left].
  - subst tl. apply Hkeep. rewrite Hty, bool_decide_eq_true_2 by done. cbn [snd invoke].
    rewrite handleKeydown_submit by done. by destruct (typingTimer (manager w)).
  - by apply IH.
Qed.

(** *** The binding and the observers *)

Lemma sameBinding_refl w : sameBinding w w.
Proof. by repeat split. Qed.

Lemma sameBinding_trans w1 w2 w3 : sameBinding w1 w2 -> sameBinding w2 w3 -> sameBinding w1 w3.
Proof. unfold sameBinding. intuition congruence. Qed.

Lemma handleInput_sameBinding w : sameBinding w (handleInput w).
Proof.
  unfold handleInput, clearTimeout, update_manager. destruct_world w.
  repeat case_match; simplify_eq/=; by repeat split.
Qed.

Lemma handleKeydown_sameBinding e w : sameBinding w (handleKeydown e w).
Proof.
  unfold handleKeydown, clearTimeout, update_manager. destruct_world w.
  repeat case_match; simplify_eq/=; by repeat split.
Qed.

Lemma dispatchEvent_sameBinding r e w : sameBinding w (dispatchEvent r e w).
Proof.
  unfold dispatchEvent. destruct (heap w !! r) as [elt|]; [|apply sameBinding_refl].
  generalize (listeners elt). intros ls. revert w.
  induction ls as [|[t l] ls IH]; intros w; [apply sameBinding_refl|].
  cbn [fold_left]. eapply sameBinding_trans; [|apply IH].
  case_bool_decide; [|apply sameBinding_refl].
  destruct l; [apply handleInput_sameBinding | apply handleKeydown_sameBinding].
Qed.

Lemma setValue_sameBinding a val w : sameBinding w (setValue a val w).
Proof.
  unfold setValue. eapply sameBinding_trans; [|apply dispatchEvent_sameBinding].
  unfold updateElement. destruct (heap w !! el a); by repeat split.
Qed.

Lemma restoreDraftCallback_sameBinding k r w : sameBinding w (restoreDraftCallback k r w).
Proof.
  unfold restoreDraftCallback. repeat case_match; try apply sameBinding_refl.
  eapply sameBinding_trans; [apply setValue_sameBinding|]. by repeat split.
Qed.

Lemma runTimer_sameBinding cb w : sameBinding w (runTimer cb w).
Proof.
  destruct cb; cbn [runTimer]; try by repeat split.
  - unfold saveDraft. repeat case_match; by repeat split.
  - unfold clickSettle. repeat case_match; by repeat split.
Qed.

(** Every task other than a delivery of mutation records keeps the binding. *)
Lemma step_sameBinding ev w :
  (forall b, ev <> Mutation b) -> sameBinding w (step ev w).
Proof.
  intros Hev. destruct ev; cbn [step].
  - by destruct (Hev underBody).
  - apply dispatchEvent_sameBinding.
  - apply dispatchEvent_sameBinding.
  - case_match; by repeat split.
  - unfold fireTimer. repeat case_match; try apply sameBinding_refl.
    eapply sameBinding_trans; [|apply runTimer_sameBinding]. by repeat split.
  - destruct (pendingGets w); [apply sameBinding_refl|].
    eapply sameBinding_trans; [|apply restoreDraftCallback_sameBinding]. by repeat split.
  - case_match; by repeat split.
  - unfold updateElement. case_match; by repeat split.
  - by repeat split.
  - by repeat split.
  - by repeat split.
Qed.

Lemma observeURL_spec w :
  href (location w) <> lastUrl w ->
  observeURL w = update_manager (set_currentInput None) (set_lastUrl (href (location w)) w).
Proof. intros H. unfold observeURL. by rewrite bool_decide_eq_false_2. Qed.

Lemma observeURL_idle w : href (location w) = lastUrl w -> observeURL w = w.
Proof. intros H. unfold observeURL. by rewrite bool_decide_eq_true_2. Qed.

Lemma observeURL_keeps_cleared w :
  currentInput (manager w) = None -> currentInput (manager (observeURL w)) = None.
Proof. intros H. unfold observeURL. by case_bool_decide. Qed.

Lemma observeDOM_surface_change w sel box a :
  selectors (hostname (location w)) = Some sel ->
  querySelector sel w = Some box ->
  currentInput (manager w) <> Some box ->
  AdapterFactory.create box w = Some a ->
  observeDOM w =
    bindSubmit a HandleKeydown
      (bindInput a HandleInput
         (restoreDraft
            (update_manager (set_adapter (Some a))
               (update_manager (set_currentInput (Some box)) w)))).
Proof.
  intros Hsel Hq Hne Ha. unfold observeDOM. rewrite Hsel, Hq.
  rewrite bool_decide_eq_false_2 by done.
  change (AdapterFactory.create box (update_manager (set_currentInput (Some box)) w))
    with (AdapterFactory.create box w).
  rewrite Ha. done.
Qed.

Lemma create_el box w a : AdapterFactory.create box w = Some a -> el a = box.
Proof. unfold AdapterFactory.create. repeat case_match; intros; by simplify_eq. Qed.

Lemma create_lookup box w a :
  AdapterFactory.create box w = Some a -> exists e, heap w !! box = Some e.
Proof. unfold AdapterFactory.create. destruct (heap w !! box); [eauto | done]. Qed.

(** The world after a surface change with a successful resolution. *)
Lemma observeDOM_surface_change_result w sel box a :
  selectors (hostname (location w)) = Some sel ->
  querySelector sel w = Some box ->
  currentInput (manager w) <> Some box ->
  AdapterFactory.create box w = Some a ->
  exists e, heap w !! box = Some e /\
  observeDOM w =
    mkWorld (location w) (<[box := bothListeners e]> (heap w)) (document w) (storage w)
      (clock w) (timers w) (nextTimerId w)
      (pendingGets w ++ [mkPendingGet (Utils.getStorageKey w) (storage w !! Utils.getStorageKey w)])
      (mkDraftManager (Some box) (Some a) (typingTimer (manager w)) (isSubmitting (manager w))
         (globalClickListenerAttached (manager w)))
      (lastUrl w) (effects w ++ [StorageGet (Utils.getStorageKey w)]).
Proof.
  intros Hsel Hq Hne Ha. destruct (create_lookup box w a Ha) as [e He]. exists e. split; [done|].
  rewrite (observeDOM_surface_change w sel box a) by done.
  pose proof (create_el box w a Ha) as Hel.
  unfold bindSubmit, bindInput, updateElement. rewrite Hel. simpl. rewrite He. simpl.
  rewrite list_lookup_insert_eq by (by eapply lookup_lt_Some). simpl.
  by rewrite list_insert_insert_eq.
Qed.

(** *** Listeners *)

Lemma listenersKept_refl w : listenersKept w w.
Proof. intros r elt H. exists elt. split; [done | apply incl_refl]. Qed.

Lemma listenersKept_heap w w' : heap w' = heap w -> listenersKept w w'.
Proof. intros H r elt Hr. exists elt. rewrite H. split; [done | apply incl_refl]. Qed.

Lemma listenersKept_trans w1 w2 w3 :
  listenersKept w1 w2 -> listenersKept w2 w3 -> listenersKept w1 w3.
Proof.
  intros H12 H23 r e1 H1. destruct (H12 r e1 H1) as (e2 & H2 & I12).
  destruct (H23 r e2 H2) as (e3 & H3 & I23). exists e3. split; [done|].
  by eapply incl_tran.
Qed.

Lemma updateElement_listenersKept r f w :
  (forall e, incl (listeners e) (listeners (f e))) -> listenersKept w (updateElement r f w).
Proof.
  intros Hf. unfold updateElement. destruct (heap w !! r) as [e|] eqn:He; [|apply listenersKept_refl].
  intros r' elt Hr'. simpl. destruct (decide (r = r')) as [<-|Hne].
  - rewrite list_lookup_insert_eq by (by eapply lookup_lt_Some).
    exists (f e). split; [done|]. rewrite He in Hr'. injection Hr' as <-. apply Hf.
  - rewrite list_lookup_insert_ne by done. exists elt. split; [done | apply incl_refl].
Qed.

Lemma handleKeydown_heap e w : heap (handleKeydown e w) = heap w.
Proof.
  unfold handleKeydown, clearTimeout, update_manager. destruct_world w.
  repeat case_match; simplify_eq/=; done.
Qed.

Lemma dispatchEvent_heap r e w : heap (dispatchEvent r e w) = heap w.
Proof.
  unfold dispatchEvent. destruct (heap w !! r) as [elt|]; [|done].
  generalize (listeners elt). intros ls. revert w.
  induction ls as [|[t l] ls IH]; intros w; [done|].
  cbn [fold_left]. rewrite IH. case_bool_decide; [|done].
  destruct l; cbn [invoke snd].
  - by destruct (handleInput_frame w) as (_ & _ & -> & _).
  - apply handleKeydown_heap.
Qed.

Lemma setValue_listenersKept a val w : listenersKept w (setValue a val w).
Proof.
  unfold setValue. eapply listenersKept_trans; [|apply listenersKept_heap, dispatchEvent_heap].
  eapply listenersKept_trans; [|by apply listenersKept_heap].
  apply updateElement_listenersKept. intros e. destruct (kind a); apply incl_refl.
Qed.

Lemma restoreDraftCallback_listenersKept k r w : listenersKept w (restoreDraftCallback k r w).
Proof.
  unfold restoreDraftCallback. repeat case_match; try apply listenersKept_refl.
  eapply listenersKept_trans; [apply setValue_listenersKept | by apply listenersKept_heap].
Qed.

Lemma observeDOM_listenersKept w : listenersKept w (observeDOM w).
Proof.
  unfold observeDOM. repeat case_match; try apply listenersKept_refl;
    try (by apply listenersKept_heap).
  unfold bindSubmit, bindInput.
  eapply listenersKept_trans;
    [|apply updateElement_listenersKept; intros e; apply incl_appl, incl_refl].
  eapply listenersKept_trans;
    [|apply updateElement_listenersKept; intros e; apply incl_appl, incl_refl].
  by apply listenersKept_heap.
Qed.

Lemma observeURL_heap w : heap (observeURL w) = heap w.
Proof. unfold observeURL. by case_bool_decide. Qed.

Lemma runTimer_heap cb w : heap (runTimer cb w) = heap w.
Proof.
  destruct cb; cbn [runTimer]; try done.
  - unfold saveDraft. by repeat case_match.
  - unfold clickSettle. by repeat case_match.
Qed.

Lemma step_listenersKept ev w : listenersKept w (step ev w).
Proof.
  destruct ev; cbn [step].
  - eapply listenersKept_trans; [|apply listenersKept_heap, observeURL_heap].
    destruct underBody; [apply observeDOM_listenersKept | apply listenersKept_refl].
  - apply listenersKept_heap, dispatchEvent_heap.
  - apply listenersKept_heap, dispatchEvent_heap.
  - apply listenersKept_heap. by case_match.
  - apply listenersKept_heap. unfold fireTimer. repeat case_match; try done.
    by rewrite runTimer_heap.
  - destruct (pendingGets w); [apply listenersKept_refl|].
    eapply listenersKept_trans; [|apply restoreDraftCallback_listenersKept].
    by apply listenersKept_heap.
  - apply listenersKept_heap. by case_match.
  - apply updateElement_listenersKept. intros e. apply incl_refl.
  - intros r elt Hr. exists elt. simpl. split; [|apply incl_refl].
    by apply lookup_app_l_Some.
  - by apply listenersKept_heap.
  - by apply listenersKept_heap.
Qed.

(** *** The click listener and navigation *)

Lemma step_keeps_click_listener ev w :
  globalClickListenerAttached (manager (step ev w)) = globalClickListenerAttached (manager w).
Proof.
  destruct ev as [b| | | | | | | | | |];
    try (by apply (step_sameBinding _ w); intros b').
  cbn [step].
  assert (Hurl : forall w0, globalClickListenerAttached (manager (observeURL w0))
                            = globalClickListenerAttached (manager w0)).
  { intros w0. unfold observeURL. by case_bool_decide. }
  rewrite Hurl. destruct b; [|done].
  unfold observeDOM. repeat case_match; try done.
  unfold bindSubmit, bindInput, updateElement. repeat case_match; done.
Qed.

Lemma reachable_click_listener w :
  reachable w -> globalClickListenerAttached (manager w) = true.
Proof. induction 1; [done | by rewrite step_keeps_click_listener]. Qed.

Lemma step_keeps_cleared ev w :
  ev <> Mutation true ->
  currentInput (manager w) = None -> currentInput (manager (step ev w)) = None.
Proof.
  intros Hev Hc. destruct ev as [[|]| | | | | | | | | |].
  1: done.
  1: cbn [step]; by apply observeURL_keeps_cleared.
  all: match goal with
       | |- currentInput (manager (step ?ev ?w0)) = None =>
           destruct (step_sameBinding ev w0) as (H & _); [by intros b'|]; by rewrite H
       end.
Qed.

Lemma run_keeps_cleared evs w :
  Forall (fun ev => ev <> Mutation true) evs ->
  currentInput (manager w) = None -> currentInput (manager (run evs w)) = None.
Proof.
  unfold run. intros Hall. revert w. induction Hall as [|ev evs Hev _ IH]; intros w Hc; [done|].
  cbn [fold_left]. by apply IH, step_keeps_cleared.
Qed.

(** *** The guard and the debounced save *)

Lemma guardClean_transfer w w' :
  timers w' = timers w -> isSubmitting (manager w') = isSubmitting (manager w) ->
  guardClean w -> guardClean w'.
Proof. intros Ht Hs H. unfold guardClean. rewrite Ht, Hs. exact H. Qed.

Lemma guardClean_setTimeout cb delay w :
  isSaveTimer (mkTimer 0 0 cb) = false -> guardClean w ->
  guardClean (snd (setTimeout cb delay w)).
Proof.
  intros Hcb H Hs t. simpl. rewrite in_app_iff. intros [Hin|[<-|[]]]; [by apply H | done].
Qed.

Lemma guardClean_removeTimer id w : guardClean w -> guardClean (removeTimer id w).
Proof. intros H Hs t. simpl. rewrite filter_In. intros [Hin _]. by apply H. Qed.

Lemma guardClean_handleInput w : guardClean w -> guardClean (handleInput w).
Proof.
  intros H. unfold handleInput. destruct (isSubmitting (manager w)) eqn:E; [done|].
  intros Hs. exfalso. revert Hs.
  destruct (typingTimer (manager w)); cbn [clearTimeout]; simpl;
    destruct (adapter (manager w)); simpl; congruence.
Qed.

Lemma guardClean_handleKeydown e w : timersOk w -> guardClean w -> guardClean (handleKeydown e w).
Proof.
  intros Hok H. destruct (isSubmitKey_dec e) as [Hs|Hn]; [|by rewrite handleKeydown_other].
  destruct (handleKeydown_cancels e w Hs Hok) as [Hno _].
  intros _ t Hin. rewrite Forall_forall in Hno. apply Hno. by apply list_elem_of_In.
Qed.

Lemma dispatchEvent_guardClean r e w :
  timersOk w -> guardClean w -> guardClean (dispatchEvent r e w).
Proof.
  unfold dispatchEvent. destruct (heap w !! r) as [elt|]; [|done].
  generalize (listeners elt). intros ls. revert w.
  induction ls as [|[t l] ls IH]; intros w Hok H; [done|].
  cbn [fold_left]. case_bool_decide; [|by apply IH]. cbn [snd].
  apply IH; [by apply invoke_timersOk|].
  destruct l; [by apply guardClean_handleInput | by apply guardClean_handleKeydown].
Qed.

Lemma restoreDraftCallback_guardClean k r w :
  timersOk w -> guardClean w -> guardClean (restoreDraftCallback k r w).
Proof.
  intros Hok H. unfold restoreDraftCallback. repeat case_match; try done.
  unfold Utils.showToast. apply guardClean_setTimeout; [done|].
  eapply guardClean_transfer; [done | done |].
  unfold setValue. apply dispatchEvent_guardClean.
  - eapply timersOk_transfer; [..|by apply updateElement_timersOk]; done.
  - eapply guardClean_transfer; [| |exact H]; unfold updateElement; by case_match.
Qed.

Lemma runTimer_guardClean cb w : guardClean w -> guardClean (runTimer cb w).
Proof.
  intros H. destruct cb; cbn [runTimer].
  - destruct (isSubmitting (manager w)) eqn:E; [done|].
    intros Hs. exfalso. revert Hs. unfold saveDraft. destruct (isBlank text); simpl; congruence.
  - intros Hs. discriminate.
  - eapply guardClean_transfer; [| |exact H]; unfold clickSettle; by repeat case_match.
  - by apply guardClean_setTimeout.
  - done.
Qed.

Lemma observeURL_guard w : isSubmitting (manager (observeURL w)) = isSubmitting (manager w).
Proof. unfold observeURL. by case_bool_decide. Qed.

Lemma step_guardClean ev w : timersOk w -> guardClean w -> guardClean (step ev w).
Proof.
  intros Hok H. destruct ev; cbn [step].
  - destruct (observeURL_timers (if underBody then observeDOM w else w)) as (H1 & _).
    eapply guardClean_transfer; [exact H1 | apply observeURL_guard |].
    destruct underBody; [|done].
    destruct (observeDOM_timers w) as (H4 & _ & _ & H7 & _).
    by eapply guardClean_transfer.
  - by apply dispatchEvent_guardClean.
  - by apply dispatchEvent_guardClean.
  - destruct (globalClickListenerAttached (manager w)); [|done].
    by apply guardClean_setTimeout.
  - unfold fireTimer. repeat case_match; try done.
    by apply runTimer_guardClean, guardClean_removeTimer.
  - destruct (pendingGets w); [done|].
    apply restoreDraftCallback_guardClean; [by eapply timersOk_transfer|].
    by eapply guardClean_transfer.
  - case_match; [|done]. by eapply guardClean_transfer.
  - eapply guardClean_transfer; [| |exact H]; unfold updateElement; by case_match.
  - by eapply guardClean_transfer.
  - by eapply guardClean_transfer.
  - by eapply guardClean_transfer.
Qed.

Lemma reachable_guardClean w : reachable w -> guardClean w.
Proof.
  induction 1 as [l els doc store|ev w Hr IH].
  - intros Hs. discriminate.
  - apply step_guardClean; [by apply reachable_timersOk | done].
Qed.

(** *** Events on any element that carries a listener *)

Lemma getValue_heap a w w' : heap w' = heap w -> getValue a w' = getValue a w.
Proof. intros H. unfold getValue. by rewrite H. Qed.

Lemma handleInput_arms a w :
  isSubmitting (manager w) = false -> adapter (manager w) = Some a ->
  typingTimer (manager (handleInput w)) = Some (nextTimerId w)
  /\ In (mkTimer (nextTimerId w) (clock w + CONFIG.DEBOUNCE_MS) (SaveDraftCb (getValue a w)))
        (timers (handleInput w))
  /\ nextTimerId (handleInput w) = S (nextTimerId w).
Proof.
  intros Hs Ha. unfold handleInput. rewrite Hs.
  destruct (typingTimer (manager w)) as [i|]; cbn [clearTimeout]; simpl; rewrite Ha; simpl.
  - split; [done|]. split; [|done]. apply in_app_iff. right. left. done.
  - split; [done|]. split; [|done]. apply in_app_iff. right. left. done.
Qed.

Lemma dispatch_input_arms r a w :
  hasListener r EvtInput HandleInput w ->
  isSubmitting (manager w) = false -> adapter (manager w) = Some a ->
  saveArmed a (nextTimerId w) (getValue a w) (clock w + CONFIG.DEBOUNCE_MS)
    (dispatchEvent r (mkDomEvent EvtInput None false) w).
Proof.
  intros (elt & Hel & Hin) Hs Ha. unfold dispatchEvent. rewrite Hel. clear Hel.
  set (e := mkDomEvent EvtInput None false).
  set (n0 := nextTimerId w). set (text := getValue a w). set (due0 := clock w + CONFIG.DEBOUNCE_MS).
  assert (Hgen : forall ls w0,
    isSubmitting (manager w0) = false -> adapter (manager w0) = Some a ->
    heap w0 = heap w -> clock w0 = clock w -> (n0 <= nextTimerId w0)%nat ->
    let w' := fold_left (fun acc tl => if bool_decide (tl.1 = evType e)
                                       then invoke tl.2 e acc else acc) ls w0 in
    (saveArmed a n0 text due0 w0 -> saveArmed a n0 text due0 w')
    /\ (In (EvtInput, HandleInput) ls -> saveArmed a n0 text due0 w')).
  { induction ls as [|[ty l] ls IH]; intros w0 Hs0 Ha0 Hh0 Hc0 Hn0; cbn [fold_left].
    - split; [done | intros []].
    - set (w1 := if bool_decide ((ty, l).1 = evType e) then invoke (ty, l).2 e w0 else w0).
      assert (Hrun : forall w2, isSubmitting (manager w2) = false -> adapter (manager w2) = Some a ->
                heap w2 = heap w -> clock w2 = clock w -> (n0 <= nextTimerId w2)%nat ->
                let w3 := handleInput w2 in
                isSubmitting (manager w3) = false /\ adapter (manager w3) = Some a
                /\ heap w3 = heap w /\ clock w3 = clock w /\ (n0 <= nextTimerId w3)%nat
                /\ saveArmed a n0 text due0 w3).
      { intros w2 Hs2 Ha2 Hh2 Hc2 Hn2 w3. subst w3.
        destruct (handleInput_frame w2)
          as (_ & _ & Hh & Hsub & Had & _ & _ & _ & _ & _ & Hck).
        destruct (handleInput_arms a w2 Hs2 Ha2) as (Hty & Hti & Hnx).
        rewrite Hsub, Had, Hh, Hck, Hnx. do 5 (split; [done || lia|]).
        exists (nextTimerId w2). split; [done|]. split; [done|].
        subst text due0. rewrite <- (getValue_heap a w w2 Hh2), <- Hc2. exact Hti. }
      assert (H1 : isSubmitting (manager w1) = false /\ adapter (manager w1) = Some a
                   /\ heap w1 = heap w /\ clock w1 = clock w /\ (n0 <= nextTimerId w1)%nat
                   /\ (saveArmed a n0 text due0 w0 -> saveArmed a n0 text due0 w1)
                   /\ ((ty, l) = (EvtInput, HandleInput) -> saveArmed a n0 text due0 w1)).
      { subst w1. case_bool_decide as Hty; cbn [fst snd] in *.
        - destruct l; cbn [invoke].
          + destruct (Hrun w0 Hs0 Ha0 Hh0 Hc0 Hn0) as (? & ? & ? & ? & ? & ?).
            do 5 (split; [done|]). split; done.
          + rewrite handleKeydown_inert by done. do 5 (split; [done|]).
            split; [done|]. intros [=].
        - do 5 (split; [done|]). split; [done|]. intros [= -> ->]. by destruct Hty. }
      destruct H1 as (Hs1 & Ha1 & Hh1 & Hc1 & Hn1 & Hkeep & Hnew).
      destruct (IH w1 Hs1 Ha1 Hh1 Hc1 Hn1) as [IH1 IH2]. split.
      + intros Hq. by apply IH1, Hkeep.
      + intros [Heq|Hin']; [by apply IH1, Hnew | by apply IH2]. }
  apply (Hgen (listeners elt) w Hs Ha eq_refl eq_refl); [subst n0; lia | exact Hin].
Qed.

Lemma observeDOM_unsupported w sel box :
  selectors (hostname (location w)) = Some sel ->
  querySelector sel w = Some box ->
  currentInput (manager w) <> Some box ->
  AdapterFactory.create box w = None ->
  observeDOM w = update_manager (set_adapter None) (update_manager (set_currentInput (Some box)) w).
Proof.
  intros Hsel Hq Hne Ha. unfold observeDOM. rewrite Hsel, Hq.
  rewrite bool_decide_eq_false_2 by done.
  change (AdapterFactory.create box (update_manager (set_currentInput (Some box)) w))
    with (AdapterFactory.create box w).
  rewrite Ha. done.
Qed.

End Controller.

(** ** The text transform, continued *)

Section TextTransformMore.

Import JS.

Ltac bprop :=
  rewrite ?orb_true_iff, ?andb_true_iff, ?negb_true_iff, ?orb_false_iff,
    ?andb_false_iff, ?negb_false_iff, ?Z.leb_le, ?Z.ltb_lt, ?Z.eqb_eq, ?Z.leb_gt,
    ?Z.ltb_ge, ?Z.eqb_neq.
Ltac bprop_in H :=
  rewrite ?orb_true_iff, ?andb_true_iff, ?negb_true_iff, ?orb_false_iff,
    ?andb_false_iff, ?negb_false_iff, ?Z.leb_le, ?Z.ltb_lt, ?Z.eqb_eq, ?Z.leb_gt,
    ?Z.ltb_ge, ?Z.eqb_neq in H.

(** *** Blank texts *)

Lemma trimStart_nil s : trimStart s = [] <-> forallb isWhiteSpace s = true.
Proof.
  induction s as [|c s IH]; [done|]. cbn [trimStart forallb].
  destruct (isWhiteSpace c); [exact IH | split; discriminate].
Qed.

Lemma trimStart_head s c t : trimStart s = c :: t -> isWhiteSpace c = false.
Proof.
  induction s as [|d s IH]; [discriminate|]. cbn [trimStart].
  destruct (isWhiteSpace d) eqn:E; [exact IH | intros [= <- _]; exact E].
Qed.

Lemma trim_nil s : trim s = [] <-> forallb isWhiteSpace s = true.
Proof.
  rewrite <- trimStart_nil. unfold trim. split.
  - intros H. apply (f_equal (@rev Z)) in H. rewrite rev_involutive in H. cbn [rev] in H.
    apply trimStart_nil in H.
    destruct (trimStart s) as [|c t] eqn:E; [done|].
    pose proof (trimStart_head s c t E) as Hc.
    rewrite forallb_forall in H. rewrite (H c) in Hc; [discriminate|].
    apply in_rev. rewrite rev_involutive. by left.
  - intros ->. done.
Qed.

(** *** The encoding is never empty *)

Lemma pctOctets_nonempty cp : pctOctets cp <> [].
Proof.
  unfold pctOctets, utf8Octets. repeat case_match; discriminate.
Qed.

Lemma encode_nonempty u c s e : encode u (c :: s) = Some e -> e <> [].
Proof.
  cbn [encode]. intros H.
  repeat (case_match; simplify_option_eq; try discriminate);
    try match goal with |- ?p ++ _ <> [] =>
      let Hn := fresh in intros Hn; apply app_eq_nil in Hn as [Hn _]; by apply pctOctets_nonempty in Hn
    end.
Qed.

Lemma unescape_nonempty c s : unescape (c :: s) <> [].
Proof. unfold unescape. cbn [unescapeFrom]. repeat case_match; discriminate. Qed.

Lemma encodeOctets_nonempty a l : encodeOctets (a :: l) <> [].
Proof. destruct l as [|b [|c0 l0]]; discriminate. Qed.

Lemma obfuscate_nonempty text : text <> [] -> Utils.obfuscate text <> [].
Proof.
  intros Ht. unfold Utils.obfuscate.
  destruct (encodeURIComponent text) as [e|] eqn:He; cbn [mbind option_bind]; [|done].
  destruct text as [|c s]; [done|].
  apply encode_nonempty in He.
  destruct e as [|c' e']; [done|].
  destruct (unescape (c' :: e')) as [|a0 l0] eqn:Hu; [by apply unescape_nonempty in Hu|].
  unfold btoa. destruct (forallb _ _); [apply encodeOctets_nonempty | done].
Qed.

(** *** What the encoding of a well-formed text looks like *)

Lemma obfuscate_wellFormed s :
  isWellFormed s = true -> Utils.obfuscate s = encodeOctets (toUtf8 s).
Proof.
  intros Hwf. unfold Utils.obfuscate.
  destruct (unescape_encodeURIComponent s Hwf) as (e & -> & Hu).
  cbn [mbind option_bind]. rewrite Hu. by rewrite btoa_octets by (by apply toUtf8_octets).
Qed.

(** *** What [deobfuscate] rejects *)

Lemma stripPadding_keeps c l : In c l -> c <> 61 -> In c (stripPadding l).
Proof.
  intros Hin Hc. unfold stripPadding. case_match; [|done].
  destruct (rev l) as [|a r] eqn:Hr; [done|].
  destruct (Z.eqb_spec a 61) as [->|]; [|done].
  assert (Hin' : In c r).
  { apply in_rev in Hin. rewrite Hr in Hin. destruct Hin as [<-|]; [done|done]. }
  destruct r as [|b r']; [done|].
  destruct (Z.eqb_spec b 61) as [->|].
  - apply in_rev. rewrite rev_involutive. destruct Hin' as [<-|]; done.
  - apply in_rev. by rewrite rev_involutive.
Qed.

Lemma atob_rejects s c : In c s -> notBase64 c -> atob s = None.
Proof.
  intros Hin (Hw & Hb & Hc). unfold atob. cbv zeta.
  set (data := stripPadding (List.filter (fun c => negb (isAsciiWhitespace c)) s)).
  assert (Hd : In c data).
  { apply stripPadding_keeps; [|done]. apply filter_In. by rewrite Hw. }
  case_match; [done|].
  destruct (mapM base64Index data) as [sx|] eqn:Hm; [|done].
  exfalso. assert (His : is_Some (mapM base64Index data)) by (by rewrite Hm).
  apply mapM_is_Some in His. rewrite Forall_forall in His.
  apply list_elem_of_In in Hd. destruct (His c Hd) as [x Hx]. simpl in Hx. congruence.
Qed.

Lemma deobfuscate_rejects s c : In c s -> notBase64 c -> Utils.deobfuscate s = [].
Proof. intros Hin Hc. unfold Utils.deobfuscate. by rewrite (atob_rejects s c Hin Hc). Qed.

(** *** Texts with an unpaired surrogate *)

Lemma surrogate_notBase64 c : isSurrogate c = true -> notBase64 c.
Proof.
  unfold isSurrogate, notBase64, isAsciiWhitespace, base64Index, isDigit, inRange.
  intros H. bprop_in H. split; [bprop; lia|]. split; [|lia].
  repeat (case_match; [match goal with Hx : _ = true |- _ => bprop_in Hx; lia end|]).
  done.
Qed.

Lemma no_surrogate_wellFormed s :
  Forall isCodeUnit s -> existsb isSurrogate s = false -> isWellFormed s = true.
Proof.
  induction 1 as [|c s Hc _ IH]; [done|]. cbn [existsb isWellFormed].
  intros H. apply orb_false_iff in H as [Hs Hrest].
  unfold isCodeUnit in Hc. unfold isSurrogate, isLeadSurrogate, isTrailSurrogate, inRange in *.
  bprop_in Hs.
  assert ((55296 <=? c) && (c <=? 56319) = false) as -> by (bprop; lia).
  assert ((56320 <=? c) && (c <=? 57343) = false) as -> by (bprop; lia).
  rewrite IH by done. cbn. bprop. lia.
Qed.

Lemma encode_wellFormed n : forall s,
  (length s <= n)%nat -> Forall isCodeUnit s ->
  isWellFormed s = false -> encodeURIComponent s = None.
Proof.
  unfold encodeURIComponent.
  induction n as [|n IH]; intros s Hlen Hall Hwf.
  - destruct s; [discriminate | simpl in Hlen; lia].
  - destruct s as [|c s1]; [discriminate|].
    inversion Hall as [|? ? Hc Hall1]; subst. unfold isCodeUnit in Hc.
    cbn [isWellFormed] in Hwf. cbn [encode].
    assert (Hr : inRange 0 65535 c = true) by (unfold inRange; bprop; lia).
    rewrite Hr in Hwf. cbn [andb] in Hwf.
    destruct (uriUnescaped c) eqn:Eu.
    + apply uriUnescaped_ascii in Eu as [Ha _].
      assert (isLeadSurrogate c = false) as Hl
        by (unfold isLeadSurrogate, inRange; bprop; lia).
      assert (isTrailSurrogate c = false) as Ht
        by (unfold isTrailSurrogate, inRange; bprop; lia).
      rewrite Hl, Ht in Hwf. cbn in Hwf.
      rewrite IH; [done| simpl in Hlen; lia | done | done].
    + destruct (isTrailSurrogate c) eqn:Et; [done|].
      destruct (isLeadSurrogate c) eqn:El.
      * destruct s1 as [|d s2]; [done|].
        destruct (isTrailSurrogate d) eqn:Etd; [|done]. cbn in Hwf.
        inversion Hall1; subst.
        rewrite IH; [done| simpl in Hlen; lia | done | done].
      * cbn in Hwf. rewrite IH; [done| simpl in Hlen; lia | done | done].
Qed.

End TextTransformMore.

(** ** The controller, continued *)

Section ControllerMore.

(** *** The storage key *)

Lemma split_at_slash h1 h2 p1 p2 :
  isHostname h1 -> isHostname h2 ->
  h1 ++ 47 :: p1 = h2 ++ 47 :: p2 -> h1 = h2 /\ p1 = p2.
Proof.
  intros H1. revert h2. induction H1 as [|c h1 Hc _ IH]; intros h2 H2 Heq.
  - destruct H2 as [|d h2 Hd _]; cbn in Heq.
    + injection Heq as ->. done.
    + injection Heq as Hd' _. congruence.
  - destruct H2 as [|d h2 Hd H2]; cbn in Heq.
    + injection Heq as Hc' _. congruence.
    + injection Heq as -> Heq. destruct (IH h2 H2 Heq) as [-> ->]. done.
Qed.

(** *** A second pass of the DOM observer *)

Lemma querySelector_ext sel w w' :
  document w' = document w ->
  (forall r, match heap w' !! r with Some e => matchesSelector sel e | None => false end
             = match heap w !! r with Some e => matchesSelector sel e | None => false end) ->
  querySelector sel w' = querySelector sel w.
Proof.
  intros Hd Hh. unfold querySelector. rewrite Hd. clear Hd.
  induction (document w) as [|r d IH]; [done|]. cbn [List.find]. by rewrite Hh, IH.
Qed.

(** *** Distinct timer ids *)

Lemma timersTidy_transfer w w' :
  timers w' = timers w -> nextTimerId w' = nextTimerId w ->
  typingTimer (manager w') = typingTimer (manager w) -> timersTidy w -> timersTidy w'.
Proof. intros Ht Hn Hy [H1 H2]. split; [by rewrite Ht | by rewrite Hy, Hn]. Qed.

Lemma timersTidy_setTimeout cb delay w :
  idsFresh w -> timersTidy w -> timersTidy (snd (setTimeout cb delay w)).
Proof.
  intros Hf [H1 H2]. split; simpl.
  - rewrite map_app. apply NoDup_app. split; [done|]. split; [|apply NoDup_singleton].
    intros i Hi Hi'. apply list_elem_of_In, in_map_iff in Hi as (t & <- & Hin).
    apply list_elem_of_In in Hi'. destruct Hi' as [Heq|[]]. simpl in Heq.
    specialize (Hf t Hin). lia.
  - intros i Hi. specialize (H2 i Hi). lia.
Qed.

Lemma NoDup_map_filter {A B} (f : A -> B) (p : A -> bool) (l : list A) :
  NoDup (map f l) -> NoDup (map f (List.filter p l)).
Proof.
  induction l as [|x l IH]; [done|]. cbn [map List.filter]. intros H.
  apply NoDup_cons in H as [Hx Hl]. destruct (p x); [|by apply IH].
  cbn [map]. apply NoDup_cons. split; [|by apply IH].
  intros Hin. apply Hx. apply list_elem_of_In, in_map_iff in Hin as (y & Hy & Hin).
  apply filter_In in Hin as [Hin _]. apply list_elem_of_In, in_map_iff. eauto.
Qed.

Lemma timersTidy_removeTimer id w : timersTidy w -> timersTidy (removeTimer id w).
Proof. intros [H1 H2]. split; [by apply NoDup_map_filter | done]. Qed.

Lemma clearTimeout_fresh i w : idsFresh w -> idsFresh (clearTimeout i w).
Proof.
  intros H. destruct i; [|done]. intros t. simpl. rewrite filter_In. intros [Hin _]. by apply H.
Qed.

Lemma timersTidy_clearTimeout i w : timersTidy w -> timersTidy (clearTimeout i w).
Proof. destruct i; [apply timersTidy_removeTimer | done]. Qed.

Lemma timersTidy_handleInput w : idsFresh w -> timersTidy w -> timersTidy (handleInput w).
Proof.
  intros Hf Ht. unfold handleInput. destruct (isSubmitting (manager w)); [done|].
  pose proof (clearTimeout_fresh (typingTimer (manager w)) w Hf) as Hf1.
  pose proof (timersTidy_clearTimeout (typingTimer (manager w)) w Ht) as Ht1.
  set (w1 := clearTimeout (typingTimer (manager w)) w) in *.
  destruct (adapter (manager w1)) as [a|]; [|done].
  destruct (timersTidy_setTimeout (SaveDraftCb (getValue a w1)) CONFIG.DEBOUNCE_MS w1 Hf1 Ht1)
    as [H1 _].
  split; [exact H1|]. simpl. intros i [= <-]. lia.
Qed.

Lemma timersTidy_handleKeydown e w : idsFresh w -> timersTidy w -> timersTidy (handleKeydown e w).
Proof.
  intros Hf Ht. destruct (isSubmitKey_dec e) as [Hs|Hn]; [|by rewrite handleKeydown_other].
  rewrite handleKeydown_submit by done.
  apply timersTidy_setTimeout.
  - intros t Hin.
    pose proof (clearTimeout_fresh (typingTimer (manager w)) w Hf t) as H.
    destruct (typingTimer (manager w)); apply H, Hin.
  - apply timersTidy_transfer with (w := clearTimeout (typingTimer (manager w)) w);
      [by destruct (typingTimer (manager w))..|].
    by apply timersTidy_clearTimeout.
Qed.

Lemma dispatchEvent_timersTidy r e w :
  timersOk w -> timersTidy w -> timersTidy (dispatchEvent r e w).
Proof.
  unfold dispatchEvent. destruct (heap w !! r) as [elt|]; [|done].
  generalize (listeners elt). intros ls. revert w.
  induction ls as [|[t l] ls IH]; intros w Hok Ht; [done|].
  cbn [fold_left]. case_bool_decide; [|by apply IH]. cbn [snd].
  apply IH; [by apply invoke_timersOk|].
  destruct l; [apply timersTidy_handleInput | apply timersTidy_handleKeydown];
    done || apply Hok.
Qed.

Lemma restoreDraftCallback_timersTidy k r w :
  timersOk w -> timersTidy w -> timersTidy (restoreDraftCallback k r w).
Proof.
  intros Hok Ht. unfold restoreDraftCallback. repeat case_match; try done.
  unfold Utils.showToast.
  match goal with |- context [setValue ?a ?v w] => set (w1 := setValue a v w) end.
  assert (Hok1 : timersOk w1) by (by apply setValue_timersOk).
  assert (Ht1 : timersTidy w1).
  { unfold w1, setValue.
    match goal with |- context [updateElement ?r ?f w] => set (w0 := updateElement r f w) end.
    apply dispatchEvent_timersTidy.
    - apply timersOk_transfer with (w := w0); [done..|]. by apply updateElement_timersOk.
    - apply timersTidy_transfer with (w := w); [| | |exact Ht];
        unfold w0, updateElement; by case_match. }
  apply timersTidy_setTimeout.
  - intros t Hin. by apply (proj2 Hok1).
  - by eapply timersTidy_transfer.
Qed.

Lemma runTimer_timersTidy cb w : idsFresh w -> timersTidy w -> timersTidy (runTimer cb w).
Proof.
  intros Hf Ht. destruct cb; cbn [runTimer].
  - destruct (isSubmitting (manager w)); [done|].
    eapply timersTidy_transfer; [..|exact Ht]; unfold saveDraft; by destruct (isBlank text).
  - eapply timersTidy_transfer; [..|exact Ht]; done.
  - eapply timersTidy_transfer; [..|exact Ht]; unfold clickSettle; by repeat case_match.
  - by apply timersTidy_setTimeout.
  - done.
Qed.

Lemma step_timersTidy ev w : timersOk w -> timersTidy w -> timersTidy (step ev w).
Proof.
  intros Hok Ht. destruct ev; cbn [step].
  - destruct (observeURL_timers (if underBody then observeDOM w else w)) as (H1 & H2 & H3).
    eapply timersTidy_transfer; [exact H1|exact H2|exact H3|].
    destruct underBody; [|done].
    destruct (observeDOM_timers w) as (H4 & H5 & H6 & _).
    by eapply timersTidy_transfer.
  - by apply dispatchEvent_timersTidy.
  - by apply dispatchEvent_timersTidy.
  - destruct (globalClickListenerAttached (manager w)); [|done].
    apply timersTidy_setTimeout; [apply Hok | done].
  - unfold fireTimer. repeat case_match; try done.
    apply runTimer_timersTidy; [|by apply timersTidy_removeTimer].
    by apply (proj2 (timersOk_removeTimer id w Hok)).
  - destruct (pendingGets w); [done|].
    apply restoreDraftCallback_timersTidy; [by eapply timersOk_transfer|].
    by eapply timersTidy_transfer.
  - case_match; [|done]. by eapply timersTidy_transfer.
  - eapply timersTidy_transfer; [| | |exact Ht]; unfold updateElement; by case_match.
  - by eapply timersTidy_transfer.
  - by eapply timersTidy_transfer.
  - by eapply timersTidy_transfer.
Qed.

Lemma reachable_timersTidy w : reachable w -> timersTidy w.
Proof.
  induction 1 as [l els doc store|ev w Hr IH].
  - split; [apply NoDup_nil_2 | intros i [=]].
  - apply step_timersTidy; [by apply reachable_timersOk | done].
Qed.

Lemma same_id_at_most_one (l : list Timer) i :
  NoDup (map timerId l) -> (forall t, In t l -> timerId t = i) -> (length l <= 1)%nat.
Proof.
  destruct l as [|x [|y l]]; [simpl; lia | simpl; lia |].
  intros Hnd Hall. exfalso. cbn [map] in Hnd.
  apply NoDup_cons in Hnd as [Hx _]. apply Hx.
  rewrite (Hall x), <- (Hall y); [|right; by left | by left]. by left.
Qed.

(** *** One run of [handleInput], and the save it arms *)

Lemma handleInput_result a w :
  isSubmitting (manager w) = false -> adapter (manager w) = Some a ->
  handleInput w =
    update_manager (set_typingTimer (Some (nextTimerId w)))
      (snd (setTimeout (SaveDraftCb (getValue a w)) CONFIG.DEBOUNCE_MS
              (clearTimeout (typingTimer (manager w)) w))).
Proof.
  intros Hs Ha. unfold handleInput. rewrite Hs.
  destruct (typingTimer (manager w)); cbn [clearTimeout]; simpl; by rewrite Ha.
Qed.

Lemma find_fresh l1 l2 x :
  (forall t, In t l1 -> timerId t <> timerId x) ->
  List.find (timerIs (timerId x)) (l1 ++ x :: l2) = Some x.
Proof.
  intros H. induction l1 as [|t l1 IH]; cbn [app List.find].
  - unfold timerIs. by rewrite Nat.eqb_refl.
  - unfold timerIs at 1. destruct (Nat.eqb_spec (timerId t) (timerId x)) as [Heq|_].
    + destruct (H t); [by left | done].
    + apply IH. intros t' Hin. apply H. by right.
Qed.

Lemma clearTimeout_no_saves w :
  savesTracked w ->
  forall t, In t (timers (clearTimeout (typingTimer (manager w)) w)) -> isSaveTimer t = false.
Proof.
  intros Hs t. destruct (typingTimer (manager w)) as [i|] eqn:Ety; cbn [clearTimeout].
  - simpl. rewrite filter_In. intros [Hin Hne]. destruct (isSaveTimer t) eqn:E; [|done].
    specialize (Hs t Hin E). rewrite Ety in Hs. injection Hs as ->.
    unfold timerIs in Hne. by rewrite Nat.eqb_refl in Hne.
  - intros Hin. destruct (isSaveTimer t) eqn:E; [|done]. specialize (Hs t Hin E). congruence.
Qed.

(** *** The timers after a key *)

Lemma handleKeydown_timers e w :
  isSubmitKey e ->
  let w' := handleKeydown e w in
  timers w' = timers (clearTimeout (typingTimer (manager w)) w)
              ++ [mkTimer (nextTimerId w) (clock w + 2000) ReleaseGuardCb]
  /\ typingTimer (manager w') = typingTimer (manager w)
  /\ nextTimerId w' = S (nextTimerId w) /\ clock w' = clock w
  /\ isSubmitting (manager w') = true.
Proof.
  intros He. cbv zeta. rewrite handleKeydown_submit by done.
  destruct (typingTimer (manager w)) eqn:E; simpl; rewrite ?E; done.
Qed.

(** *** Only the record of the current page is written *)

Lemma keepsKey_refl k w : keepsKey k w w.
Proof. by split. Qed.

Lemma keepsKey_trans k w1 w2 w3 : keepsKey k w1 w2 -> keepsKey k w2 w3 -> keepsKey k w1 w3.
Proof. unfold keepsKey. intros [-> ->] [-> ->]. done. Qed.

Lemma keepsKey_same k w w' : location w' = location w -> storage w' = storage w -> keepsKey k w w'.
Proof. intros Hl Hs. split; [done | by rewrite Hs]. Qed.

Lemma handleSendSuccess_keepsKey k w :
  k <> Utils.getStorageKey w -> keepsKey k w (handleSendSuccess w).
Proof. intros Hk. split; [done|]. simpl. by rewrite lookup_delete_ne. Qed.

Lemma saveDraft_keepsKey k text w :
  k <> Utils.getStorageKey w -> keepsKey k w (saveDraft text w).
Proof.
  intros Hk. unfold saveDraft. destruct (isBlank text); split; try done; simpl.
  - by rewrite lookup_delete_ne.
  - by rewrite lookup_insert_ne.
Qed.

Lemma handleKeydown_keepsKey k e w :
  k <> Utils.getStorageKey w -> keepsKey k w (handleKeydown e w).
Proof.
  intros Hk. destruct (isSubmitKey_dec e) as [Hs|Hn];
    [|rewrite handleKeydown_other by done; apply keepsKey_refl].
  rewrite handleKeydown_submit by done.
  destruct (typingTimer (manager w)); split; try done; simpl; by rewrite lookup_delete_ne.
Qed.

Lemma handleInput_keepsKey k w : keepsKey k w (handleInput w).
Proof.
  destruct (handleInput_frame w) as (Hs & _ & _ & _ & _ & _ & Hl & _). by apply keepsKey_same.
Qed.

Lemma dispatchEvent_keepsKey k r e w :
  k <> Utils.getStorageKey w -> keepsKey k w (dispatchEvent r e w).
Proof.
  unfold dispatchEvent. destruct (heap w !! r) as [elt|]; [|intros; apply keepsKey_refl].
  generalize (listeners elt). intros ls. revert w.
  induction ls as [|[t l] ls IH]; intros w Hk; [apply keepsKey_refl|].
  cbn [fold_left].
  set (w1 := if bool_decide ((t, l).1 = evType e) then invoke (t, l).2 e w else w).
  assert (H1 : keepsKey k w w1).
  { subst w1. case_bool_decide; [|apply keepsKey_refl]. cbn [snd].
    destruct l; [apply handleInput_keepsKey | by apply handleKeydown_keepsKey]. }
  eapply keepsKey_trans; [exact H1|]. apply IH.
  unfold Utils.getStorageKey in *. by rewrite (proj1 H1).
Qed.

Lemma runTimer_keepsKey k cb w : k <> Utils.getStorageKey w -> keepsKey k w (runTimer cb w).
Proof.
  intros Hk. destruct cb; cbn [runTimer]; try apply keepsKey_refl; try (by apply keepsKey_same).
  - destruct (isSubmitting (manager w)); [apply keepsKey_refl | by apply saveDraft_keepsKey].
  - unfold clickSettle. repeat case_match; try apply keepsKey_refl.
    by apply handleSendSuccess_keepsKey.
Qed.

Lemma observeURL_storage w :
  storage (observeURL w) = storage w /\ location (observeURL w) = location w.
Proof. unfold observeURL. by case_bool_decide. Qed.

(** *** Texts that are not empty *)

Lemma truthy_nonempty s : s <> [] -> truthy s = true.
Proof. by destruct s. Qed.

Lemma trim_nonempty s : JS.trim s <> [] -> s <> [].
Proof. intros H ->. by apply H. Qed.

(** *** The adapter in use is bound *)

Lemma hasListener_kept r t l w w' :
  listenersKept w w' -> hasListener r t l w -> hasListener r t l w'.
Proof.
  intros Hk (e & He & Hin). destruct (Hk r e He) as (e' & He' & Hincl).
  exists e'. split; [done | by apply Hincl].
Qed.

Lemma adapterBound_transfer w w' :
  listenersKept w w' -> adapter (manager w') = adapter (manager w) ->
  (currentInput (manager w') = currentInput (manager w) \/ currentInput (manager w') = None) ->
  adapterBound w -> adapterBound w'.
Proof.
  intros Hk Ha Hc Hb a Ha'. rewrite Ha in Ha'. destruct (Hb a Ha') as (H1 & H2 & H3).
  split; [by eapply hasListener_kept|]. split; [by eapply hasListener_kept|].
  intros b Hcb. destruct Hc as [Hc|Hc]; rewrite Hc in Hcb; [by apply H3 | done].
Qed.

Lemma observeDOM_adapterBound w : adapterBound w -> adapterBound (observeDOM w).
Proof.
  intros Hb.
  destruct (selectors (hostname (location w))) as [sel|] eqn:Hsel;
    [|unfold observeDOM; by rewrite Hsel].
  destruct (querySelector sel w) as [box|] eqn:Hq;
    [|unfold observeDOM; by rewrite Hsel, Hq].
  destruct (decide (currentInput (manager w) = Some box)) as [Hc|Hc].
  { unfold observeDOM. rewrite Hsel, Hq. by rewrite bool_decide_eq_true_2. }
  destruct (AdapterFactory.create box w) as [a|] eqn:Hcr.
  - destruct (observeDOM_surface_change_result w sel box a Hsel Hq Hc Hcr) as (e & He & ->).
    intros a' Ha'. cbn in Ha'. simplify_eq. rewrite (create_el box w a' Hcr).
    assert (Hlk : <[box := bothListeners e]> (heap w) !! box = Some (bothListeners e)).
    { apply list_lookup_insert_eq. by eapply lookup_lt_Some. }
    split; [|split].
    + exists (bothListeners e). split; [exact Hlk|]. cbn. rewrite !in_app_iff. cbn. tauto.
    + exists (bothListeners e). split; [exact Hlk|]. cbn. rewrite !in_app_iff. cbn. tauto.
    + intros b Hb'. cbn in Hb'. by simplify_eq.
  - rewrite (observeDOM_unsupported w sel box Hsel Hq Hc Hcr). by intros a Ha.
Qed.

Lemma observeURL_adapterBound w : adapterBound w -> adapterBound (observeURL w).
Proof.
  apply adapterBound_transfer.
  - apply listenersKept_heap, observeURL_heap.
  - unfold observeURL. by case_bool_decide.
  - unfold observeURL. case_bool_decide; [by left | by right].
Qed.

Lemma step_adapterBound ev w : adapterBound w -> adapterBound (step ev w).
Proof.
  intros Hb. destruct ev as [b| | | | | | | | | |].
  1: { cbn [step]. apply observeURL_adapterBound.
       destruct b; [by apply observeDOM_adapterBound | done]. }
  all: match goal with |- adapterBound (step ?ev ?w0) =>
         assert (Hs : sameBinding w0 (step ev w0)) by (by apply step_sameBinding);
         destruct Hs as (Hc & Ha & _);
         exact (adapterBound_transfer w0 (step ev w0) (step_listenersKept ev w0) Ha
                  (or_introl Hc) Hb)
       end.
Qed.

Lemma reachable_adapterBound w : reachable w -> adapterBound w.
Proof.
  induction 1 as [l els doc store|ev w _ IH]; [|by apply step_adapterBound].
  by intros a Ha.
Qed.

(** *** Hosts without a selector *)

Lemma dormant_boot l els doc store :
  selectors (hostname l) = None -> dormant (boot l els doc store).
Proof.
  intros Hs. unfold dormant. cbn. do 3 (split; [done|]). split; [|by intros t []].
  intros r e Hr. rewrite list_lookup_fmap in Hr.
  destruct (els !! r); simplify_eq/=; done.
Qed.

Lemma dormant_step ev w :
  staysUnlisted ev -> dormant w ->
  dormant (step ev w) /\ storage (step ev w) = storage w /\ effects (step ev w) = effects w.
Proof.
  intros Hev (Hs & Ha & Hp & Hl & Ht).
  assert (Hdisp : forall r e, dispatchEvent r e w = w).
  { intros r e. unfold dispatchEvent. destruct (heap w !! r) as [elt|] eqn:Hr; [|done].
    by rewrite (Hl r elt Hr). }
  destruct ev as [b|r|r k sh| |id| |dt|r v t|pos e|r|l]; cbn [step].
  - assert (Hd : (if b then observeDOM w else w) = w).
    { destruct b; [|done]. unfold observeDOM. by rewrite Hs. }
    rewrite Hd. unfold observeURL. case_bool_decide; [done|]. by repeat split.
  - by rewrite Hdisp.
  - by rewrite Hdisp.
  - destruct (globalClickListenerAttached (manager w)); [|done].
    unfold clickListener. cbn. repeat split; try done.
    intros t Hin. apply in_app_iff in Hin as [Hin|[<-|[]]]; [by apply Ht | done].
  - unfold fireTimer, findTimer. destruct (List.find (timerIs id) (timers w)) as [t|] eqn:Hf; [|done].
    destruct (due t <=? clock w); [|done].
    apply find_some in Hf as [Hin _]. rewrite (Ht t Hin). cbn [runTimer].
    unfold clickSettle. change (adapter (manager (removeTimer id w))) with (adapter (manager w)).
    rewrite Ha. repeat split; try done.
    intros t' Hin'. cbn in Hin'. apply filter_In in Hin' as [Hin' _]. by apply Ht.
  - by rewrite Hp.
  - destruct (0 <=? dt); done.
  - unfold updateElement. destruct (heap w !! r) as [e|] eqn:Hr; [|done].
    repeat split; try done. intros r' e' Hr'. cbn in Hr'.
    destruct (decide (r' = r)) as [->|Hne].
    + rewrite list_lookup_insert_eq in Hr' by (by eapply lookup_lt_Some).
      simplify_eq. cbn. by apply (Hl r e).
    + rewrite list_lookup_insert_ne in Hr' by done. by apply (Hl r' e').
  - repeat split; try done. intros r' e' Hr'. cbn in Hr'.
    apply lookup_app_Some in Hr' as [Hr'|[_ Hr']]; [by apply (Hl r' e')|].
    destruct (r' - length (heap w))%nat; simplify_eq/=; done.
  - done.
  - by repeat split.
Qed.

Lemma dormant_run evs w :
  Forall staysUnlisted evs -> dormant w ->
  dormant (run evs w) /\ storage (run evs w) = storage w /\ effects (run evs w) = effects w.
Proof.
  intros Hevs. revert w. induction Hevs as [|ev evs Hev _ IH]; intros w Hd; [done|].
  destruct (dormant_step ev w Hev Hd) as (Hd' & Hs & He).
  destruct (IH (step ev w) Hd') as (Hd'' & Hs' & He').
  cbn [run fold_left]. fold (run evs (step ev w)).
  split; [done|]. split; congruence.
Qed.

End ControllerMore.

(** * The claims *)

(** C1. While the submission guard is active, the firing of a debounce
    timer makes no store operation: the store and the list of effects are
    what they were; in a reachable state with the guard active there is not
    even a debounced save left to fire.  And a save that is armed when a
    submit key reaches [handleKeydown] is cancelled by that handler run: the
    guard is set, and whatever happens afterwards, that timer is not active
    any more, so its firing changes nothing (in particular not during the
    2000 ms the guard stays set). *)
Theorem C1_guard_suppresses_save :
  (forall w id t,
      isSubmitting (manager w) = true -> findTimer id w = Some t -> isSaveTimer t = true ->
      storage (step (TimerFires id) w) = storage w
      /\ effects (step (TimerFires id) w) = effects w)
  /\ (forall w,
      reachable w -> isSubmitting (manager w) = true ->
      Forall (fun t => isSaveTimer t = false) (timers w))
  /\ (forall w r t evs,
      reachable w -> hasListener r EvtKeydown HandleKeydown w ->
      In t (timers w) -> isSaveTimer t = true ->
      let w1 := step (KeydownEvent r (js "Enter") false) w in
      let w2 := run evs w1 in
      isSubmitting (manager w1) = true
      /\ findTimer (timerId t) w2 = None
      /\ step (TimerFires (timerId t)) w2 = w2).
Proof.
  split; [|split].
  - intros w id t Hsub Hf Hsv. cbn [step]. unfold fireTimer. rewrite Hf.
    destruct (due t <=? clock w); [|done].
    unfold isSaveTimer in Hsv. destruct (callback t); try discriminate.
    cbn [runTimer]. simpl. by rewrite Hsub.
  - intros w Hr Hsub. apply Forall_forall. intros t Hin.
    apply (reachable_guardClean w Hr Hsub). by apply list_elem_of_In.
  - intros w r t evs Hr Hl Hin Hsv w1 w2.
    assert (Ha1 : absent (timerId t) w1).
    { subst w1. cbn [step]. apply dispatch_submit_cancels; try done.
      - by apply reachable_timersOk.
      - eauto. }
    assert (Ha2 : absent (timerId t) w2) by (by apply run_absent).
    split; [|split].
    + subst w1. cbn [step]. by apply dispatch_submit_guard.
    + by apply absent_findTimer.
    + cbn [step]. unfold fireTimer. by rewrite absent_findTimer.
Qed.

Lemma C1_witness :
  (storage (step (TimerFires 1) guardedWithSave) = storage guardedWithSave
   /\ effects (step (TimerFires 1) guardedWithSave) = effects guardedWithSave)
  /\ Forall (fun t => isSaveTimer t = false)
       (timers (step (KeydownEvent 0 (js "Enter") false) typedPage))
  /\ step (TimerFires 1)
       (run [Tick 600] (step (KeydownEvent 0 (js "Enter") false) typedPage))
     = run [Tick 600] (step (KeydownEvent 0 (js "Enter") false) typedPage).
Proof.
  destruct C1_guard_suppresses_save as (HA & HG & HB).
  assert (Hr : reachable typedPage) by apply reachable_run, reachable_boot.
  split; [|split].
  - apply (HA guardedWithSave 1%nat (mkTimer 1 500 (SaveDraftCb (js "Hello"))));
      vm_compute; reflexivity.
  - apply HG; [by apply reachable_step | vm_compute; reflexivity].
  - assert (Hl : hasListener 0 EvtKeydown HandleKeydown typedPage).
    { exists (mkElement (js "TEXTAREA") (js "prompt-textarea") [] None (js "Hello") []
                [(EvtInput, HandleInput); (EvtKeydown, HandleKeydown)]).
      split; [vm_compute; reflexivity | vm_compute; right; left; reflexivity]. }
    assert (Hin : In (mkTimer 1 500 (SaveDraftCb (js "Hello"))) (timers typedPage)).
    { vm_compute. left. reflexivity. }
    destruct (HB typedPage 0%nat (mkTimer 1 500 (SaveDraftCb (js "Hello"))) [Tick 600]
                Hr Hl Hin eq_refl) as (_ & _ & H).
    exact H.
Defined.

(** C2. When the callback of the restoration read runs and the text of the
    bound surface is not empty after trimming, the callback leaves the whole
    world as it is: [setValue] is not called, no toast is shown, and the
    elements and the effects are unchanged by the task that delivers the
    callback. *)
Theorem C2_restore_keeps_live_text w a key result :
  adapter (manager w) = Some a -> JS.trim (getValue a w) <> [] ->
  restoreDraftCallback key result w = w
  /\ heap (step GetReturns w) = heap w
  /\ effects (step GetReturns w) = effects w.
Proof.
  intros Ha Ht.
  assert (Hb : isBlank (getValue a w) = false).
  { destruct (isBlank (getValue a w)) eqn:E; [|done]. apply isBlank_trim in E. contradiction. }
  assert (Hcb : forall k r w0, adapter (manager w0) = Some a -> getValue a w0 = getValue a w ->
                  restoreDraftCallback k r w0 = w0).
  { intros k r w0 Ha0 Hg. unfold restoreDraftCallback. rewrite Ha0, Hg, Hb.
    destruct r; [|done]. by destruct (truthy _). }
  split; [by apply Hcb|].
  cbn [step]. destruct (pendingGets w) as [|g rest]; [done|].
  rewrite Hcb; done.
Qed.

Lemma C2_witness :
  restoreDraftCallback (js "draft_chatgpt.com/c/1") (Some (js "SGVsbG8=")) liveTextPage
  = liveTextPage
  /\ heap (step GetReturns liveTextPage) = heap liveTextPage
  /\ effects (step GetReturns liveTextPage) = effects liveTextPage.
Proof.
  assert (Ha : adapter (manager liveTextPage) = Some (mkAdapter TextAreaAdapter 0))
    by (vm_compute; reflexivity).
  assert (Ht : JS.trim (getValue (mkAdapter TextAreaAdapter 0) liveTextPage) <> [])
    by (vm_compute; discriminate).
  exact (C2_restore_keeps_live_text liveTextPage (mkAdapter TextAreaAdapter 0)
           (js "draft_chatgpt.com/c/1") (Some (js "SGVsbG8=")) Ha Ht).
Defined.

(** C3. [saveDraft] uses the key ["draft_" + hostname + pathname].  When the
    text is not empty after trimming it sets that key to the obfuscated text
    and that is its only effect; when the trimmed text is empty it removes
    the key and sets nothing. *)
Theorem C3_saveDraft text w :
  let key := js "draft_" ++ hostname (location w) ++ pathname (location w) in
  (JS.trim text <> [] ->
     storage (saveDraft text w) = <[key := Utils.obfuscate text]> (storage w)
     /\ effects (saveDraft text w) = effects w ++ [StorageSet key (Utils.obfuscate text)])
  /\ (JS.trim text = [] ->
     storage (saveDraft text w) = delete key (storage w)
     /\ effects (saveDraft text w) = effects w ++ [StorageRemove key]).
Proof.
  intros key. unfold saveDraft. split; intros H.
  - destruct (isBlank text) eqn:E; [apply isBlank_trim in E; contradiction|]. done.
  - apply isBlank_trim in H. rewrite H. done.
Qed.

Lemma C3_witness :
  (storage (saveDraft (js "Hello world") typedPage)
     = <[js "draft_chatgpt.com/c/1" := js "SGVsbG8gd29ybGQ="]> (storage typedPage)
   /\ effects (saveDraft (js "Hello world") typedPage)
     = effects typedPage
       ++ [StorageSet (js "draft_chatgpt.com/c/1") (js "SGVsbG8gd29ybGQ=")])
  /\ (storage (saveDraft (js "  ") typedPage)
        = delete (js "draft_chatgpt.com/c/1") (storage typedPage)
      /\ effects (saveDraft (js "  ") typedPage)
        = effects typedPage ++ [StorageRemove (js "draft_chatgpt.com/c/1")]).
Proof.
  split.
  - assert (Ht : JS.trim (js "Hello world") <> []) by (vm_compute; discriminate).
    pose proof (proj1 (C3_saveDraft (js "Hello world") typedPage) Ht) as H.
    vm_compute in H. vm_compute. exact H.
  - assert (Ht : JS.trim (js "  ") = []) by (vm_compute; reflexivity).
    pose proof (proj2 (C3_saveDraft (js "  ") typedPage) Ht) as H.
    vm_compute in H. vm_compute. exact H.
Defined.

(** C4. One run of [handleKeydown] on Enter without shift, in a reachable
    state: the guard is set, no debounced save is left in the timer list
    (the list is the old one without the timer [typingTimer] names, plus the
    release timer), the record of the current key is removed from the store,
    and the release of the guard is scheduled 2000 ms after the current
    time: the new timer is the one its id finds, and in every later state
    in which it is still active, firing it does nothing before that time
    and from then on removes it and clears the guard. *)
Theorem C4_submit_key w e :
  reachable w -> key e = Some (js "Enter") -> shiftKey e = false ->
  let w' := handleKeydown e w in
  let k := js "draft_" ++ hostname (location w) ++ pathname (location w) in
  let release := mkTimer (nextTimerId w) (clock w + 2000) ReleaseGuardCb in
  isSubmitting (manager w') = true
  /\ Forall (fun t => isSaveTimer t = false) (timers w')
  /\ storage w' = delete k (storage w)
  /\ effects w' = effects w ++ [StorageRemove k]
  /\ timers w' = timers (clearTimeout (typingTimer (manager w)) w) ++ [release]
  /\ findTimer (nextTimerId w) w' = Some release
  /\ forall w0, findTimer (nextTimerId w) w0 = Some release ->
       let w1 := step (TimerFires (nextTimerId w)) w0 in
       (clock w0 < clock w + 2000 -> w1 = w0)
       /\ (clock w + 2000 <= clock w0 ->
           w1 = update_manager (set_isSubmitting false) (removeTimer (nextTimerId w) w0)
           /\ isSubmitting (manager w1) = false).
Proof.
  intros Hr Hk Hs w' k release.
  assert (Hsub : isSubmitKey e) by done.
  destruct (reachable_timersOk w Hr) as [Htr Hfr].
  destruct (handleKeydown_cancels e w Hsub (reachable_timersOk w Hr)) as [Hno _].
  assert (Htm : timers w' = timers (clearTimeout (typingTimer (manager w)) w) ++ [release]).
  { subst w'. rewrite handleKeydown_submit by done. by destruct (typingTimer (manager w)). }
  split; [subst w'; rewrite handleKeydown_submit by done; by destruct (typingTimer (manager w))|].
  split; [exact Hno|].
  split; [subst w'; rewrite handleKeydown_submit by done; by destruct (typingTimer (manager w))|].
  split; [subst w'; rewrite handleKeydown_submit by done; by destruct (typingTimer (manager w))|].
  split; [exact Htm|]. split.
  - unfold findTimer. rewrite Htm.
    apply (find_fresh (timers (clearTimeout (typingTimer (manager w)) w)) [] release).
    intros t Hin. pose proof (clearTimeout_fresh (typingTimer (manager w)) w Hfr t Hin) as Hlt.
    assert (Hn : nextTimerId (clearTimeout (typingTimer (manager w)) w) = nextTimerId w)
      by (by destruct (typingTimer (manager w))).
    rewrite Hn in Hlt. cbn [timerId release]. lia.
  - intros w0 Hf w1. subst w1. cbn [step]. unfold fireTimer. rewrite Hf.
    cbn [due callback release]. split.
    + intros Hlt. destruct (Z.leb_spec0 (clock w + 2000) (clock w0)); [lia | done].
    + intros Hge. destruct (Z.leb_spec0 (clock w + 2000) (clock w0)); [|lia].
      cbn [runTimer]. done.
Qed.

Lemma C4_witness :
  let w' := handleKeydown (mkDomEvent EvtKeydown (Some (js "Enter")) false) typedPage in
  isSubmitting (manager w') = true
  /\ Forall (fun t => isSaveTimer t = false) (timers w')
  /\ storage w' = delete (js "draft_chatgpt.com/c/1") (storage typedPage)
  /\ timers w' = [mkTimer 2 2000 ReleaseGuardCb]
  /\ step (TimerFires 2) (step (Tick 1999) w') = step (Tick 1999) w'
  /\ isSubmitting (manager (step (TimerFires 2) (step (Tick 2000) w'))) = false.
Proof.
  assert (Hr : reachable typedPage) by apply reachable_run, reachable_boot.
  destruct (C4_submit_key typedPage (mkDomEvent EvtKeydown (Some (js "Enter")) false)
              Hr eq_refl eq_refl) as (H1 & H2 & H3 & _ & H5 & _ & H7).
  cbv zeta. split; [exact H1|]. split; [exact H2|].
  split; [vm_compute in H3; vm_compute; exact H3|].
  split; [vm_compute in H5; vm_compute; exact H5|].
  split.
  - assert (Hf : findTimer (nextTimerId typedPage)
                   (step (Tick 1999)
                      (handleKeydown (mkDomEvent EvtKeydown (Some (js "Enter")) false) typedPage))
                 = Some (mkTimer (nextTimerId typedPage) (clock typedPage + 2000) ReleaseGuardCb))
      by (vm_compute; reflexivity).
    destruct (H7 _ Hf) as [Hb _].
    assert (Hc : clock (step (Tick 1999)
                      (handleKeydown (mkDomEvent EvtKeydown (Some (js "Enter")) false) typedPage))
                 < clock typedPage + 2000) by (vm_compute; reflexivity).
    specialize (Hb Hc). vm_compute in Hb. vm_compute. exact Hb.
  - assert (Hf : findTimer (nextTimerId typedPage)
                   (step (Tick 2000)
                      (handleKeydown (mkDomEvent EvtKeydown (Some (js "Enter")) false) typedPage))
                 = Some (mkTimer (nextTimerId typedPage) (clock typedPage + 2000) ReleaseGuardCb))
      by (vm_compute; reflexivity).
    destruct (H7 _ Hf) as [_ Ha].
    assert (Hc : clock typedPage + 2000
                 <= clock (step (Tick 2000)
                      (handleKeydown (mkDomEvent EvtKeydown (Some (js "Enter")) false) typedPage)))
      by (vm_compute; discriminate).
    destruct (Ha Hc) as [_ Hz]. vm_compute in Hz. vm_compute. exact Hz.
Defined.

(** C5 (amended). A surface change whose adapter resolution succeeds binds
    the new surface and adapter and issues the restoration read for the
    current key at once; it leaves the guard and the timers as they are.  So
    the controller ends in TRACKING when it was in IDLE or TRACKING, stays in
    PENDING_SAVE when a debounced save was pending, and stays in GUARDED when
    the guard was active. *)
Theorem C5_surface_change w sel box a :
  selectors (hostname (location w)) = Some sel ->
  querySelector sel w = Some box ->
  currentInput (manager w) <> Some box ->
  AdapterFactory.create box w = Some a ->
  let w' := observeDOM w in
  let k := js "draft_" ++ hostname (location w) ++ pathname (location w) in
  currentInput (manager w') = Some box
  /\ adapter (manager w') = Some a
  /\ pendingGets w' = pendingGets w ++ [mkPendingGet k (storage w !! k)]
  /\ effects w' = effects w ++ [StorageGet k]
  /\ isSubmitting (manager w') = isSubmitting (manager w)
  /\ timers w' = timers w
  /\ controllerState w' =
       match controllerState w with
       | IDLE | TRACKING => TRACKING
       | PENDING_SAVE => PENDING_SAVE
       | GUARDED => GUARDED
       end.
Proof.
  intros Hsel Hq Hne Ha w' k.
  destruct (observeDOM_surface_change_result w sel box a Hsel Hq Hne Ha) as (e & He & Hw).
  subst w'. rewrite Hw. simpl. repeat (split; [done|]).
  unfold controllerState. simpl.
  destruct (isSubmitting (manager w)); [done|].
  destruct (existsb isSaveTimer (timers w)); [done|]. by destruct (adapter (manager w)).
Qed.

(** C5 as stated fails.  On [guardedPage] and on [typingPage] the site has
    replaced the bound textarea, the selector finds the new one and the
    resolver gives an adapter for it; after the surface change the guard is
    still active in the first, and the debounced save is still pending in
    the second. *)
Lemma C5_counterexample :
  (reachable guardedPage
   /\ selectors (hostname (location guardedPage)) = Some [SelId (js "prompt-textarea")]
   /\ querySelector [SelId (js "prompt-textarea")] guardedPage = Some 1%nat
   /\ currentInput (manager guardedPage) = Some 0%nat
   /\ AdapterFactory.create 1 guardedPage = Some (mkAdapter TextAreaAdapter 1)
   /\ adapter (manager (observeDOM guardedPage)) = Some (mkAdapter TextAreaAdapter 1)
   /\ isSubmitting (manager (observeDOM guardedPage)) = true
   /\ controllerState (observeDOM guardedPage) = GUARDED)
  /\ (reachable typingPage
   /\ querySelector [SelId (js "prompt-textarea")] typingPage = Some 1%nat
   /\ currentInput (manager typingPage) = Some 0%nat
   /\ AdapterFactory.create 1 typingPage = Some (mkAdapter TextAreaAdapter 1)
   /\ adapter (manager (observeDOM typingPage)) = Some (mkAdapter TextAreaAdapter 1)
   /\ timers (observeDOM typingPage) = [mkTimer 1 500 (SaveDraftCb (js "Hello"))]
   /\ controllerState (observeDOM typingPage) = PENDING_SAVE).
Proof.
  split.
  - split; [apply reachable_run, reachable_boot|]. repeat split; vm_compute; reflexivity.
  - split; [apply reachable_run, reachable_run, reachable_boot|].
    repeat split; vm_compute; reflexivity.
Qed.

Lemma C5_witness :
  controllerState (observeDOM (run [PageInserts 0 promptTextarea] (boot (chatPage "/c/1") [] [] ∅)))
  = TRACKING.
Proof.
  destruct (C5_surface_change
    (run [PageInserts 0 promptTextarea] (boot (chatPage "/c/1") [] [] ∅))
    [SelId (js "prompt-textarea")] 0%nat (mkAdapter TextAreaAdapter 0))
    as (_ & _ & _ & _ & _ & _ & H);
    [vm_compute; reflexivity | vm_compute; reflexivity | vm_compute; discriminate
    | vm_compute; reflexivity |].
  vm_compute in H. vm_compute. exact H.
Defined.

(** C6 (amended). For every well-formed string (any Unicode text without an
    unpaired surrogate), decoding the encoding gives the string back; hence
    encoding the decoding of such an encoding gives that encoding back.
    For arbitrary strings this fails: a string that holds a character [atob]
    does not accept (neither of the base64 alphabet, nor [=], nor ASCII
    white space) decodes to the empty string, and the encoding of that is
    the empty string and not the string. *)
Theorem C6_roundtrip s :
  JS.isWellFormed s = true ->
  (Utils.deobfuscate (Utils.obfuscate s) = s
   /\ Utils.obfuscate (Utils.deobfuscate (Utils.obfuscate s)) = Utils.obfuscate s)
  /\ forall t c, In c t -> notBase64 c ->
       Utils.deobfuscate t = []
       /\ Utils.obfuscate (Utils.deobfuscate t) = []
       /\ Utils.obfuscate (Utils.deobfuscate t) <> t.
Proof.
  intros Hwf. pose proof (deobfuscate_obfuscate s Hwf) as H. split.
  - split; [exact H | by rewrite H].
  - intros t c Hin Hc. rewrite (deobfuscate_rejects t c Hin Hc).
    assert (He : Utils.obfuscate [] = []) by (vm_compute; reflexivity).
    rewrite He. split; [done|]. split; [done|]. intros <-. destruct Hin.
Qed.

(** C6 as stated fails: ["Hello world"] is not the encoding of a text, its
    decoding is the empty string, and the encoding of that is empty. *)
Lemma C6_counterexample :
  Utils.deobfuscate (js "Hello world") = []
  /\ Utils.obfuscate (Utils.deobfuscate (js "Hello world")) <> js "Hello world".
Proof. split; [vm_compute; reflexivity | vm_compute; discriminate]. Qed.

Lemma C6_witness :
  (Utils.deobfuscate (Utils.obfuscate [72; 233; 8364; 55357; 56832])
   = [72; 233; 8364; 55357; 56832]
   /\ Utils.obfuscate (Utils.deobfuscate (Utils.obfuscate [72; 233; 8364; 55357; 56832]))
      = Utils.obfuscate [72; 233; 8364; 55357; 56832])
  /\ (Utils.deobfuscate (js "Hello!") = []
      /\ Utils.obfuscate (Utils.deobfuscate (js "Hello!")) = []
      /\ Utils.obfuscate (Utils.deobfuscate (js "Hello!")) <> js "Hello!").
Proof.
  assert (Hwf : JS.isWellFormed [72; 233; 8364; 55357; 56832] = true) by (vm_compute; reflexivity).
  destruct (C6_roundtrip [72; 233; 8364; 55357; 56832] Hwf) as [H1 H2].
  split; [exact H1|].
  apply (H2 (js "Hello!") 33).
  - vm_compute. tauto.
  - unfold notBase64. split; [vm_compute; reflexivity|]. split; [vm_compute; reflexivity | lia].
Defined.

(** C7. In a reachable state a document click only schedules the check
    500 ms later: store, effects and manager are untouched.  When that timer
    fires before its time nothing happens; when it fires after, the guard
    flag is what it was and the timer list only loses the fired timer, and
    with an adapter bound whose text is empty after trimming the task is
    exactly [handleSendSuccess] (the removal a submit key makes): the record
    of the current key is removed.  With text left, the store is untouched. *)
Theorem C7_click_heuristic w :
  reachable w ->
  (let w1 := step Click w in
   timers w1 = timers w ++ [mkTimer (nextTimerId w) (clock w + 500) ClickSettleCb]
   /\ storage w1 = storage w /\ effects w1 = effects w /\ manager w1 = manager w)
  /\ (forall id t,
        findTimer id w = Some t -> callback t = ClickSettleCb ->
        let w2 := step (TimerFires id) w in
        let k := js "draft_" ++ hostname (location w) ++ pathname (location w) in
        (clock w < due t -> w2 = w)
        /\ (due t <= clock w ->
            isSubmitting (manager w2) = isSubmitting (manager w)
            /\ timers w2 = timers (removeTimer id w)
            /\ forall a, adapter (manager w) = Some a ->
                 (JS.trim (getValue a w) = [] ->
                    w2 = handleSendSuccess (removeTimer id w)
                    /\ storage w2 = delete k (storage w)
                    /\ effects w2 = effects w ++ [StorageRemove k])
                 /\ (JS.trim (getValue a w) <> [] ->
                    storage w2 = storage w /\ effects w2 = effects w))).
Proof.
  intros Hr. split.
  - cbn [step]. by rewrite (reachable_click_listener w Hr).
  - intros id t Hf Hcb w2 k. subst w2. cbn [step]. unfold fireTimer. rewrite Hf, Hcb.
    cbn [runTimer]. split.
    + intros Hlt. destruct (Z.leb_spec0 (due t) (clock w)); [lia | done].
    + intros Hle. destruct (Z.leb_spec0 (due t) (clock w)); [|lia].
      unfold clickSettle. cbn [manager removeTimer set_timers].
      split; [by repeat case_match|]. split; [by repeat case_match|].
      intros a Ha. rewrite Ha.
      change (getValue a (removeTimer id w)) with (getValue a w).
      split; intros Ht.
      * apply isBlank_trim in Ht. rewrite Ht. done.
      * destruct (isBlank (getValue a w)) eqn:E; [apply isBlank_trim in E; contradiction|].
        done.
Qed.

Lemma C7_witness :
  timers (step Click typedPage)
  = timers typedPage ++ [mkTimer (nextTimerId typedPage) (clock typedPage + 500) ClickSettleCb]
  /\ storage (step (TimerFires 3) clickedPage) = ∅
  /\ isSubmitting (manager (step (TimerFires 3) clickedPage)) = false.
Proof.
  split.
  - assert (Hr : reachable typedPage) by apply reachable_run, reachable_boot.
    exact (proj1 (proj1 (C7_click_heuristic typedPage Hr))).
  - assert (Hr : reachable clickedPage) by apply reachable_run, reachable_boot.
    assert (Hf : findTimer 3 clickedPage = Some (mkTimer 3 500 ClickSettleCb))
      by (vm_compute; reflexivity).
    destruct (proj2 (C7_click_heuristic clickedPage Hr) 3%nat
                (mkTimer 3 500 ClickSettleCb) Hf eq_refl) as [_ H].
    assert (Hd : due (mkTimer 3 500 ClickSettleCb) <= clock clickedPage)
      by (vm_compute; discriminate).
    destruct (H Hd) as (Hg & _ & Ha).
    assert (Had : adapter (manager clickedPage) = Some (mkAdapter TextAreaAdapter 0))
      by (vm_compute; reflexivity).
    destruct (Ha (mkAdapter TextAreaAdapter 0) Had) as [Hblank _].
    assert (Hb : JS.trim (getValue (mkAdapter TextAreaAdapter 0) clickedPage) = [])
      by (vm_compute; reflexivity).
    destruct (Hblank Hb) as (_ & Hs & _).
    split.
    + vm_compute in Hs. vm_compute. exact Hs.
    + vm_compute in Hg. vm_compute. exact Hg.
Defined.

(** C8 (amended). When the observer of [observeURL] sees a changed URL it
    clears [currentInput], remembers the URL and does nothing else: store
    and effects are unchanged.  [currentInput] then stays cleared until the
    observer of [observeDOM] runs again; when that run finds an element the
    selector of the host matches, the element is acquired again, and if the
    resolver gives an adapter for it the restoration read is issued for the
    key of the location of that moment (the new path); if the resolver gives
    none, no restoration is run. *)
Theorem C8_navigation w :
  href (location w) <> lastUrl w ->
  let w1 := observeURL w in
  currentInput (manager w1) = None
  /\ lastUrl w1 = href (location w)
  /\ storage w1 = storage w
  /\ effects w1 = effects w
  /\ forall evs,
       Forall (fun ev => ev <> Mutation true) evs ->
       let w2 := run evs w1 in
       currentInput (manager w2) = None
       /\ forall sel box a,
            selectors (hostname (location w2)) = Some sel ->
            querySelector sel w2 = Some box ->
            let w3 := observeDOM w2 in
            let k := js "draft_" ++ hostname (location w2) ++ pathname (location w2) in
            (AdapterFactory.create box w2 = Some a ->
               currentInput (manager w3) = Some box
               /\ adapter (manager w3) = Some a
               /\ pendingGets w3 = pendingGets w2 ++ [mkPendingGet k (storage w2 !! k)]
               /\ effects w3 = effects w2 ++ [StorageGet k])
            /\ (AdapterFactory.create box w2 = None ->
               currentInput (manager w3) = Some box
               /\ adapter (manager w3) = None
               /\ pendingGets w3 = pendingGets w2
               /\ effects w3 = effects w2).
Proof.
  intros Hurl w1. subst w1. rewrite observeURL_spec by done.
  repeat (split; [done|]).
  intros evs Hevs w2.
  assert (Hc : currentInput (manager w2) = None) by (by apply run_keeps_cleared).
  split; [done|]. intros sel box a Hsel Hq w3 k. split; intros Ha.
  - destruct (observeDOM_surface_change_result w2 sel box a Hsel Hq) as (e & He & Hw);
      [by rewrite Hc | done |].
    subst w3. rewrite Hw. done.
  - subst w3. rewrite (observeDOM_unsupported w2 sel box) by (done || by rewrite Hc). done.
Qed.

(** C8 as stated fails on the last clause.  On [navigatingPage] the URL
    change is detected and the next run of the DOM observer acquires the
    matching element again, but the resolver has no adapter for it: no
    restoration read is issued. *)
Lemma C8_counterexample :
  reachable navigatingPage
  /\ href (location navigatingPage) <> lastUrl navigatingPage
  /\ let w1 := step (Mutation true) navigatingPage in
     currentInput (manager w1) = None
     /\ lastUrl w1 = href (chatPage "/c/2")
     /\ selectors (hostname (location w1)) = Some [SelId (js "prompt-textarea")]
     /\ querySelector [SelId (js "prompt-textarea")] w1 = Some 0%nat
     /\ AdapterFactory.create 0 w1 = None
     /\ let w2 := step (Mutation true) w1 in
        currentInput (manager w2) = Some 0%nat
        /\ adapter (manager w2) = None
        /\ pendingGets w2 = []
        /\ effects w2 = [].
Proof.
  split; [apply reachable_run, reachable_boot|].
  split; [vm_compute; discriminate|].
  cbv zeta. repeat split; vm_compute; reflexivity.
Qed.

Lemma C8_witness :
  currentInput (manager (observeURL movedPage)) = None
  /\ storage (observeURL movedPage) = storage movedPage
  /\ effects (observeDOM (observeURL movedPage))
     = effects (observeURL movedPage) ++ [StorageGet (js "draft_chatgpt.com/c/2")].
Proof.
  assert (Hurl : href (location movedPage) <> lastUrl movedPage) by (vm_compute; discriminate).
  destruct (C8_navigation movedPage Hurl) as (Hc & _ & Hs & _ & Hnext).
  split; [exact Hc|]. split; [exact Hs|].
  destruct (Hnext [] ltac:(constructor)) as [_ Hdom].
  destruct (Hdom [SelId (js "prompt-textarea")] 0%nat (mkAdapter TextAreaAdapter 0))
    as [Hsup _]; [vm_compute; reflexivity..|].
  destruct Hsup as (_ & _ & _ & Hget); [vm_compute; reflexivity|].
  vm_compute in Hget. vm_compute. exact Hget.
Defined.

(** C9 (amended). The controller holds one surface and one adapter
    reference, and a surface change replaces both with the new ones; on the
    new element the two listeners are appended, and every other element is
    left as it is, its listeners included.  No task ever detaches a
    listener: a listener that is on an element stays on it.  And the
    listeners of any element, bound now or before, are live: an input event
    on it (guard off, an adapter bound) arms the debounced save of the
    current adapter's text, and a submit key on it sets the guard. *)
Theorem C9_bindings_stay w :
  (forall sel box a,
      selectors (hostname (location w)) = Some sel ->
      querySelector sel w = Some box ->
      currentInput (manager w) <> Some box ->
      AdapterFactory.create box w = Some a ->
      let w' := observeDOM w in
      currentInput (manager w') = Some box
      /\ adapter (manager w') = Some a /\ el a = box
      /\ (exists e, heap w !! box = Some e
            /\ heap w' !! box = Some (bothListeners e)
            /\ listeners (bothListeners e)
               = listeners e ++ [(EvtInput, HandleInput); (EvtKeydown, HandleKeydown)])
      /\ forall r, r <> box -> heap w' !! r = heap w !! r)
  /\ (forall ev r t l, hasListener r t l w -> hasListener r t l (step ev w))
  /\ (forall r a,
        hasListener r EvtInput HandleInput w ->
        isSubmitting (manager w) = false -> adapter (manager w) = Some a ->
        saveArmed a (nextTimerId w) (getValue a w) (clock w + 500) (step (InputEvent r) w))
  /\ (forall r,
        hasListener r EvtKeydown HandleKeydown w ->
        isSubmitting (manager (step (KeydownEvent r (js "Enter") false) w)) = true).
Proof.
  split; [|split; [|split]].
  - intros sel box a Hsel Hq Hne Ha w'.
    destruct (observeDOM_surface_change_result w sel box a Hsel Hq Hne Ha) as (e & He & Hw).
    subst w'. rewrite Hw. simpl.
    split; [done|]. split; [done|]. split; [by eapply create_el|]. split.
    + exists e. split; [done|]. split.
      * apply list_lookup_insert_eq. by eapply lookup_lt_Some.
      * simpl. by rewrite <- app_assoc.
    + intros r Hr. by apply list_lookup_insert_ne.
  - intros ev r t l (elt & Hel & Hin).
    destruct (step_listenersKept ev w r elt Hel) as (elt' & Hel' & Hincl).
    exists elt'. split; [done|]. by apply Hincl.
  - intros r a Hl Hs Ha. cbn [step]. by apply dispatch_input_arms.
  - intros r Hl. cbn [step]. by apply dispatch_submit_guard.
Qed.

(** C9 as stated fails.  On [reboundPage] the controller references the new
    editor only, the old textarea and the new editor both carry the script's
    listeners, an input event on the old textarea arms a save (of the new
    editor's text), and a submit key on the old textarea sets the guard. *)
Lemma C9_counterexample :
  reachable reboundPage
  /\ document reboundPage = [1%nat; 0%nat]
  /\ currentInput (manager reboundPage) = Some 1%nat
  /\ adapter (manager reboundPage) = Some (mkAdapter ContentEditableAdapter 1)
  /\ boundSurfaces reboundPage = [0%nat; 1%nat]
  /\ timers reboundPage = []
  /\ timers (step (InputEvent 0) reboundPage) = [mkTimer 1 500 (SaveDraftCb (js "new"))]
  /\ isSubmitting (manager reboundPage) = false
  /\ isSubmitting (manager (step (KeydownEvent 0 (js "Enter") false) reboundPage)) = true.
Proof.
  split; [apply reachable_run, reachable_boot|]. repeat split; vm_compute; reflexivity.
Qed.

Lemma C9_witness :
  hasListener 0 EvtInput HandleInput reboundPage
  /\ hasListener 0 EvtInput HandleInput (step (PageRemoves 0) reboundPage).
Proof.
  assert (H : hasListener 0 EvtInput HandleInput reboundPage).
  { exists (mkElement (js "TEXTAREA") [] [] None (js "old") []
              [(EvtInput, HandleInput); (EvtKeydown, HandleKeydown)]).
    split; [vm_compute; reflexivity | vm_compute; left; reflexivity]. }
  split; [exact H|].
  exact (proj1 (proj2 (C9_bindings_stay reboundPage))
           (PageRemoves 0) 0%nat EvtInput HandleInput H).
Defined.

(** C10. A restoration attempt never writes the store.  The call of
    [restoreDraft] only issues the read; the callback, whatever the key and
    the result it is given and whatever the surface holds, leaves the store
    and the list of [set] / [remove] calls as they were; so does the task
    that delivers the callback.  (When the callback restores a text, the
    synthetic input event of [setValue] arms a debounced save; that save
    belongs to a later timer task, not to the attempt.) *)
Theorem C10_restoration_only_reads w :
  (storage (restoreDraft w) = storage w /\ storeWrites (restoreDraft w) = storeWrites w)
  /\ (forall key result,
        storage (restoreDraftCallback key result w) = storage w
        /\ storeWrites (restoreDraftCallback key result w) = storeWrites w)
  /\ (storage (step GetReturns w) = storage w
      /\ storeWrites (step GetReturns w) = storeWrites w).
Proof.
  assert (Hcb : forall key result w0,
    storage (restoreDraftCallback key result w0) = storage w0
    /\ storeWrites (restoreDraftCallback key result w0) = storeWrites w0).
  { intros key result w0.
    destruct (restoreDraftCallback_effects key result w0) as (Hs & l & He & Hl).
    split; [done|]. by apply storeWrites_app with (l := l). }
  split; [|split].
  - split; [done|]. apply storeWrites_app with (l := [StorageGet (Utils.getStorageKey w)]).
    + done.
    + by repeat constructor.
  - intros key result. apply Hcb.
  - cbn [step]. destruct (pendingGets w) as [|g rest]; [done|].
    destruct (Hcb (getKey g) (getResult g) (set_pendingGets rest w)) as [Hs Hw]. done.
Qed.

(** * Further properties of the script *)

(** ** [Utils.obfuscate] and [Utils.deobfuscate] *)

(** X1.  The record [obfuscate] makes of a well-formed text is a base64
    text: every character is one of the 64 of the alphabet or the padding
    [=], and the length is a multiple of four. *)
Theorem X1_obfuscate_is_base64 s :
  JS.isWellFormed s = true ->
  Forall isBase64Unit (Utils.obfuscate s) /\ (length (Utils.obfuscate s) mod 4 = 0)%nat.
Proof.
  intros Hwf. rewrite obfuscate_wellFormed by done.
  destruct (encodeOctets_shape (JS.toUtf8 s) (toUtf8_octets s Hwf)) as (sx & pad & -> & Hs & _ & Hp).
  split.
  - apply Forall_app. split.
    + apply Forall_forall. intros c Hc. apply list_elem_of_In, in_map_iff in Hc as (i & <- & Hi).
      left. rewrite Forall_forall in Hs. apply list_elem_of_In in Hi.
      by rewrite (base64Index_char i (Hs i Hi)).
    + destruct Hp as [[-> _]|[[-> _]|[-> _]]]; repeat constructor; by right.
  - rewrite length_app, length_map.
    destruct Hp as [[-> Hl]|[[-> Hl]|[-> Hl]]]; cbn [length].
    + by rewrite Nat.add_0_r.
    + by rewrite Nat.Div0.add_mod, Hl.
    + by rewrite Nat.Div0.add_mod, Hl.
Qed.

Lemma X1_witness :
  Forall isBase64Unit (Utils.obfuscate accentedText)
  /\ (length (Utils.obfuscate accentedText) mod 4 = 0)%nat.
Proof. apply X1_obfuscate_is_base64. vm_compute. reflexivity. Defined.

(** X2.  Two different well-formed texts never get the same record. *)
Theorem X2_obfuscate_separates s1 s2 :
  JS.isWellFormed s1 = true -> JS.isWellFormed s2 = true -> s1 <> s2 ->
  Utils.obfuscate s1 <> Utils.obfuscate s2.
Proof.
  intros H1 H2 Hne Heq. apply Hne.
  rewrite <- (deobfuscate_obfuscate s1 H1), <- (deobfuscate_obfuscate s2 H2). by rewrite Heq.
Qed.

Lemma X2_witness :
  js "draft" <> js "Draft" /\ Utils.obfuscate (js "draft") <> Utils.obfuscate (js "Draft").
Proof.
  assert (Hne : js "draft" <> js "Draft") by (vm_compute; discriminate).
  split; [exact Hne|].
  apply X2_obfuscate_separates; [vm_compute; reflexivity | vm_compute; reflexivity | exact Hne].
Defined.

(** X3.  A text with an unpaired surrogate makes [encodeURIComponent]
    throw: [obfuscate] hands the text back as it is, and [deobfuscate]
    turns that record into the empty string. *)
Theorem X3_unpaired_surrogate s :
  Forall isCodeUnit s -> JS.isWellFormed s = false ->
  Utils.obfuscate s = s /\ Utils.deobfuscate (Utils.obfuscate s) = [].
Proof.
  intros Hall Hwf.
  assert (Ho : Utils.obfuscate s = s).
  { unfold Utils.obfuscate. by rewrite (encode_wellFormed (length s) s). }
  split; [done|]. rewrite Ho.
  destruct (existsb isSurrogate s) eqn:E.
  - apply existsb_exists in E as (c & Hin & Hc).
    apply (deobfuscate_rejects s c Hin). by apply surrogate_notBase64.
  - rewrite no_surrogate_wellFormed in Hwf; done.
Qed.

Lemma X3_witness :
  Utils.obfuscate brokenText = brokenText
  /\ Utils.deobfuscate (Utils.obfuscate brokenText) = [].
Proof.
  apply X3_unpaired_surrogate.
  - repeat constructor; unfold isCodeUnit; lia.
  - vm_compute. reflexivity.
Defined.

(** X4.  [deobfuscate] gives the empty string for every stored text that
    holds a character [atob] does not accept: one that is neither ASCII
    white space, nor of the base64 alphabet, nor [=]. *)
Theorem X4_deobfuscate_rejects s c :
  In c s -> notBase64 c -> Utils.deobfuscate s = [].
Proof. exact (deobfuscate_rejects s c). Qed.

Lemma X4_witness : Utils.deobfuscate (42 :: js "SGVsbG8=") = [].
Proof.
  apply (X4_deobfuscate_rejects (42 :: js "SGVsbG8=") 42).
  - left. reflexivity.
  - unfold notBase64. split; [vm_compute; reflexivity|]. split; [vm_compute; reflexivity | lia].
Defined.

(** X5.  The record of a text that is not empty is not empty, so the
    test [result[key]] of [restoreDraft] never drops a record [saveDraft]
    has written. *)
Theorem X5_record_not_empty text : text <> [] -> Utils.obfuscate text <> [].
Proof. exact (obfuscate_nonempty text). Qed.

Lemma X5_witness : js "a" <> [] /\ Utils.obfuscate (js "a") <> [].
Proof.
  assert (Hne : js "a" <> []) by (vm_compute; discriminate).
  split; [exact Hne | exact (X5_record_not_empty (js "a") Hne)].
Defined.

(** ** The controller *)

(** X6.  The test [!text || text.trim() === ""] of [saveDraft],
    [restoreDraft] and the click check holds exactly for the texts made of
    white space and line terminators only. *)
Theorem X6_blank_is_whitespace text : isBlank text = forallb JS.isWhiteSpace text.
Proof.
  destruct (forallb JS.isWhiteSpace text) eqn:E.
  - apply isBlank_trim. by apply trim_nil.
  - destruct (isBlank text) eqn:B; [|done].
    apply isBlank_trim, trim_nil in B. congruence.
Qed.

(** X7.  [getStorageKey] keeps pages apart: with host names that hold no
    [/] and paths that start with one, two pages have the same key exactly
    when they have the same host name and the same path. *)
Theorem X7_key_separates_pages w1 w2 :
  isHostname (hostname (location w1)) -> isHostname (hostname (location w2)) ->
  isPathname (pathname (location w1)) -> isPathname (pathname (location w2)) ->
  (Utils.getStorageKey w1 = Utils.getStorageKey w2
   <-> hostname (location w1) = hostname (location w2)
       /\ pathname (location w1) = pathname (location w2)).
Proof.
  intros H1 H2 (r1 & Hp1) (r2 & Hp2). unfold Utils.getStorageKey. split.
  - intros Heq. apply app_inv_head in Heq. rewrite Hp1, Hp2 in *.
    destruct (split_at_slash _ _ _ _ H1 H2 Heq) as [-> ->]. done.
  - intros [-> ->]. done.
Qed.

Lemma X7_witness :
  Utils.getStorageKey boundPage = Utils.getStorageKey editorPage
  <-> hostname (location boundPage) = hostname (location editorPage)
      /\ pathname (location boundPage) = pathname (location editorPage).
Proof.
  apply X7_key_separates_pages.
  - vm_compute. repeat constructor; discriminate.
  - vm_compute. repeat constructor; discriminate.
  - vm_compute. eexists. reflexivity.
  - vm_compute. eexists. reflexivity.
Defined.

(** X10.  The callback of [observeDOM] is idempotent: run again with
    nothing changed in between, it does nothing. *)
Theorem X10_observeDOM_idempotent w : observeDOM (observeDOM w) = observeDOM w.
Proof.
  destruct (selectors (hostname (location w))) as [sel|] eqn:Hsel.
  2:{ assert (Hid : observeDOM w = w) by (unfold observeDOM; by rewrite Hsel).
      by rewrite !Hid. }
  destruct (querySelector sel w) as [box|] eqn:Hq.
  2:{ assert (Hid : observeDOM w = w) by (unfold observeDOM; by rewrite Hsel, Hq).
      by rewrite !Hid. }
  destruct (decide (currentInput (manager w) = Some box)) as [Hc|Hc].
  { assert (Hid : observeDOM w = w).
    { unfold observeDOM. by rewrite Hsel, Hq, bool_decide_eq_true_2. }
    by rewrite !Hid. }
  assert (Hfix : forall w', location w' = location w -> querySelector sel w' = Some box ->
                            currentInput (manager w') = Some box -> observeDOM w' = w').
  { intros w' Hl Hq' Hc'. unfold observeDOM.
    by rewrite Hl, Hsel, Hq', bool_decide_eq_true_2. }
  destruct (AdapterFactory.create box w) as [a|] eqn:Ha.
  - destruct (observeDOM_surface_change_result w sel box a Hsel Hq Hc Ha) as (e & He & Hw).
    apply Hfix; rewrite Hw; [done| |done].
    rewrite <- Hq. apply querySelector_ext; [done|]. intros r. simpl.
    destruct (decide (r = box)) as [->|Hne].
    + rewrite list_lookup_insert_eq by (by eapply lookup_lt_Some). by rewrite He.
    + by rewrite list_lookup_insert_ne.
  - rewrite (observeDOM_unsupported w sel box) by done.
    apply Hfix; [done| |done]. rewrite <- Hq. by apply querySelector_ext.
Qed.

(** X11.  At every moment at most one debounced save is scheduled. *)
Theorem X11_one_pending_save w :
  reachable w -> (length (List.filter isSaveTimer (timers w)) <= 1)%nat.
Proof.
  intros Hr. destruct (reachable_timersOk w Hr) as [Hs _].
  destruct (reachable_timersTidy w Hr) as [Hnd _].
  destruct (typingTimer (manager w)) as [i|] eqn:Ety.
  - apply same_id_at_most_one with (i := i); [by apply NoDup_map_filter|].
    intros t Hin. apply filter_In in Hin as [Hin Hsv].
    specialize (Hs t Hin Hsv). congruence.
  - destruct (List.filter isSaveTimer (timers w)) as [|t l] eqn:E; [simpl; lia|].
    assert (Hin : In t (List.filter isSaveTimer (timers w))) by (rewrite E; by left).
    apply filter_In in Hin as [Hin Hsv]. specialize (Hs t Hin Hsv). congruence.
Qed.

Lemma X11_witness : (length (List.filter isSaveTimer (timers typedPage)) <= 1)%nat.
Proof. apply X11_one_pending_save. unfold typedPage. apply reachable_run, reachable_boot. Defined.

(** X12.  The debounced save stores the text read when the input event was
    handled, under the key of the page shown when the timer fires: a text
    the page sets afterwards is not what is saved, and a navigation in
    between moves the record to the new page.  Before 500 ms have passed
    the timer does nothing. *)
Theorem X12_debounced_save w a r v t l' dt :
  reachable w -> isSubmitting (manager w) = false -> adapter (manager w) = Some a ->
  0 <= dt ->
  let text := getValue a w in
  let k := js "draft_" ++ hostname l' ++ pathname l' in
  let w2 := run [PageSetsText r v t; PageNavigates l'; Tick dt] (handleInput w) in
  let w3 := step (TimerFires (nextTimerId w)) w2 in
  (dt < 500 -> w3 = w2)
  /\ (500 <= dt ->
      (JS.trim text <> [] ->
         storage w3 = <[k := Utils.obfuscate text]> (storage w)
         /\ effects w3 = effects w ++ [StorageSet k (Utils.obfuscate text)])
      /\ (JS.trim text = [] ->
         storage w3 = delete k (storage w)
         /\ effects w3 = effects w ++ [StorageRemove k])).
Proof.
  intros Hr Hs Ha Hdt text k w2 w3.
  destruct (reachable_timersOk w Hr) as [Hsv Hfr].
  pose proof (clearTimeout_fresh (typingTimer (manager w)) w Hfr) as Hfr1.
  set (w0 := clearTimeout (typingTimer (manager w)) w) in *.
  set (tm := mkTimer (nextTimerId w) (clock w + 500) (SaveDraftCb text)).
  assert (Hw0 : storage w0 = storage w /\ effects w0 = effects w /\ clock w0 = clock w
                /\ nextTimerId w0 = nextTimerId w
                /\ isSubmitting (manager w0) = isSubmitting (manager w)).
  { unfold w0. by destruct (typingTimer (manager w)). }
  destruct Hw0 as (Hst0 & Hef0 & Hck0 & Hnx0 & Hsb0).
  assert (Hw2 : timers w2 = timers w0 ++ [tm] /\ clock w2 = clock w + dt
                /\ storage w2 = storage w /\ effects w2 = effects w
                /\ isSubmitting (manager w2) = false /\ location w2 = l').
  { unfold w2. rewrite (handleInput_result a w Hs Ha). fold w0. fold text.
    cbn [run fold_left step]. destruct (Z.leb_spec0 0 dt); [|lia].
    unfold updateElement. case_match; simpl; rewrite ?Hck0, ?Hnx0, ?Hst0, ?Hef0, ?Hsb0; done. }
  destruct Hw2 as (Htm & Hck & Hst & Hef & Hsb & Hloc).
  assert (Hfind : findTimer (nextTimerId w) w2 = Some tm).
  { unfold findTimer. rewrite Htm. apply (find_fresh (timers w0) [] tm).
    intros t' Hin. specialize (Hfr1 t' Hin). fold w0 in Hfr1. rewrite Hnx0 in Hfr1.
    simpl. lia. }
  subst w3. cbn [step]. unfold fireTimer. rewrite Hfind. cbn [due callback tm]. rewrite Hck.
  split.
  - intros Hlt. destruct (Z.leb_spec0 (clock w + 500) (clock w + dt)); [lia | done].
  - intros Hge. destruct (Z.leb_spec0 (clock w + 500) (clock w + dt)); [|lia].
    cbn [runTimer]. cbn [manager removeTimer set_timers]. rewrite Hsb.
    unfold saveDraft, Utils.getStorageKey. cbn [location removeTimer set_timers]. rewrite Hloc.
    split; intros Ht.
    + destruct (isBlank text) eqn:E; [apply isBlank_trim in E; contradiction|].
      simpl. by rewrite Hst, Hef.
    + apply isBlank_trim in Ht. rewrite Ht. simpl. by rewrite Hst, Hef.
Qed.

Lemma X12_witness :
  storage (step (TimerFires 1)
             (run [PageSetsText 0 (js "Hello, world") []; PageNavigates (chatPage "/c/2"); Tick 500]
                (handleInput filledPage)))
  = {[ js "draft_chatgpt.com/c/2" := js "SGVsbG8=" ]}.
Proof.
  assert (Hr : reachable filledPage).
  { unfold filledPage, boundPage. apply reachable_run, reachable_run, reachable_boot. }
  assert (Hs : isSubmitting (manager filledPage) = false) by (vm_compute; reflexivity).
  assert (Ha : adapter (manager filledPage) = Some textareaAdapter) by (vm_compute; reflexivity).
  assert (Hd : 0 <= 500) by lia.
  pose proof (X12_debounced_save filledPage textareaAdapter 0%nat (js "Hello, world") []
                (chatPage "/c/2") 500 Hr Hs Ha Hd) as H.
  cbv zeta in H. destruct H as [_ H].
  assert (Hd' : 500 <= 500) by lia.
  destruct (H Hd') as [H1 _].
  assert (Ht : JS.trim (getValue textareaAdapter filledPage) <> []) by (vm_compute; discriminate).
  destruct (H1 Ht) as [H2 _].
  vm_compute in H2. vm_compute. exact H2.
Defined.

(** X13.  An input event that arrives while no adapter is in use cancels
    the pending save and schedules none: the read of [this.adapter] throws
    after [clearTimeout] has run. *)
Theorem X13_input_without_adapter w :
  reachable w -> isSubmitting (manager w) = false -> adapter (manager w) = None ->
  handleInput w = clearTimeout (typingTimer (manager w)) w
  /\ Forall (fun t => isSaveTimer t = false) (timers (handleInput w)).
Proof.
  intros Hr Hs Ha.
  assert (Heq : handleInput w = clearTimeout (typingTimer (manager w)) w).
  { unfold handleInput. rewrite Hs.
    destruct (typingTimer (manager w)); cbn [clearTimeout]; simpl; by rewrite Ha. }
  split; [done|]. rewrite Heq. apply Forall_forall. intros t Hin.
  apply list_elem_of_In in Hin.
  by apply (clearTimeout_no_saves w (proj1 (reachable_timersOk w Hr))).
Qed.

Lemma X13_witness :
  handleInput orphanedPage = clearTimeout (typingTimer (manager orphanedPage)) orphanedPage
  /\ Forall (fun t => isSaveTimer t = false) (timers (handleInput orphanedPage)).
Proof.
  apply X13_input_without_adapter.
  - unfold orphanedPage, typedPage. apply reachable_run, reachable_run, reachable_boot.
  - vm_compute. reflexivity.
  - vm_compute. reflexivity.
Defined.

(** X14.  A second submit key pressed while the guard is active does not
    extend it: the timer of the first key releases the guard 2000 ms after
    the first key, and the timer of the second key is still to come. *)
Theorem X14_guard_not_extended w e d :
  reachable w -> isSubmitKey e -> 0 <= d < 2000 ->
  let w3 := handleKeydown e (step (Tick d) (handleKeydown e w)) in
  let w4 := step (Tick (2000 - d)) w3 in
  let w5 := step (TimerFires (nextTimerId w)) w4 in
  isSubmitting (manager w4) = true
  /\ isSubmitting (manager w5) = false
  /\ clock w5 = clock w + 2000
  /\ In (mkTimer (S (nextTimerId w)) (clock w + d + 2000) ReleaseGuardCb) (timers w5).
Proof.
  intros Hr He Hd w3 w4 w5.
  destruct (reachable_timersOk w Hr) as [_ Hfr].
  destruct (reachable_timersTidy w Hr) as [_ Hty].
  set (n := nextTimerId w) in *.
  set (rel1 := mkTimer n (clock w + 2000) ReleaseGuardCb).
  set (rel2 := mkTimer (S n) (clock w + d + 2000) ReleaseGuardCb).
  set (w1 := handleKeydown e w) in *.
  destruct (handleKeydown_timers e w He) as (Ht1 & Hy1 & Hn1 & Hc1 & _). fold w1 rel1 n in Ht1, Hy1, Hn1, Hc1.
  set (w2 := step (Tick d) w1) in *.
  assert (Hw2 : timers w2 = timers w1 /\ typingTimer (manager w2) = typingTimer (manager w1)
                /\ nextTimerId w2 = nextTimerId w1 /\ clock w2 = clock w1 + d).
  { unfold w2. cbn [step]. destruct (Z.leb_spec0 0 d); [done | lia]. }
  destruct Hw2 as (Ht2 & Hy2 & Hn2 & Hc2).
  destruct (handleKeydown_timers e w2 He) as (Ht3 & _ & _ & Hc3 & Hs3). fold w3 in Ht3, Hc3, Hs3.
  assert (Hw4 : timers w4 = timers w3 /\ clock w4 = clock w3 + (2000 - d)
                /\ isSubmitting (manager w4) = isSubmitting (manager w3)).
  { unfold w4. cbn [step]. destruct (Z.leb_spec0 0 (2000 - d)); [done | lia]. }
  destruct Hw4 as (Ht4 & Hc4 & Hs4).
  assert (Hck : clock w4 = clock w + 2000) by lia.
  (* the timers of w3: what the second clearTimeout leaves of the first list, then rel2 *)
  assert (Hshape : exists l1, timers w4 = l1 ++ rel1 :: [rel2]
                              /\ forall t, In t l1 -> (timerId t < n)%nat).
  { rewrite Ht4, Ht3, Hn2, Hn1, Hc2, Hc1, Hy2, Hy1.
    destruct (typingTimer (manager w)) as [i|] eqn:E; cbn [clearTimeout] in *.
    - specialize (Hty i eq_refl). simpl. simpl in Ht1. rewrite Ht2, Ht1.
      rewrite List.filter_app. cbn [List.filter].
      assert (Hk : negb (timerIs i (mkTimer n (clock w + 2000) ReleaseGuardCb)) = true).
      { unfold timerIs. simpl. destruct (Nat.eqb_spec n i); [lia | done]. }
      rewrite Hk.
      eexists. split; [by rewrite <- app_assoc|].
      intros t Hin. apply filter_In in Hin as [Hin _]. apply filter_In in Hin as [Hin _].
      by apply Hfr.
    - rewrite Ht2, Ht1. eexists. split; [by rewrite <- app_assoc|]. intros t Hin. by apply Hfr. }
  destruct Hshape as (l1 & Htm & Hl1).
  assert (Hfind : findTimer n w4 = Some rel1).
  { unfold findTimer. rewrite Htm. apply (find_fresh l1 [rel2] rel1).
    intros t Hin. specialize (Hl1 t Hin). simpl. lia. }
  split; [by rewrite Hs4|].
  subst w5. cbn [step]. unfold fireTimer. rewrite Hfind. cbn [due callback rel1].
  rewrite Hck. destruct (Z.leb_spec0 (clock w + 2000) (clock w + 2000)); [|lia].
  cbn [runTimer]. simpl. split; [done|]. split; [exact Hck|].
  rewrite Htm. apply filter_In. split.
  - apply in_app_iff. right. right. by left.
  - unfold timerIs. cbn [timerId rel2]. destruct (Nat.eqb_spec (S n) n); [lia | done].
Qed.

Lemma X14_witness :
  let w3 := handleKeydown enterKey (step (Tick 1500) (handleKeydown enterKey boundPage)) in
  let w4 := step (Tick (2000 - 1500)) w3 in
  let w5 := step (TimerFires (nextTimerId boundPage)) w4 in
  isSubmitting (manager w4) = true
  /\ isSubmitting (manager w5) = false
  /\ clock w5 = clock boundPage + 2000
  /\ In (mkTimer (S (nextTimerId boundPage)) (clock boundPage + 1500 + 2000) ReleaseGuardCb)
        (timers w5).
Proof.
  apply X14_guard_not_extended.
  - unfold boundPage. apply reachable_run, reachable_boot.
  - split; reflexivity.
  - lia.
Defined.

(** X15.  No task of the script changes the record of another page: after
    any event the store holds under every key but the key of the current
    page what it held before. *)
Theorem X15_other_records_kept ev w k :
  k <> Utils.getStorageKey w -> storage (step ev w) !! k = storage w !! k.
Proof.
  intros Hk. destruct ev; cbn [step].
  - destruct (observeURL_storage (if underBody then observeDOM w else w)) as [-> _].
    destruct underBody; [|done]. by destruct (observeDOM_timers w) as (_ & _ & _ & _ & -> & _).
  - by apply dispatchEvent_keepsKey.
  - by apply dispatchEvent_keepsKey.
  - by case_match.
  - unfold fireTimer. repeat case_match; try done.
    by apply (runTimer_keepsKey k (callback t) (removeTimer id w)).
  - destruct (pendingGets w) as [|g rest]; [done|].
    by destruct (restoreDraftCallback_effects (getKey g) (getResult g) (set_pendingGets rest w))
      as [-> _].
  - by case_match.
  - unfold updateElement. by case_match.
  - done.
  - done.
  - done.
Qed.

Lemma X15_witness :
  storage (step (KeydownEvent 0 (js "Enter") false) boundPage) !! js "draft_chatgpt.com/c/2"
  = storage boundPage !! js "draft_chatgpt.com/c/2".
Proof. apply X15_other_records_kept. vm_compute. discriminate. Defined.

(** X16.  Save, then restore: when a draft written by [saveDraft] is read
    back by [restoreDraft] while the bound surface is blank, the callback
    calls [setValue] with exactly the saved text and shows the
    notification, and the record stays in the store. *)
Theorem X16_save_then_restore w a text :
  adapter (manager w) = Some a -> pendingGets w = [] ->
  JS.isWellFormed text = true -> JS.trim text <> [] -> JS.trim (getValue a w) = [] ->
  let k := js "draft_" ++ hostname (location w) ++ pathname (location w) in
  let w2 := step GetReturns (restoreDraft (saveDraft text w)) in
  storage w2 !! k = Some (Utils.obfuscate text)
  /\ effects w2 = effects w ++ [StorageSet k (Utils.obfuscate text); StorageGet k;
                                SetValue (el a) text; ShowToast restoredMessage]
  /\ pendingGets w2 = [].
Proof.
  intros Ha Hp Hwf Ht Hb k w2.
  assert (Hnb : isBlank text = false).
  { destruct (isBlank text) eqn:E; [apply isBlank_trim in E; contradiction | done]. }
  assert (Hcur : isBlank (getValue a w) = true) by (by apply isBlank_trim).
  pose proof (obfuscate_nonempty text (trim_nonempty text Ht)) as Hobf.
  set (obf := Utils.obfuscate text) in *.
  set (w0 := set_pendingGets []
               (record (StorageGet k) (record (StorageSet k obf)
                  (set_storage (<[k := obf]> (storage w)) w)))).
  assert (Hstep : w2 = restoreDraftCallback k (Some obf) w0).
  { unfold w2, restoreDraft, saveDraft. rewrite Hnb. fold obf.
    unfold storage_get, storage_set, Utils.getStorageKey. cbn [step]. simpl.
    rewrite Hp. simpl. fold k. rewrite lookup_insert_eq. done. }
  assert (Hcb : restoreDraftCallback k (Some obf) w0
                = Utils.showToast restoredMessage (setValue a text w0)).
  { unfold restoreDraftCallback.
    change (adapter (manager w0)) with (adapter (manager w)). rewrite Ha.
    rewrite (truthy_nonempty obf Hobf).
    change (getValue a w0) with (getValue a w). rewrite Hcur.
    unfold obf. rewrite (deobfuscate_obfuscate text Hwf).
    by rewrite (truthy_nonempty text (trim_nonempty text Ht)). }
  rewrite Hstep, Hcb.
  destruct (setValue_frame a text w0) as (Hst & Hef & _).
  destruct (dispatch_input_frame (el a)
              (record (SetValue (el a) text)
                 (updateElement (el a) (writeText (kind a) text) w0)))
    as (_ & _ & _ & _ & _ & _ & _ & Hpg & _).
  split; [|split].
  - unfold Utils.showToast. simpl. rewrite Hst. simpl. apply lookup_insert_eq.
  - unfold Utils.showToast. simpl. rewrite Hef. simpl. by rewrite <- !app_assoc.
  - unfold Utils.showToast. simpl. unfold setValue. rewrite Hpg.
    unfold updateElement. by destruct (heap w0 !! el a).
Qed.

Lemma X16_witness :
  let k := js "draft_" ++ hostname (location boundPage) ++ pathname (location boundPage) in
  let w2 := step GetReturns (restoreDraft (saveDraft (js "Hello") boundPage)) in
  storage w2 !! k = Some (Utils.obfuscate (js "Hello"))
  /\ effects w2 = effects boundPage ++ [StorageSet k (Utils.obfuscate (js "Hello")); StorageGet k;
                                        SetValue (el textareaAdapter) (js "Hello");
                                        ShowToast restoredMessage]
  /\ pendingGets w2 = [].
Proof.
  apply (X16_save_then_restore boundPage textareaAdapter (js "Hello")).
  - vm_compute. reflexivity.
  - vm_compute. reflexivity.
  - vm_compute. reflexivity.
  - vm_compute. discriminate.
  - vm_compute. reflexivity.
Defined.

(** X17.  A stored record that [atob] does not accept is not restored:
    [deobfuscate] gives the empty string and the callback of [restoreDraft]
    changes nothing. *)
Theorem X17_undecodable_record_ignored w key stored :
  JS.atob stored = None ->
  Utils.deobfuscate stored = [] /\ restoreDraftCallback key (Some stored) w = w.
Proof.
  intros Hat.
  assert (Hd : Utils.deobfuscate stored = []) by (unfold Utils.deobfuscate; by rewrite Hat).
  split; [exact Hd|]. unfold restoreDraftCallback. rewrite Hd. by repeat case_match.
Qed.

Lemma X17_witness :
  Utils.deobfuscate (js "SGVsb") = []
  /\ restoreDraftCallback (js "draft_chatgpt.com/c/1") (Some (js "SGVsb")) boundPage = boundPage.
Proof. apply X17_undecodable_record_ignored. vm_compute. reflexivity. Defined.

(** X18.  While the guard is off, [setValue] on a bound element arms the
    debounced save: the synthetic input event runs [handleInput], which
    schedules, 500 ms later, a save of the text the adapter reads from the
    element after the write. *)
Theorem X18_setValue_arms_save w a e val :
  adapter (manager w) = Some a -> heap w !! el a = Some e ->
  In (EvtInput, HandleInput) (listeners e) -> isSubmitting (manager w) = false ->
  saveArmed a (nextTimerId w) (getValue a (setValue a val w)) (clock w + 500)
    (setValue a val w).
Proof.
  intros Ha He Hl Hs. unfold setValue.
  set (w1 := record (SetValue (el a) val) (updateElement (el a) (writeText (kind a) val) w)).
  assert (H1 : heap w1 !! el a = Some (writeText (kind a) val e)
               /\ manager w1 = manager w /\ nextTimerId w1 = nextTimerId w
               /\ clock w1 = clock w).
  { unfold w1, updateElement. rewrite He. simpl.
    rewrite list_lookup_insert_eq by (by eapply lookup_lt_Some). done. }
  destruct H1 as (He1 & Hm1 & Hn1 & Hc1).
  assert (Hv : getValue a (dispatchEvent (el a) (mkDomEvent EvtInput None false) w1)
               = getValue a w1).
  { unfold getValue. by rewrite dispatchEvent_heap. }
  rewrite Hv, <- Hn1, <- Hc1.
  apply dispatch_input_arms.
  - exists (writeText (kind a) val e). split; [done|]. by destruct (kind a).
  - by rewrite Hm1.
  - by rewrite Hm1.
Qed.

Lemma X18_witness :
  saveArmed textareaAdapter (nextTimerId boundPage)
    (getValue textareaAdapter (setValue textareaAdapter (js "Hello") boundPage))
    (clock boundPage + 500) (setValue textareaAdapter (js "Hello") boundPage).
Proof.
  apply (X18_setValue_arms_save boundPage textareaAdapter boundTextarea (js "Hello")).
  - vm_compute. reflexivity.
  - vm_compute. reflexivity.
  - left. reflexivity.
  - vm_compute. reflexivity.
Defined.

(** X19.  The adapter in use is always bound: its element is in the heap
    with the input and the keydown listener of the script on it, and while
    an element is tracked it is the element of the adapter. *)
Theorem X19_adapter_is_bound w a :
  reachable w -> adapter (manager w) = Some a ->
  hasListener (el a) EvtInput HandleInput w
  /\ hasListener (el a) EvtKeydown HandleKeydown w
  /\ forall b, currentInput (manager w) = Some b -> el a = b.
Proof. intros Hr Ha. exact (reachable_adapterBound w Hr a Ha). Qed.

Lemma X19_witness :
  hasListener (el textareaAdapter) EvtInput HandleInput typedPage
  /\ hasListener (el textareaAdapter) EvtKeydown HandleKeydown typedPage
  /\ forall b, currentInput (manager typedPage) = Some b -> el textareaAdapter = b.
Proof.
  apply X19_adapter_is_bound.
  - unfold typedPage. apply reachable_run, reachable_boot.
  - vm_compute. reflexivity.
Defined.

(** X20.  On a host without a selector the script stays inert: whatever
    the page and the user do, as long as the page stays on such hosts, the
    store is never read or written, no adapter is made and no element gets
    a listener. *)
Theorem X20_unlisted_host_is_inert l els doc store evs :
  selectors (hostname l) = None -> Forall staysUnlisted evs ->
  let w := run evs (boot l els doc store) in
  storage w = store /\ effects w = [] /\ adapter (manager w) = None
  /\ forall r e, heap w !! r = Some e -> listeners e = [].
Proof.
  intros Hs Hevs w.
  destruct (dormant_run evs (boot l els doc store) Hevs (dormant_boot l els doc store Hs))
    as ((_ & Ha & _ & Hl & _) & Hst & Hef).
  done.
Qed.

Lemma X20_witness :
  let w := run otherSiteTrace (boot otherSite [] [] ∅) in
  storage w = ∅ /\ effects w = [] /\ adapter (manager w) = None
  /\ forall r e, heap w !! r = Some e -> listeners e = [].
Proof.
  apply X20_unlisted_host_is_inert.
  - vm_compute. reflexivity.
  - unfold otherSiteTrace. repeat constructor.
Defined.
